(** * network-reach/reach.py: reachability analysis, embedded and verified

    A shallow embedding of [src/network-reach/reach.py].  Python dictionaries
    returned by the AWS API become records (or finite maps where the code
    tests key presence), [for] loops become structural recursion over lists,
    [print]/[pprint] become entries of an output log, and exceptions
    ([ValueError] from [ipaddress], [KeyError], failed [assert]s) become the
    error side of a small writer/error monad. *)

From Stdlib Require Import ZArith String Ascii List Bool Lia.
From stdpp Require Import base option list strings gmap.

Local Open Scope string_scope.
Local Open Scope list_scope.
Local Open Scope Z_scope.

(** ** The part of Python's [ipaddress] module the program uses

    The program calls [ipaddress.ip_address], [ipaddress.ip_network] (with
    the default [strict=True]) and the [in] operator.  Addresses are IPv4:
    the AWS fields the program reads ([DestinationCidrBlock], [CidrBlock],
    [CidrIp]) carry IPv4 text only.  The accepted text is the dotted quad,
    optionally followed by [/] and a decimal prefix length; IPv6 literals
    and prefixes written as a dotted netmask are outside this model and
    are rejected like malformed text. *)
Module ipaddress.

(** [str.split(sep)] for a one-character separator. *)
Fixpoint split (sep : ascii) (s : string) : list string :=
  match s with
  | EmptyString => [EmptyString]
  | String c s' =>
      if Ascii.eqb c sep then EmptyString :: split sep s'
      else match split sep s' with
           | w :: ws => String c w :: ws
           | [] => [String c EmptyString]
           end
  end.

Definition isdigit (c : ascii) : bool :=
  let n := Z.of_N (N_of_ascii c) in (48 <=? n) && (n <=? 57).

Fixpoint all_digits (s : string) : bool :=
  match s with
  | EmptyString => true
  | String c s' => isdigit c && all_digits s'
  end.

(** [int(s, 10)] on a string of decimal digits. *)
Fixpoint int_acc (acc : Z) (s : string) : Z :=
  match s with
  | EmptyString => acc
  | String c s' => int_acc (10 * acc + (Z.of_N (N_of_ascii c) - 48)) s'
  end.

Definition int (s : string) : Z := int_acc 0 s.

(** [IPv4Address._parse_octet]: one to three decimal digits, no leading
    zero except for ["0"] itself, value at most 255. *)
Definition parse_octet (octet_str : string) : option Z :=
  if String.eqb octet_str "" then None
  else if negb (all_digits octet_str) then None
  else if (3 <? String.length octet_str)%nat then None
  else if negb (String.eqb octet_str "0") && String.prefix "0" octet_str then None
  else let octet_int := int octet_str in
       if 255 <? octet_int then None else Some octet_int.

(** [IPv4Address._ip_int_from_string]: four octets, big endian. *)
Definition ip_int_from_string (ip_str : string) : option Z :=
  match split "." ip_str with
  | [o1; o2; o3; o4] =>
      a ← parse_octet o1; b ← parse_octet o2;
      c ← parse_octet o3; d ← parse_octet o4;
      Some (((a * 256 + b) * 256 + c) * 256 + d)
  | _ => None
  end.

(** An [IPv4Address] is its integer [_ip]. *)
Definition IPv4Address := Z.

Definition ip_address (address : string) : option IPv4Address :=
  match split "/" address with
  | [ip_str] => ip_int_from_string ip_str
  | _ => None
  end.

Definition ALL_ONES : Z := 2 ^ 32 - 1.
Definition max_prefixlen : Z := 32.

Record IPv4Network := mkNetwork {
  network_address : IPv4Address;
  prefixlen : Z
}.

(** [IPv4Network.netmask]: [_ALL_ONES ^ (_ALL_ONES >> prefixlen)]. *)
Definition netmask_of (p : Z) : Z := Z.lxor ALL_ONES (Z.shiftr ALL_ONES p).

Definition netmask (n : IPv4Network) : Z := netmask_of (prefixlen n).

(** [_prefix_from_prefix_string]: decimal digits, at most 32. *)
Definition prefix_from_prefix_string (prefixlen_str : string) : option Z :=
  if String.eqb prefixlen_str "" then None
  else if negb (all_digits prefixlen_str) then None
  else let p := int prefixlen_str in
       if max_prefixlen <? p then None else Some p.

(** [ip_network(address)] with [strict=True]: text with host bits set
    is refused. *)
Definition ip_network (address : string) : option IPv4Network :=
  '(addr, p) ← match split "/" address with
               | [addr] => Some (addr, max_prefixlen)
               | [addr; mask] => p ← prefix_from_prefix_string mask; Some (addr, p)
               | _ => None
               end;
  packed ← ip_int_from_string addr;
  if Z.land packed (netmask_of p) =? packed
  then Some (mkNetwork packed p)
  else None.

(** [address in network], i.e. [_BaseNetwork.__contains__]:
    [other._ip & self.netmask._ip == self.network_address._ip]. *)
Definition contains (n : IPv4Network) (a : IPv4Address) : bool :=
  Z.land a (netmask n) =? network_address n.

End ipaddress.

(** ** Data returned by the AWS API

    Each record keeps the keys of the Python dictionary that the program
    reads.  A route is kept as a finite map from key to value, because the
    program decides on the presence of keys ([DestinationCidrBlock],
    [GatewayId], [NatGatewayId], [VpcPeeringConnectionId]). *)

Abbreviation Route := (gmap string string).

Record RouteTable := mkRouteTable {
  RouteTableId : string;
  Routes : list Route
}.

(** A NACL entry carries either [CidrBlock] or [Ipv6CidrBlock]; the
    program reads [e['CidrBlock']] unguarded. *)
Record NaclEntry := mkNaclEntry {
  RuleNumber : Z;
  RuleAction : string;
  Egress : bool;
  CidrBlock : option string
}.

Record NetworkAcl := mkNetworkAcl {
  NetworkAclId : string;
  Entries : list NaclEntry
}.

Record IpRange := mkIpRange { CidrIp : string }.

Record IpPermission := mkIpPermission {
  IpProtocol : string;
  IpRanges : list IpRange;
  Ipv6Ranges : list string;
  PrefixListIds : list string;
  UserIdGroupPairs : list string
}.

Record SecurityGroup := mkSecurityGroup {
  GroupId : string;
  IpPermissions : list IpPermission;
  IpPermissionsEgress : list IpPermission
}.

Record Subnet := mkSubnet {
  SubnetId : string;
  subnet_CidrBlock : string
}.

Record BgpPeer := mkBgpPeer {
  bgpPeerId : string;
  bgpPeerState : string;
  bgpStatus : string
}.

Record VirtualInterface := mkVirtualInterface {
  virtualInterfaceId : string;
  virtualInterfaceName : string;
  virtualInterfaceState : string;
  virtualGatewayId : string;
  bgpPeers : list BgpPeer
}.

Record Attachment := mkAttachment { attachment_State : string }.

Record InternetGateway := mkInternetGateway {
  InternetGatewayId : string;
  Attachments : list Attachment
}.

Record VpnGateway := mkVpnGateway {
  VpnGatewayId : string;
  vgw_State : string;
  VpcAttachments : list Attachment
}.

Record NatGateway := mkNatGateway {
  NatGatewayId : string;
  nat_State : string
}.

Record VpcInfo := mkVpcInfo { VpcId : string; vpc_CidrBlock : string }.

Record VpcPeeringConnection := mkVpcPeeringConnection {
  VpcPeeringConnectionId : string;
  StatusCode : string;
  AccepterVpcInfo : VpcInfo;
  RequesterVpcInfo : VpcInfo
}.

(** A member of a DB subnet group or replication subnet group. *)
Record GroupSubnet := mkGroupSubnet {
  SubnetIdentifier : string;
  SubnetStatus : string
}.

Record SubnetGroup := mkSubnetGroup {
  group_VpcId : string;
  Subnets : list GroupSubnet
}.

(** An EC2 instance.  [Tags] is a list of [Key]/[Value] dictionaries and
    is absent when the instance has no tag; [SecurityGroups] and
    [VpcSecurityGroups] below are kept as the list of their group ids.
    [Name] is the key that [get_ec2_instance_by_private_ip] adds. *)
Record Instance := mkInstance {
  InstanceId : string;
  instance_VpcId : string;
  instance_SubnetId : string;
  PrivateDnsName : string;
  PrivateIpAddress : string;
  Tags : option (list (gmap string string));
  SecurityGroups : list string;
  Name : string
}.

Record Reservation := mkReservation { Instances : list Instance }.

Record DBInstance := mkDBInstance {
  DBInstanceIdentifier : string;
  DBSubnetGroup : SubnetGroup;
  EndpointAddress : string;
  PubliclyAccessible : bool;
  db_VpcSecurityGroups : list string
}.

Record ReplicationInstance := mkReplicationInstance {
  ReplicationInstanceIdentifier : string;
  ReplicationSubnetGroup : SubnetGroup;
  ReplicationInstancePrivateIpAddress : string;
  dms_VpcSecurityGroups : list string
}.

(** The current best match of [find_route_matches]: the dictionary
    [{'route': .., 'route_cidr': .., 'prefixlen': ..}]; the empty
    dictionary is [None]. *)
Record BestMatch := mkBestMatch {
  bm_route : Route;
  bm_route_cidr : ipaddress.IPv4Network;
  bm_prefixlen : Z
}.

(** ** Output and exceptions *)

(** What [pprint] and f-strings are given to show. *)
Inductive Evidence :=
  | EvRoute (r : Route)
  | EvBestMatch (m : option BestMatch)
  | EvRouteTable (t : RouteTable)
  | EvNaclEntries (l : list NaclEntry)
  | EvNetworkAcl (n : NetworkAcl)
  | EvNetworkAcls (l : list NetworkAcl)
  | EvPermissions (l : list IpPermission)
  | EvSecurityGroups (l : list SecurityGroup)
  | EvSubnets (l : list Subnet)
  | EvVirtualInterfaces (l : list VirtualInterface)
  | EvVirtualInterface (i : VirtualInterface)
  | EvBgpPeer (p : BgpPeer)
  | EvInternetGateway (g : InternetGateway)
  | EvVpnGateway (g : VpnGateway)
  | EvNatGateway (g : NatGateway)
  | EvVpcPeeringConnection (c : VpcPeeringConnection)
  | EvVpcInfo (i : VpcInfo)
  | EvInstance (i : Instance)
  | EvDBInstance (i : DBInstance)
  | EvReplicationInstance (i : ReplicationInstance)
  | EvDBInstances (l : list DBInstance)
  | EvReplicationInstances (l : list ReplicationInstance)
  | EvGroupIds (l : list string).

Inductive Output :=
  | Print (s : string)
  | PrintF (s : string) (e : Evidence)
  | PPrint (e : Evidence).

Inductive exn :=
  | ValueError | KeyError | AssertionError | AttributeError
  | UnboundLocalError | OSError.

Inductive Result (A : Type) :=
  | Ok (a : A)
  | Raise (e : exn).
Arguments Ok {A} a.
Arguments Raise {A} e.

(** A computation prints a list of lines and then returns or raises. *)
Definition M (A : Type) : Type := list Output * Result A.

#[global] Instance M_ret : MRet M := λ A x, ([], Ok x).

#[global] Instance M_bind : MBind M := λ A B f m,
  match m with
  | (l, Ok a) => let '(l', r) := f a in (l ++ l', r)
  | (l, Raise e) => (l, Raise e)
  end.

Definition print (s : string) : M unit := ([Print s], Ok tt).
Definition printf (s : string) (e : Evidence) : M unit := ([PrintF s e], Ok tt).
Definition pprint (e : Evidence) : M unit := ([PPrint e], Ok tt).
Definition raise {A} (e : exn) : M A := ([], Raise e).

(** [assert b] *)
Definition assert (b : bool) : M unit :=
  if b then mret tt else raise AssertionError.

(** [if b: body] for a body that only prints. *)
Definition when (b : bool) (body : M unit) : M unit :=
  if b then body else mret tt.

(** A library call that raises [e] where the model returns [None]. *)
Definition or_raise {A} (e : exn) (o : option A) : M A :=
  match o with
  | Some a => mret a
  | None => raise e
  end.

(** [for x in l: s = body x s] *)
Fixpoint for_each {A S} (l : list A) (body : A → S → M S) (s : S) : M S :=
  match l with
  | [] => mret s
  | x :: l' => s' ← body x s; for_each l' body s'
  end.

(** The lines of a run and its outcome. *)
Definition output {A} (m : M A) : list Output := m.1.
Definition outcome {A} (m : M A) : Result A := m.2.

(** Severity of a line, read off the prefix the program prints. *)
Inductive Severity := Problem | Warning | Info.

Definition severity (o : Output) : Severity :=
  match o with
  | Print s =>
      if String.prefix "NETWORK CONNECTIVITY ERROR." s || String.prefix "ERROR." s
      then Problem
      else if String.prefix "WARNING." s then Warning else Info
  | _ => Info
  end.

Definition is_problem (o : Output) : bool :=
  match severity o with Problem => true | _ => false end.

Definition is_warning (o : Output) : bool :=
  match severity o with Warning => true | _ => false end.

(** The problem lines of an output. *)
Definition problems (l : list Output) : list Output := List.filter is_problem l.

(** ** The matching functions of reach.py *)

(** CIDR block describing all IPV addresses *)
Definition ALL_IPV4 : string := "0.0.0.0/0".

Definition find_route_matches_body (dest_ip : ipaddress.IPv4Address) (verbose : bool)
    (r : Route) (match_ : option BestMatch) : M (option BestMatch) :=
  when verbose (printf "Considering route: " (EvRoute r));;
  match r !! "DestinationCidrBlock" with
  | None => mret match_
  | Some cidr_str =>
      route_cidr ← or_raise ValueError (ipaddress.ip_network cidr_str);
      if ipaddress.contains route_cidr dest_ip then
        let match' :=
          if from_option bm_prefixlen (-1) match_ <? ipaddress.prefixlen route_cidr
          then Some (mkBestMatch r route_cidr (ipaddress.prefixlen route_cidr))
          else match_ in
        when verbose (print "Route matched. ";;
                      print "Current best match:";;
                      pprint (EvBestMatch match'));;
        mret match'
      else mret match_
  end.

Definition find_route_matches (routes : list Route) (dest_ip_str : string)
    (verbose : bool) : M (option Route) :=
  dest_ip ← or_raise ValueError (ipaddress.ip_address dest_ip_str);
  match_ ← for_each routes (find_route_matches_body dest_ip verbose) None;
  mret (bm_route <$> match_).

Definition find_nacl_rule_matches_body (dest_ip : ipaddress.IPv4Address)
    (e : NaclEntry) (acc : list NaclEntry * list NaclEntry)
    : M (list NaclEntry * list NaclEntry) :=
  let '(inbound_rules, outbound_rules) := acc in
  cidr_str ← or_raise KeyError (CidrBlock e);
  cidr ← or_raise ValueError (ipaddress.ip_network cidr_str);
  if ipaddress.contains cidr dest_ip then
    if Egress e then mret (inbound_rules, outbound_rules ++ [e])
    else mret (inbound_rules ++ [e], outbound_rules)
  else mret acc.

Definition find_nacl_rule_matches (nacl_entries : list NaclEntry)
    (dest_ip_str : string) : M (list NaclEntry * list NaclEntry) :=
  dest_ip ← or_raise ValueError (ipaddress.ip_address dest_ip_str);
  for_each nacl_entries (find_nacl_rule_matches_body dest_ip) ([], []).

(** The inner loop over [p['IpRanges']], left by [break] at the first
    range that is the match-all text or contains the destination. *)
Fixpoint ip_ranges_match (dest_ip : ipaddress.IPv4Address) (ranges : list IpRange)
    : M bool :=
  match ranges with
  | [] => mret false
  | r :: ranges' =>
      if String.eqb (CidrIp r) ALL_IPV4 then mret true
      else
        cidr ← or_raise ValueError (ipaddress.ip_network (CidrIp r));
        if ipaddress.contains cidr dest_ip then mret true
        else ip_ranges_match dest_ip ranges'
  end.

Definition find_security_group_matches_body (dest_ip : ipaddress.IPv4Address)
    (p : IpPermission) (matches : list IpPermission) : M (list IpPermission) :=
  matched ← (if (0 <? length (IpRanges p))%nat
             then ip_ranges_match dest_ip (IpRanges p)
             else mret false);
  when (0 <? length (Ipv6Ranges p))%nat
       (print "WARNING. Ignoring IPv6 rules in Security Group.");;
  when (0 <? length (PrefixListIds p))%nat
       (print "WARNING. Ignoring Perfix List rules in Security Group.");;
  let matched := if (0 <? length (UserIdGroupPairs p))%nat then true else matched in
  if matched then mret (matches ++ [p]) else mret matches.

Definition find_security_group_matches (permissions : list IpPermission)
    (dest_ip_str : string) : M (list IpPermission) :=
  dest_ip ← or_raise ValueError (ipaddress.ip_address dest_ip_str);
  for_each permissions (find_security_group_matches_body dest_ip) [].

(** ** The AWS control plane

    Every boto3 call the program makes is a field of the snapshot: the
    response for the given request parameters.  [gethostbyname] is
    [socket.gethostbyname], which raises [OSError] on failure. *)
Record World := mkWorld {
  describe_subnets : list string → list Subnet;
  describe_network_acls : list string → list NetworkAcl;
  describe_route_tables_for_subnet : string → list RouteTable;
  describe_main_route_tables : string → list RouteTable;
  describe_nat_gateways : string → list NatGateway;
  describe_vpc_peering_connections : string → list VpcPeeringConnection;
  describe_internet_gateways : string → list InternetGateway;
  describe_vpn_gateways : string → list VpnGateway;
  describe_virtual_interfaces : list VirtualInterface;
  describe_instances : string → list Reservation;
  describe_security_groups : list string → list SecurityGroup;
  describe_db_instances : string → list DBInstance;
  describe_replication_instances : string → list ReplicationInstance;
  gethostbyname : string → option string
}.

(** [l[0]] after [assert len(l) == 1]. *)
Definition the_only {A} (l : list A) : M A :=
  match l with
  | [x] => mret x
  | _ => raise AssertionError
  end.

Section Reach.

Variable aws : World.

Fixpoint get_value_for_tag_key (tags : list (gmap string string)) (key : string)
    : string :=
  match tags with
  | [] => ""
  | item :: tags' =>
      if String.eqb (default "" (item !! "Key")) key
      then default "" (item !! "Value")
      else get_value_for_tag_key tags' key
  end.

Definition get_subnets (subnet_id_list : list string) (verbose : bool)
    : M (list Subnet) :=
  let response := describe_subnets aws subnet_id_list in
  when verbose (print "Subnets:";; pprint (EvSubnets response));;
  assert (length subnet_id_list =? length response)%nat;;
  mret response.

Fixpoint find_subnet_for_ip_loop (ip_address : ipaddress.IPv4Address)
    (subnets : list Subnet) : M (option Subnet) :=
  match subnets with
  | [] => mret None
  | s :: subnets' =>
      cidr ← or_raise ValueError (ipaddress.ip_network (subnet_CidrBlock s));
      if ipaddress.contains cidr ip_address then mret (Some s)
      else find_subnet_for_ip_loop ip_address subnets'
  end.

Definition find_subnet_for_ip (subnet_id_list : list string)
    (ip_address_str : string) (verbose : bool) : M (option Subnet * list Subnet) :=
  subnets ← get_subnets subnet_id_list verbose;
  ip_address ← or_raise ValueError (ipaddress.ip_address ip_address_str);
  s ← find_subnet_for_ip_loop ip_address subnets;
  mret (s, subnets).

Definition get_nacls_for_subnets (list_subnet_ids : list string) (verbose : bool)
    : M (list NetworkAcl) :=
  let response := describe_network_acls aws list_subnet_ids in
  when verbose (pprint (EvNetworkAcls response));;
  mret response.

Definition get_main_route_table_for_vpc (vpc_id : string) : M RouteTable :=
  the_only (describe_main_route_tables aws vpc_id).

Definition get_route_table_for_subnet (vpc_id subnet_id : string) (verbose : bool)
    : M RouteTable :=
  let response := describe_route_tables_for_subnet aws subnet_id in
  assert (length response <=? 1)%nat;;
  result ← match response with
           | [t] => mret t
           | _ => get_main_route_table_for_vpc vpc_id
           end;
  when verbose (print ("Route Table for Subnet " +:+ subnet_id +:+ ":");;
                pprint (EvRouteTable result));;
  mret result.

(** The dictionary [rtables], keyed by [RouteTableId]. *)
Definition get_route_tables_for_subnets (vpc_id : string)
    (list_subnet_ids : list string) (verbose : bool) : M (gmap string RouteTable) :=
  for_each list_subnet_ids
    (λ subnet_id (rtables : gmap string RouteTable),
       result ← get_route_table_for_subnet vpc_id subnet_id verbose;
       mret (<[RouteTableId result := result]> rtables))
    ∅.

Definition get_nat_gateway (nat_gateway_id : string) : M NatGateway :=
  the_only (describe_nat_gateways aws nat_gateway_id).

Definition get_vpc_peering_connections (peering_connection_id : string)
    : M VpcPeeringConnection :=
  the_only (describe_vpc_peering_connections aws peering_connection_id).

Definition get_ec2_instance_by_private_ip (private_ip_address : string)
    : M (option Instance) :=
  match describe_instances aws private_ip_address with
  | [] => mret None
  | reservations =>
      reservation ← the_only reservations;
      source_instance ← the_only (Instances reservation);
      tags ← or_raise KeyError (Tags source_instance);
      mret (Some (mkInstance (InstanceId source_instance)
                    (instance_VpcId source_instance)
                    (instance_SubnetId source_instance)
                    (PrivateDnsName source_instance)
                    (PrivateIpAddress source_instance)
                    (Tags source_instance)
                    (SecurityGroups source_instance)
                    (get_value_for_tag_key tags "Name")))
  end.

Definition get_security_groups_body (dest_ip_address : string)
    (security_group : SecurityGroup)
    (acc : list IpPermission * list IpPermission)
    : M (list IpPermission * list IpPermission) :=
  let '(ingress_sg_matches, egress_sg_matches) := acc in
  temp ← find_security_group_matches (IpPermissions security_group) dest_ip_address;
  let ingress_sg_matches := ingress_sg_matches ++ temp in
  temp ← find_security_group_matches (IpPermissionsEgress security_group) dest_ip_address;
  let egress_sg_matches := egress_sg_matches ++ temp in
  mret (ingress_sg_matches, egress_sg_matches).

Definition get_security_groups (sg_group_ids : list string)
    (dest_ip_address : string) (verbose : bool)
    : M (list IpPermission * list IpPermission) :=
  let source_security_groups := describe_security_groups aws sg_group_ids in
  assert (length source_security_groups =? length sg_group_ids)%nat;;
  when verbose (pprint (EvSecurityGroups source_security_groups));;
  for_each source_security_groups (get_security_groups_body dest_ip_address) ([], []).

Definition get_rds_instance (source_rds_name : string) (verbose : bool)
    : M (option DBInstance) :=
  let response := describe_db_instances aws source_rds_name in
  when verbose (pprint (EvDBInstances response));;
  assert (length response <=? 1)%nat;;
  mret (head response).

Definition get_dc_virtual_interface (virtual_gateway_id : string) (verbose : bool)
    : list VirtualInterface :=
  filter (λ i, virtualGatewayId i = virtual_gateway_id)
         (describe_virtual_interfaces aws).

Definition get_dms_instance (source_dms_name : string) (verbose : bool)
    : M (option ReplicationInstance) :=
  let response := describe_replication_instances aws source_dms_name in
  when verbose (pprint (EvReplicationInstances response));;
  assert (length response <=? 1)%nat;;
  mret (head response).

(** *** Direct Connect virtual interfaces *)

Definition report_dc_bgp_peer (bgp_peer : BgpPeer) (st : bool * bool)
    : M (bool * bool) :=
  if negb (String.eqb (bgpStatus bgp_peer) "up")
     || negb (String.eqb (bgpPeerState bgp_peer) "available")
  then
    print "NETWORK CONNECTIVITY ERROR. DC Virtual Interface BGP Peer issue:";;
    pprint (EvBgpPeer bgp_peer);;
    mret (true, true)
  else
    print ("DC Virtual Interface BGP peer " +:+ bgpPeerId bgp_peer +:+ " appears OK.");;
    mret st.

(** One turn of the loop over [dc_vifs]; the state is
    [network_problem_exists]. *)
Definition report_dc_virtual_interface (i : VirtualInterface)
    (network_problem_exists : bool) : M bool :=
  st ← (if negb (String.eqb (virtualInterfaceState i) "available")
        then
          print "NETWORK CONNECTIVITY ERROR. DC Virtual Interface is not in 'available' state:";;
          pprint (EvVirtualInterface i);;
          mret (true, true)
        else mret (network_problem_exists, false));
  st ← for_each (bgpPeers i) report_dc_bgp_peer st;
  let '(network_problem_exists, this_interface_problem) := st in
  when (negb this_interface_problem)
       (print ("DC Virtual Interface " +:+ virtualInterfaceName i +:+ " ("
               +:+ virtualInterfaceId i +:+ ") appears OK."));;
  mret network_problem_exists.

Definition report_dc_virtual_interfaces (dc_vifs : list VirtualInterface)
    (verbose : bool) : M bool :=
  print "Checking Direct Connect Virtual Interfaces:";;
  when verbose (pprint (EvVirtualInterfaces dc_vifs));;
  match dc_vifs with
  | [] =>
      print "NETWORK CONNECTIVITY ERROR. No DC Virtual Interfaces present.";;
      mret true
  | _ => for_each dc_vifs report_dc_virtual_interface false
  end.

(** *** Network ACL *)

Definition report_nacl (source_nacl : NetworkAcl)
    (source_ip_address dest_ip_address : string) (verbose : bool) : M bool :=
  let network_problem_exists := false in
  print "============================================================";;
  print "Network ACL analysis";;
  print ("NACL entries applied on source IP " +:+ source_ip_address
         +:+ " relevant to destination IP " +:+ dest_ip_address);;
  '(inbound_rules, outbound_rules) ←
    find_nacl_rule_matches (Entries source_nacl) dest_ip_address;
  print "Inbound Rules:";;
  pprint (EvNaclEntries inbound_rules);;
  network_problem_exists ←
    (if (length inbound_rules =? 0)%nat then
       print "NETWORK CONNECTIVITY ERROR. No relevant inbound rules for NACL.";;
       mret true
     else mret network_problem_exists);
  print "Outbound Rules:";;
  pprint (EvNaclEntries outbound_rules);;
  network_problem_exists ←
    (if (length outbound_rules =? 0)%nat then
       print "NETWORK CONNECTIVITY ERROR. No relevant outbound rules for NACL.";;
       mret true
     else mret network_problem_exists);
  mret network_problem_exists.

(** *** Route table and gateway chain *)

(** [r['GatewayId'].startswith('igw-')] *)
Definition report_internet_gateway (gateway_id : string)
    (network_problem_exists : bool) : M bool :=
  print "Internet Gateway:";;
  source_gateway ← the_only (describe_internet_gateways aws gateway_id);
  pprint (EvInternetGateway source_gateway);;
  attachment ← the_only (Attachments source_gateway);
  if negb (String.eqb (attachment_State attachment) "available") then
    print "NETWORK CONNECTIVITY ERROR. Internet Gateway is NOT attached.";;
    mret true
  else
    print "Internet Gateway appears OK.";;
    mret network_problem_exists.

(** [r['GatewayId'].startswith('vgw-')] *)
Definition report_virtual_private_gateway (gateway_id : string) (verbose : bool)
    (network_problem_exists : bool) : M bool :=
  print "Virtual Private Gateway:";;
  source_gateway ← the_only (describe_vpn_gateways aws gateway_id);
  pprint (EvVpnGateway source_gateway);;
  attachment ← the_only (VpcAttachments source_gateway);
  network_problem_exists ←
    (if negb (String.eqb (vgw_State source_gateway) "available") then
       print "NETWORK CONNECTIVITY ERROR. Virtual Gateway is NOT available.";;
       mret true
     else mret network_problem_exists);
  network_problem_exists ←
    (if negb (String.eqb (attachment_State attachment) "attached") then
       print "NETWORK CONNECTIVITY ERROR. Virtual Gateway is NOT attached.";;
       mret true
     else mret network_problem_exists);
  (* Check for Direct Connect *)
  let dc_vifs := get_dc_virtual_interface gateway_id verbose in
  problem ← report_dc_virtual_interfaces dc_vifs verbose;
  mret (network_problem_exists || problem).

Definition report_nat_gateway (nat_gateway_id : string) (verbose : bool)
    (network_problem_exists : bool) : M bool :=
  print ("Via NAT: " +:+ nat_gateway_id);;
  nat_gateway ← get_nat_gateway nat_gateway_id;
  when verbose (pprint (EvNatGateway nat_gateway));;
  print ("NAT Gateway state: " +:+ nat_State nat_gateway);;
  if negb (String.eqb (nat_State nat_gateway) "available") then
    print "NETWORK CONNECTIVITY ERROR. NAT Gateway not available";;
    mret true
  else mret network_problem_exists.

Definition report_peering_connection (peering_connection_id source_vpc_id : string)
    (verbose : bool) (network_problem_exists : bool) : M bool :=
  print ("Via peering connection: " +:+ peering_connection_id);;
  vpc_peering_connection ← get_vpc_peering_connections peering_connection_id;
  when verbose (pprint (EvVpcPeeringConnection vpc_peering_connection));;
  print ("VPC Peering Connection status: " +:+ StatusCode vpc_peering_connection);;
  network_problem_exists ←
    (if negb (String.eqb (StatusCode vpc_peering_connection) "active") then
       print "NETWORK CONNECTIVITY ERROR. VPC Peering Connection is not active";;
       mret true
     else mret network_problem_exists);
  let destination_peering_info :=
    if String.eqb (VpcId (AccepterVpcInfo vpc_peering_connection)) source_vpc_id
    then RequesterVpcInfo vpc_peering_connection
    else AccepterVpcInfo vpc_peering_connection in
  print "Destination peering info:";;
  pprint (EvVpcInfo destination_peering_info);;
  mret network_problem_exists.

(** The chain of [if r is None / elif 'GatewayId' in r / elif ...] on the
    resolved route. *)
Definition report_route_target (r : option Route) (source_vpc_id dest_ip_address : string)
    (verbose : bool) (network_problem_exists : bool) : M bool :=
  match r with
  | None =>
      print ("NETWORK CONNECTIVITY ERROR. There is no route to " +:+ dest_ip_address);;
      mret true
  | Some r =>
      match r !! "GatewayId" with
      | Some gateway_id =>
          (* uses a Gateway *)
          print ("Via gateway: " +:+ gateway_id);;
          if String.prefix "igw-" gateway_id then
            report_internet_gateway gateway_id network_problem_exists
          else if String.prefix "vgw-" gateway_id then
            report_virtual_private_gateway gateway_id verbose network_problem_exists
          else
            print "WARNING. Some other type of gateway is NOT being analyzed.";;
            mret network_problem_exists
      | None =>
          match r !! "NatGatewayId" with
          | Some nat_gateway_id =>
              report_nat_gateway nat_gateway_id verbose network_problem_exists
          | None =>
              match r !! "VpcPeeringConnectionId" with
              | Some peering_connection_id =>
                  report_peering_connection peering_connection_id source_vpc_id
                    verbose network_problem_exists
              | None =>
                  print "ERROR. Unknown route type:";;
                  pprint (EvRoute r);;
                  mret true
              end
          end
      end
  end.

Definition report_route_table (source_route_table : RouteTable)
    (source_vpc_id source_ip_address dest_ip_address : string) (verbose : bool)
    : M bool :=
  let network_problem_exists := false in
  print "============================================================";;
  print ("Analysis of Route Table applied on source IP " +:+ source_ip_address
         +:+ " relevant to destination IP " +:+ dest_ip_address);;
  print ("Route Table in use for source: " +:+ RouteTableId source_route_table);;
  when verbose (pprint (EvRouteTable source_route_table));;
  print ("Finding route to " +:+ dest_ip_address);;
  r ← find_route_matches (Routes source_route_table) dest_ip_address verbose;
  match r with
  | Some r' => print "Matching route:";; pprint (EvRoute r')
  | None => mret tt
  end;;
  report_route_target r source_vpc_id dest_ip_address verbose network_problem_exists.

(** *** Security groups *)

Definition report_security_groups (source_security_group_ids : list string)
    (source_ip_address dest_ip_address : string) (verbose : bool) : M bool :=
  let network_problem_exists := false in
  '(ingress_sg_matches, egress_sg_matches) ←
    get_security_groups source_security_group_ids dest_ip_address verbose;
  print "============================================================";;
  print ("Analysis of Security Group ingress/egress applied on source IP "
         +:+ source_ip_address +:+ " to/from destination IP " +:+ dest_ip_address);;
  print "Potential Ingress Matches";;
  pprint (EvPermissions ingress_sg_matches);;
  network_problem_exists ←
    (if (length ingress_sg_matches =? 0)%nat then
       print ("NETWORK CONNECTIVITY ERROR. No ingress is allowed by source Security Groups for "
              +:+ dest_ip_address);;
       print "	Perhaps access to this AWS resource is indirect, through a loadbalancer? ";;
       mret true
     else mret network_problem_exists);
  print "Potential Egress Matches:";;
  pprint (EvPermissions egress_sg_matches);;
  network_problem_exists ←
    (if (length egress_sg_matches =? 0)%nat then
       print ("NETWORK CONNECTIVITY ERROR. No egress is allowed by source Security Groups for "
              +:+ dest_ip_address);;
       print "	Perhaps access to this AWS resource is indirect, through a loadbalancer? ";;
       mret true
     else mret network_problem_exists);
  mret network_problem_exists.

(** *** Subnet groups *)

Definition report_db_subnet_groups (vpc_id : string) (subnet_id_list : list string)
    (verbose : bool) : M bool :=
  (* validate that DBSubnet Group subnets use the same RouteTable *)
  result ← get_route_tables_for_subnets vpc_id subnet_id_list false;
  assert (0 <? size result)%nat;;
  when (1 <? size result)%nat
       (print "WARNING. Subnets in DBSubnetGroup do not use the same route table!");;
  result ← get_nacls_for_subnets subnet_id_list verbose;
  assert (0 <? length result)%nat;;
  when (1 <? length result)%nat
       (print "WARNING. Subnets in DBSubnetGroup do not use the same NACL!");;
  mret false.

Definition process_subnet_list (subnets : list GroupSubnet) : M (list string) :=
  for_each subnets
    (λ s (subnet_id_list : list string),
       if String.eqb (SubnetStatus s) "Active"
       then mret (subnet_id_list ++ [SubnetIdentifier s])
       else
         print ("WARNING. Subnet " +:+ SubnetIdentifier s
                +:+ " in DBSubnetGroup is not 'Active'");;
         mret subnet_id_list)
    [].

(** *** main *)

Record Args := mkArgs {
  verbose : bool;
  source_ec2_ip : string;
  dest_ip : string;
  source_rds : string;
  source_dms : string
}.

(** The local variables that each source block of [main] binds, all of
    them or (when no block ran to its end) none. *)
Record Source := mkSource {
  source_vpc_id : string;
  source_subnet_id : string;
  source_name : string;
  source_dns_name : string;
  source_ip_address : string;
  source_security_groups : list string
}.

Record Locals := mkLocals {
  source : option Source;
  source_security_group_ids : list string;
  network_problem_exists : bool
}.

(** [str(b)] *)
Definition str_bool (b : bool) : string := if b then "True" else "False".

(** [if source_ec2_ip_address != '': ...] *)
Definition main_ec2 (args : Args) (st : Locals) : M Locals :=
  if String.eqb (source_ec2_ip args) "" then mret st else
  source_instance ← get_ec2_instance_by_private_ip (source_ec2_ip args);
  match source_instance with
  | None =>
      print ("ERROR. Source EC2 instance with private IP address "
             +:+ source_ec2_ip args +:+ " cannot be found.");;
      mret st
  | Some source_instance =>
      (* EC2 *)
      pprint (EvInstance source_instance);;
      assert (String.eqb (source_ec2_ip args) (PrivateIpAddress source_instance));;
      when (verbose args) (pprint (EvInstance source_instance));;
      print ("InstanceId: " +:+ InstanceId source_instance);;
      mret (mkLocals
              (Some (mkSource (instance_VpcId source_instance)
                              (instance_SubnetId source_instance)
                              (Name source_instance)
                              (PrivateDnsName source_instance)
                              (PrivateIpAddress source_instance)
                              (SecurityGroups source_instance)))
              (source_security_group_ids st ++ SecurityGroups source_instance)
              (network_problem_exists st))
  end.

(** [if source_rds_name != '': ...].  The last test of the block calls
    [dest_ip_address.starts_with], which [str] does not have: it raises
    [AttributeError] whenever its left operand [PubliclyAccessible] is
    true. *)
Definition main_rds (args : Args) (st : Locals) : M Locals :=
  if String.eqb (source_rds args) "" then mret st else
  source_rds_instance ← get_rds_instance (source_rds args) (verbose args);
  match source_rds_instance with
  | None =>
      print ("ERROR. Source RDS instance with name " +:+ source_rds args
             +:+ " cannot be found.");;
      mret st
  | Some source_rds_instance =>
      (* RDS *)
      pprint (EvDBInstance source_rds_instance);;
      let source_name := DBInstanceIdentifier source_rds_instance in
      let source_vpc_id := group_VpcId (DBSubnetGroup source_rds_instance) in
      let source_dns_name := EndpointAddress source_rds_instance in
      source_ip_address ← or_raise OSError (gethostbyname aws source_dns_name);
      subnet_id_list ← process_subnet_list (Subnets (DBSubnetGroup source_rds_instance));
      '(source_subnet, all_subnets) ←
        find_subnet_for_ip subnet_id_list source_ip_address (verbose args);
      source_subnet ← or_raise AssertionError source_subnet;
      let source_subnet_id := SubnetId source_subnet in
      (* validate that DBSubnet Group subnets use the same RouteTable *)
      problem ← report_db_subnet_groups source_vpc_id subnet_id_list (verbose args);
      let network_problem_exists := network_problem_exists st || problem in
      let source_security_groups := db_VpcSecurityGroups source_rds_instance in
      print ("RDS Instance PubliclyAccessible: "
             +:+ str_bool (PubliclyAccessible source_rds_instance));;
      when (verbose args) (pprint (EvDBInstance source_rds_instance));;
      (if PubliclyAccessible source_rds_instance then raise AttributeError
       else mret tt);;
      mret (mkLocals
              (Some (mkSource source_vpc_id source_subnet_id source_name
                              source_dns_name source_ip_address source_security_groups))
              (source_security_group_ids st ++ source_security_groups)
              network_problem_exists)
  end.

(** [if source_dms_name != '': ...] *)
Definition main_dms (args : Args) (st : Locals) : M Locals :=
  if String.eqb (source_dms args) "" then mret st else
  source_dms_instance ← get_dms_instance (source_dms args) (verbose args);
  match source_dms_instance with
  | None =>
      print ("ERROR. Source DMS instance with name " +:+ source_dms args
             +:+ " cannot be found.");;
      mret st
  | Some source_dms_instance =>
      (* DMS *)
      pprint (EvReplicationInstance source_dms_instance);;
      let source_name := ReplicationInstanceIdentifier source_dms_instance in
      let source_vpc_id := group_VpcId (ReplicationSubnetGroup source_dms_instance) in
      let source_ip_address := ReplicationInstancePrivateIpAddress source_dms_instance in
      let source_dns_name := "n/a" in
      subnet_id_list ←
        process_subnet_list (Subnets (ReplicationSubnetGroup source_dms_instance));
      '(source_subnet, all_subnets) ←
        find_subnet_for_ip subnet_id_list source_ip_address (verbose args);
      source_subnet ← or_raise AssertionError source_subnet;
      let source_subnet_id := SubnetId source_subnet in
      (* validate that Subnet Group subnets use the same RouteTable *)
      problem ← report_db_subnet_groups source_vpc_id subnet_id_list (verbose args);
      let network_problem_exists := network_problem_exists st || problem in
      let source_security_groups := dms_VpcSecurityGroups source_dms_instance in
      mret (mkLocals
              (Some (mkSource source_vpc_id source_subnet_id source_name
                              source_dns_name source_ip_address source_security_groups))
              (source_security_group_ids st ++ source_security_groups)
              network_problem_exists)
  end.

(** The three checks that every run makes on the resolved source, from
    [# EC2 + RDS + DMS common values] to the last update of
    [network_problem_exists]. *)
Definition main_checks (args : Args) (st : Locals) : M bool :=
  src ← or_raise UnboundLocalError (source st);
  let network_problem_exists := network_problem_exists st in
  (* EC2 + RDS + DMS common values *)
  print ("Source IP Address: " +:+ source_ip_address src);;
  print ("Name: " +:+ source_name src);;
  print ("DNS Name:" +:+ source_dns_name src);;
  print ("SubnetId: " +:+ source_subnet_id src);;
  print ("VpcId: " +:+ source_vpc_id src);;
  (* SECURITY GROUPS *)
  print "Security Groups: ";;
  pprint (EvGroupIds (source_security_groups src));;
  problem ← report_security_groups (source_security_group_ids st)
              (source_ip_address src) (dest_ip args) (verbose args);
  let network_problem_exists := network_problem_exists || problem in
  (* ROUTE TABLE *)
  source_route_table ←
    get_route_table_for_subnet (source_vpc_id src) (source_subnet_id src) (verbose args);
  problem ← report_route_table source_route_table (source_vpc_id src)
              (source_ip_address src) (dest_ip args) (verbose args);
  let network_problem_exists := network_problem_exists || problem in
  (* NACL *)
  result ← get_nacls_for_subnets [source_subnet_id src] (verbose args);
  source_nacl ← the_only result;
  when (verbose args) (pprint (EvNetworkAcl source_nacl));;
  problem ← report_nacl source_nacl (source_ip_address src) (dest_ip args) (verbose args);
  let network_problem_exists := network_problem_exists || problem in
  mret network_problem_exists.

(** [main], returning the final [network_problem_exists] that the
    summary prints. *)
Definition main (args : Args) : M bool :=
  print "============================================================";;
  print "Input parameters:";;
  print ("verbose: " +:+ str_bool (verbose args));;
  print ("source_ec2_ip_address: " +:+ source_ec2_ip args);;
  print ("dest_ip_address: " +:+ dest_ip args);;
  print ("source_rds_name: " +:+ source_rds args);;
  print ("source_dms_name: " +:+ source_dms args);;
  let st := mkLocals None [] false in
  print "============================================================";;
  print "Source info:";;
  st ← main_ec2 args st;
  st ← main_rds args st;
  st ← main_dms args st;
  network_problem_exists ← main_checks args st;
  print "============================================================";;
  print "Summary: ";;
  (if network_problem_exists : bool
   then print "ERROR. Some network connectivity problem exists. Review output of this tool."
   else print "OK. No obvious network connectivity problem exists from the perspective of the source.");;
  print "============================================================";;
  mret network_problem_exists.

End Reach.

(** ** Vocabulary of the specification

    The predicates below say, in the words of the specification, when a
    route, a NACL entry or a permission is relevant to a destination.
    They are what the results of the functions above are compared with. *)

Definition is_some {A} (o : option A) : bool :=
  match o with Some _ => true | None => false end.

(** The destination CIDR block of a route, parsed. *)
Definition route_cidr (r : Route) : option ipaddress.IPv4Network :=
  r !! "DestinationCidrBlock" ≫= ipaddress.ip_network.

(** The route has a destination CIDR and it contains the address. *)
Definition route_matches (a : ipaddress.IPv4Address) (r : Route) : bool :=
  match route_cidr r with
  | Some net => ipaddress.contains net a
  | None => false
  end.

Definition route_prefixlen (r : Route) : Z :=
  from_option ipaddress.prefixlen (-1) (route_cidr r).

(** [match.get('prefixlen', -1)] *)
Definition best_prefixlen (m : option BestMatch) : Z :=
  from_option bm_prefixlen (-1) m.

(** Every destination CIDR present in the routes is valid text. *)
Definition routes_well_formed (routes : list Route) : bool :=
  forallb (λ r, match r !! "DestinationCidrBlock" with
                | Some c => is_some (ipaddress.ip_network c)
                | None => true
                end) routes.

(** The entry's CIDR block contains the address. *)
Definition nacl_entry_relevant (a : ipaddress.IPv4Address) (e : NaclEntry) : bool :=
  match CidrBlock e ≫= ipaddress.ip_network with
  | Some net => ipaddress.contains net a
  | None => false
  end.

(** Every entry has a [CidrBlock] and it is valid text. *)
Definition nacl_entries_well_formed (entries : list NaclEntry) : bool :=
  forallb (λ e, is_some (CidrBlock e ≫= ipaddress.ip_network)) entries.

(** The range is the match-all CIDR or contains the address. *)
Definition ip_range_contains (a : ipaddress.IPv4Address) (r : IpRange) : bool :=
  String.eqb (CidrIp r) ALL_IPV4
  || match ipaddress.ip_network (CidrIp r) with
     | Some net => ipaddress.contains net a
     | None => false
     end.

(** Some CIDR range of the permission contains the address, or the
    permission carries a peer-group reference. *)
Definition permission_matches (a : ipaddress.IPv4Address) (p : IpPermission) : bool :=
  existsb (ip_range_contains a) (IpRanges p)
  || (0 <? length (UserIdGroupPairs p))%nat.

(** Every CIDR range of every permission is valid text. *)
Definition permissions_well_formed (permissions : list IpPermission) : bool :=
  forallb (λ p, forallb (λ r, is_some (ipaddress.ip_network (CidrIp r))) (IpRanges p))
          permissions.

(** The permission without the rule shapes that are not evaluated. *)
Definition without_unsupported (p : IpPermission) : IpPermission :=
  mkIpPermission (IpProtocol p) (IpRanges p) [] [] (UserIdGroupPairs p).

(** The warnings that a permission's unsupported rule shapes cause. *)
Definition unsupported_warnings (p : IpPermission) : list Output :=
  (if (0 <? length (Ipv6Ranges p))%nat
   then [Print "WARNING. Ignoring IPv6 rules in Security Group."] else [])
  ++ (if (0 <? length (PrefixListIds p))%nat
      then [Print "WARNING. Ignoring Perfix List rules in Security Group."] else []).

(** The permissions of a security group that match, per direction, and
    the warnings its evaluation prints. *)
Definition ingress_matches (a : ipaddress.IPv4Address) (sg : SecurityGroup)
    : list IpPermission :=
  List.filter (permission_matches a) (IpPermissions sg).

Definition egress_matches (a : ipaddress.IPv4Address) (sg : SecurityGroup)
    : list IpPermission :=
  List.filter (permission_matches a) (IpPermissionsEgress sg).

Definition security_group_warnings (sg : SecurityGroup) : list Output :=
  flat_map unsupported_warnings (IpPermissions sg)
  ++ flat_map unsupported_warnings (IpPermissionsEgress sg).

Definition security_groups_well_formed (sgs : list SecurityGroup) : bool :=
  forallb (λ sg, permissions_well_formed (IpPermissions sg)
                 && permissions_well_formed (IpPermissionsEgress sg)) sgs.

(** A BGP peer is up, and a virtual interface is healthy. *)
Definition bgp_peer_ok (p : BgpPeer) : bool :=
  String.eqb (bgpPeerState p) "available" && String.eqb (bgpStatus p) "up".

Definition virtual_interface_ok (i : VirtualInterface) : bool :=
  String.eqb (virtualInterfaceState i) "available" && forallb bgp_peer_ok (bgpPeers i).

(** What the report prints for one BGP peer and for one virtual
    interface. *)
Definition bgp_peer_lines (p : BgpPeer) : list Output :=
  if bgp_peer_ok p
  then [Print ("DC Virtual Interface BGP peer " +:+ bgpPeerId p +:+ " appears OK.")]
  else [Print "NETWORK CONNECTIVITY ERROR. DC Virtual Interface BGP Peer issue:";
        PPrint (EvBgpPeer p)].

Definition virtual_interface_lines (i : VirtualInterface) : list Output :=
  (if String.eqb (virtualInterfaceState i) "available" then []
   else [Print "NETWORK CONNECTIVITY ERROR. DC Virtual Interface is not in 'available' state:";
         PPrint (EvVirtualInterface i)])
  ++ flat_map bgp_peer_lines (bgpPeers i)
  ++ (if virtual_interface_ok i
      then [Print ("DC Virtual Interface " +:+ virtualInterfaceName i +:+ " ("
                   +:+ virtualInterfaceId i +:+ ") appears OK.")]
      else []).

(** A virtual private gateway is valid. *)
Definition vpn_gateway_valid (g : VpnGateway) (attachment : Attachment) : bool :=
  String.eqb (vgw_State g) "available"
  && String.eqb (attachment_State attachment) "attached".

(** A check's returned flag agrees with its output: it is true exactly
    when the check printed a problem line. *)
Definition flag_agrees (m : M bool) : Prop :=
  ∀ p, outcome m = Ok p → (p = true ↔ problems (output m) ≠ []).

(** The lines of the virtual private gateway's own two conditions. *)
Definition vpn_gateway_lines (g : VpnGateway) (attachment : Attachment) : list Output :=
  (if String.eqb (vgw_State g) "available" then []
   else [Print "NETWORK CONNECTIVITY ERROR. Virtual Gateway is NOT available."])
  ++ (if String.eqb (attachment_State attachment) "attached" then []
      else [Print "NETWORK CONNECTIVITY ERROR. Virtual Gateway is NOT attached."]).

(** [f] applied to the value a run returns. *)
Definition map_result {A B} (f : A → B) (r : Result A) : Result B :=
  match r with
  | Ok a => Ok (f a)
  | Raise e => Raise e
  end.

(** ** A sample snapshot

    One VPC with an EC2 instance at 10.1.2.5.  Its route table sends the
    VPC's own range to [local], 10.0.0.0/8 to a virtual private gateway
    that is still pending, 192.168.0.0/16 to a transit gateway and the
    rest to an internet gateway. *)
Module Sample.

Definition route_local : Route :=
  {[ "DestinationCidrBlock" := "10.1.0.0/16"; "GatewayId" := "local" ]}.
Definition route_vgw : Route :=
  {[ "DestinationCidrBlock" := "10.0.0.0/8"; "GatewayId" := "vgw-1" ]}.
Definition route_tgw : Route :=
  {[ "DestinationCidrBlock" := "192.168.0.0/16"; "TransitGatewayId" := "tgw-1" ]}.
Definition route_igw : Route :=
  {[ "DestinationCidrBlock" := "0.0.0.0/0"; "GatewayId" := "igw-1" ]}.
Definition route_ipv6 : Route :=
  {[ "DestinationIpv6CidrBlock" := "::/0"; "GatewayId" := "igw-1" ]}.
Definition route_nat : Route :=
  {[ "DestinationCidrBlock" := "10.1.0.0/16"; "NatGatewayId" := "nat-1" ]}.

Definition route_table : RouteTable :=
  mkRouteTable "rtb-1" [route_ipv6; route_igw; route_vgw; route_local; route_tgw].

Definition entry_in : NaclEntry := mkNaclEntry 100 "allow" false (Some "10.0.0.0/24").
Definition entry_out : NaclEntry := mkNaclEntry 100 "allow" true (Some "10.0.0.0/24").
Definition entry_all_in : NaclEntry := mkNaclEntry 200 "allow" false (Some "0.0.0.0/0").
Definition entry_all_out : NaclEntry := mkNaclEntry 200 "allow" true (Some "0.0.0.0/0").

Definition nacl_narrow : NetworkAcl := mkNetworkAcl "acl-0" [entry_in; entry_out].
Definition nacl : NetworkAcl :=
  mkNetworkAcl "acl-1" [entry_in; entry_all_in; entry_out; entry_all_out].

Definition perm_all : IpPermission :=
  mkIpPermission "tcp" [mkIpRange "0.0.0.0/0"] [] [] [].
Definition perm_peer : IpPermission :=
  mkIpPermission "tcp" [] [] [] ["sg-2"].
Definition perm_narrow : IpPermission :=
  mkIpPermission "tcp" [mkIpRange "10.0.0.0/24"] ["::/0"] ["pl-1"] [].
(** Two ranges that contain 10.1.2.3, and a peer group as well. *)
Definition perm_twice : IpPermission :=
  mkIpPermission "tcp" [mkIpRange "10.0.0.0/8"; mkIpRange "10.1.0.0/16"] [] [] ["sg-2"].

Definition security_group : SecurityGroup :=
  mkSecurityGroup "sg-1" [perm_narrow; perm_peer] [perm_narrow; perm_all].

Definition vif_ok : VirtualInterface :=
  mkVirtualInterface "dxvif-1" "primary" "available" "vgw-1"
    [mkBgpPeer "dxpeer-1" "available" "up"].
Definition vif_down : VirtualInterface :=
  mkVirtualInterface "dxvif-2" "secondary" "down" "vgw-1"
    [mkBgpPeer "dxpeer-2" "available" "up"].
Definition vif_other : VirtualInterface :=
  mkVirtualInterface "dxvif-3" "other" "available" "vgw-9" [].

Definition vgw_pending : VpnGateway :=
  mkVpnGateway "vgw-1" "pending" [mkAttachment "attached"].

Definition instance : Instance :=
  mkInstance "i-1" "vpc-1" "subnet-1" "ip-10-1-2-5.ec2.internal" "10.1.2.5"
    (Some [{[ "Key" := "Name"; "Value" := "web" ]}]) ["sg-1"] "".

Definition world : World :=
  {| describe_subnets := λ _, [mkSubnet "subnet-1" "10.1.2.0/24"];
     describe_network_acls := λ _, [nacl];
     describe_route_tables_for_subnet := λ _, [route_table];
     describe_main_route_tables := λ _, [route_table];
     describe_nat_gateways := λ _, [];
     describe_vpc_peering_connections := λ _, [];
     describe_internet_gateways := λ _,
       [mkInternetGateway "igw-1" [mkAttachment "available"]];
     describe_vpn_gateways := λ _, [vgw_pending];
     describe_virtual_interfaces := [vif_ok; vif_other; vif_down];
     describe_instances := λ ip,
       if String.eqb ip "10.1.2.5" then [mkReservation [instance]] else [];
     describe_security_groups := λ _, [security_group];
     describe_db_instances := λ _, [];
     describe_replication_instances := λ _, [];
     gethostbyname := λ _, None |}.

Definition args (dest : string) : Args := mkArgs false "10.1.2.5" dest "" "".

End Sample.

(** ** A second snapshot

    The same VPC, but the instance's security group allows no egress to
    the destinations used below, and a NACL as AWS creates it for a VPC
    with IPv6: an entry that has an [Ipv6CidrBlock] and no [CidrBlock]. *)
Module SampleDenied.

Definition security_group : SecurityGroup :=
  mkSecurityGroup "sg-1" [Sample.perm_peer] [Sample.perm_narrow].

Definition world : World :=
  {| describe_subnets := describe_subnets Sample.world;
     describe_network_acls := describe_network_acls Sample.world;
     describe_route_tables_for_subnet := describe_route_tables_for_subnet Sample.world;
     describe_main_route_tables := describe_main_route_tables Sample.world;
     describe_nat_gateways := describe_nat_gateways Sample.world;
     describe_vpc_peering_connections := describe_vpc_peering_connections Sample.world;
     describe_internet_gateways := describe_internet_gateways Sample.world;
     describe_vpn_gateways := describe_vpn_gateways Sample.world;
     describe_virtual_interfaces := describe_virtual_interfaces Sample.world;
     describe_instances := describe_instances Sample.world;
     describe_security_groups := λ _, [security_group];
     describe_db_instances := describe_db_instances Sample.world;
     describe_replication_instances := describe_replication_instances Sample.world;
     gethostbyname := gethostbyname Sample.world |}.

(** The locals of [main] once the EC2 block has found the instance. *)
Definition source : Source :=
  mkSource "vpc-1" "subnet-1" "web" "ip-10-1-2-5.ec2.internal" "10.1.2.5" ["sg-1"].

Definition locals : Locals := mkLocals (Some source) ["sg-1"] false.

Definition entry_ipv6 : NaclEntry := mkNaclEntry 101 "allow" false None.

Definition nacl_with_ipv6 : NetworkAcl :=
  mkNetworkAcl "acl-2" [Sample.entry_all_in; entry_ipv6; Sample.entry_all_out].

Definition nacl_without_ipv6 : NetworkAcl :=
  mkNetworkAcl "acl-2" [Sample.entry_all_in; Sample.entry_all_out].

End SampleDenied.

(** ** Vocabulary for the fetch helpers *)

(** [item.get('Key', '')] and [item.get('Value', '')] *)
Definition tag_key (item : gmap string string) : string := default "" (item !! "Key").
Definition tag_value (item : gmap string string) : string := default "" (item !! "Value").

(** The subnet's CIDR block is valid text, and it contains the address. *)
Definition subnet_parses (s : Subnet) : bool :=
  is_some (ipaddress.ip_network (subnet_CidrBlock s)).

Definition subnet_contains (a : ipaddress.IPv4Address) (s : Subnet) : bool :=
  match ipaddress.ip_network (subnet_CidrBlock s) with
  | Some net => ipaddress.contains net a
  | None => false
  end.

Definition subnet_active (s : GroupSubnet) : bool :=
  String.eqb (SubnetStatus s) "Active".

Definition inactive_subnet_warning (s : GroupSubnet) : Output :=
  Print ("WARNING. Subnet " +:+ SubnetIdentifier s +:+ " in DBSubnetGroup is not 'Active'").

(** The warnings of the subnet-group check. *)
Definition route_table_divergence_warning : Output :=
  Print "WARNING. Subnets in DBSubnetGroup do not use the same route table!".

Definition nacl_divergence_warning : Output :=
  Print "WARNING. Subnets in DBSubnetGroup do not use the same NACL!".

(** [source_instance['Name'] = name] *)
Definition with_name (i : Instance) (name : string) : Instance :=
  mkInstance (InstanceId i) (instance_VpcId i) (instance_SubnetId i)
             (PrivateDnsName i) (PrivateIpAddress i) (Tags i) (SecurityGroups i) name.
(** The other side of a peering connection, as seen from the source VPC. *)
Definition destination_peering_info (c : VpcPeeringConnection) (source_vpc_id : string)
    : VpcInfo :=
  if String.eqb (VpcId (AccepterVpcInfo c)) source_vpc_id
  then RequesterVpcInfo c else AccepterVpcInfo c.

(** The number of conditions that a virtual interface violates: its own
    state, and each of its BGP peers. *)
Definition violations (i : VirtualInterface) : nat :=
  ((if String.eqb (virtualInterfaceState i) "available" then 0 else 1)
   + length (List.filter (λ p, negb (bgp_peer_ok p)) (bgpPeers i)))%nat.
(** A second snapshot: an RDS instance in a subnet group of three subnets,
    one of them not active; subnet-a has no route table of its own and
    falls back to the main one; a NAT gateway that is not yet available
    and an active peering connection. *)
Module SampleRds.

Definition tags : list (gmap string string) :=
  [ {[ "Key" := "Env"; "Value" := "prod" ]};
    {[ "Value" := "orphan" ]};
    {[ "Key" := "Name"; "Value" := "db" ]};
    {[ "Key" := "Name"; "Value" := "other" ]} ].

Definition subnet_a : Subnet := mkSubnet "subnet-a" "10.1.1.0/24".
Definition subnet_b : Subnet := mkSubnet "subnet-b" "10.1.2.0/24".
Definition subnet_c : Subnet := mkSubnet "subnet-c" "no cidr".

Definition group_a : GroupSubnet := mkGroupSubnet "subnet-a" "Active".
Definition group_x : GroupSubnet := mkGroupSubnet "subnet-x" "Pending".
Definition group_b : GroupSubnet := mkGroupSubnet "subnet-b" "Active".

Definition db_instance : DBInstance :=
  mkDBInstance "db-1" (mkSubnetGroup "vpc-1" [group_a; group_x; group_b])
    "db-1.example.internal" true ["sg-1"].

Definition route_table : RouteTable :=
  mkRouteTable "rtb-2" [Sample.route_local; Sample.route_tgw].

Definition nat_gateway : NatGateway := mkNatGateway "nat-1" "pending".

Definition peering_connection : VpcPeeringConnection :=
  mkVpcPeeringConnection "pcx-1" "active"
    (mkVpcInfo "vpc-1" "10.1.0.0/16") (mkVpcInfo "vpc-2" "10.2.0.0/16").


Definition world : World :=
  {| describe_subnets := λ ids,
       List.filter (λ s, existsb (String.eqb (SubnetId s)) ids)
                   [subnet_a; subnet_b; subnet_c];
     describe_network_acls := λ ids,
       if (1 <? length ids)%nat then [Sample.nacl; Sample.nacl_narrow] else [Sample.nacl];
     describe_route_tables_for_subnet := λ id,
       if String.eqb id "subnet-a" then [] else [route_table];
     describe_main_route_tables := λ _, [route_table];
     describe_nat_gateways := λ _, [nat_gateway];
     describe_vpc_peering_connections := λ _, [peering_connection];
     describe_internet_gateways := λ _, [];
     describe_vpn_gateways := λ _, [];
     describe_virtual_interfaces := [];
     describe_instances := λ _, [];
     describe_security_groups := λ _, [Sample.security_group];
     describe_db_instances := λ name,
       if String.eqb name "db-1" then [db_instance] else [];
     describe_replication_instances := λ _, [];
     gethostbyname := λ name,
       if String.eqb name "db-1.example.internal" then Some "10.1.2.7" else None |}.

Definition args : Args := mkArgs false "" "10.2.3.4" "db-1" "".

End SampleRds.

(** * Theorems *)

(** ** The writer/error monad *)

Lemma bind_unfold {A B} (m : M A) (f : A → M B) :
  m ≫= f = match m.2 with
           | Ok a => (m.1 ++ (f a).1, (f a).2)
           | Raise e => (m.1, Raise e)
           end.
Proof. destruct m as [l [a|e]]; [|done]. simpl. by destruct (f a). Qed.

(** Run the monadic steps whose results are known. *)
Ltac mred :=
  repeat (rewrite ?bind_unfold;
          cbn [fst snd the_only print printf pprint mret M_ret raise or_raise
               assert app]).

Lemma bind_Ok {A B} (m : M A) (f : A → M B) l a :
  m = (l, Ok a) → m ≫= f = (l ++ output (f a), outcome (f a)).
Proof. intros ->. by rewrite bind_unfold. Qed.

Lemma bind_Raise {A B} (m : M A) (f : A → M B) l e :
  m = (l, Raise e) → m ≫= f = (l, Raise e).
Proof. intros ->. reflexivity. Qed.

Lemma outcome_bind {A B} (m : M A) (f : A → M B) :
  outcome (m ≫= f) = match outcome m with
                     | Ok a => outcome (f a)
                     | Raise e => Raise e
                     end.
Proof. rewrite bind_unfold. unfold outcome. destruct m.2; reflexivity. Qed.

Lemma output_bind {A B} (m : M A) (f : A → M B) :
  output (m ≫= f) = output m ++ match outcome m with
                                | Ok a => output (f a)
                                | Raise e => []
                                end.
Proof.
  rewrite ?bind_unfold. unfold output, outcome.
  destruct m.2; simpl; [reflexivity | by rewrite app_nil_r].
Qed.

Lemma outcome_bind_Ok_inv {A B} (m : M A) (f : A → M B) b :
  outcome (m ≫= f) = Ok b → ∃ a, outcome m = Ok a ∧ outcome (f a) = Ok b.
Proof.
  rewrite outcome_bind. destruct (outcome m) as [a|e]; [eauto | discriminate].
Qed.

Lemma surjective_M {A} (m : M A) : m = (output m, outcome m).
Proof. by destruct m. Qed.

Lemma outcome_when b (body : M unit) :
  outcome body = Ok tt → outcome (when b body) = Ok tt.
Proof. by destruct b. Qed.

Lemma problems_app l1 l2 : problems (l1 ++ l2) = problems l1 ++ problems l2.
Proof. apply List.filter_app. Qed.

Lemma problems_cons o l :
  problems (o :: l) = (if is_problem o then [o] else []) ++ problems l.
Proof. unfold problems. simpl. by destruct (is_problem o). Qed.

Lemma problems_bind {A B} (m : M A) (f : A → M B) :
  problems (output (m ≫= f))
  = problems (output m) ++ match outcome m with
                           | Ok a => problems (output (f a))
                           | Raise e => []
                           end.
Proof. rewrite output_bind, problems_app. by destruct (outcome m). Qed.

Lemma problems_for_each {A S} (l : list A) (body : A → S → M S) (s : S) :
  (∀ x s, problems (output (body x s)) = []) →
  problems (output (for_each l body s)) = [].
Proof.
  intros Hbody. revert s. induction l as [|x l IH]; intros s; cbn [for_each]; [done|].
  rewrite problems_bind, Hbody. destruct (outcome (body x s)); [apply IH | done].
Qed.

Lemma problems_when b (body : M unit) :
  problems (output body) = [] → problems (output (when b body)) = [].
Proof. by destruct b. Qed.

(** ** Facts about the [ipaddress] model *)

Lemma int_acc_nonneg s acc :
  ipaddress.all_digits s = true → 0 ≤ acc → 0 ≤ ipaddress.int_acc acc s.
Proof.
  revert acc. induction s as [|c s IH]; intros acc Hd Hacc; simpl in *; [done|].
  apply andb_prop in Hd as [Hc Hs]. apply IH; [done|].
  unfold ipaddress.isdigit in Hc. lia.
Qed.

Lemma prefix_from_prefix_string_range s p :
  ipaddress.prefix_from_prefix_string s = Some p → 0 ≤ p ≤ 32.
Proof.
  unfold ipaddress.prefix_from_prefix_string, ipaddress.max_prefixlen.
  destruct (String.eqb s ""); [done|].
  destruct (ipaddress.all_digits s) eqn:Hd; simpl; [|done].
  destruct (32 <? ipaddress.int s) eqn:Hle; [done|].
  intros [= <-]. split; [|lia].
  by apply int_acc_nonneg.
Qed.

(** A parsed network has a prefix length in [0,32] and no host bit set. *)
Lemma ip_network_canonical c net :
  ipaddress.ip_network c = Some net →
  0 ≤ ipaddress.prefixlen net ≤ 32
  ∧ Z.land (ipaddress.network_address net) (ipaddress.netmask net)
    = ipaddress.network_address net.
Proof.
  unfold ipaddress.ip_network. intros H.
  apply bind_Some in H as ([addr p] & Hsplit & H).
  apply bind_Some in H as (packed & _ & H).
  destruct (Z.land packed (ipaddress.netmask_of p) =? packed) eqn:Hhost; [|done].
  injection H as <-. unfold ipaddress.netmask. simpl. split; [|lia].
  destruct (ipaddress.split "/" c) as [|a [|m [|? ?]]]; simplify_eq/=.
  - unfold ipaddress.max_prefixlen. lia.
  - apply bind_Some in Hsplit as (p' & Hp & [= _ <-]).
    by eapply prefix_from_prefix_string_range.
Qed.

Lemma contains_mask c net a :
  ipaddress.ip_network c = Some net →
  ipaddress.contains net a = true
  ↔ Z.land a (ipaddress.netmask net)
    = Z.land (ipaddress.network_address net) (ipaddress.netmask net).
Proof.
  intros [_ Hcanon]%ip_network_canonical. unfold ipaddress.contains.
  rewrite Hcanon. apply Z.eqb_eq.
Qed.

Lemma ip_network_ALL_IPV4 :
  ipaddress.ip_network ALL_IPV4 = Some (ipaddress.mkNetwork 0 0).
Proof. reflexivity. Qed.

Lemma contains_all a : ipaddress.contains (ipaddress.mkNetwork 0 0) a = true.
Proof. unfold ipaddress.contains. simpl. by rewrite Z.land_0_r. Qed.

(** The netmask of a prefix length keeps the leading bits. *)
Lemma netmask_of_spec p :
  0 ≤ p ≤ 32 → ipaddress.netmask_of p = 2 ^ 32 - 2 ^ (32 - p).
Proof.
  intros Hp.
  assert (∃ n : nat, (n ≤ 32)%nat ∧ p = Z.of_nat n) as (n & Hn & ->)
    by (exists (Z.to_nat p); lia).
  do 33 (destruct n as [|n]; [reflexivity|]). lia.
Qed.

(** ** Route resolution *)

Lemma find_route_matches_body_outcome a verbose r acc :
  outcome (find_route_matches_body a verbose r acc) =
  match r !! "DestinationCidrBlock" with
  | None => Ok acc
  | Some c =>
      match ipaddress.ip_network c with
      | None => Raise ValueError
      | Some net =>
          if ipaddress.contains net a then
            Ok (if best_prefixlen acc <? ipaddress.prefixlen net
                then Some (mkBestMatch r net (ipaddress.prefixlen net)) else acc)
          else Ok acc
      end
  end.
Proof.
  unfold find_route_matches_body, best_prefixlen.
  destruct verbose, (r !! "DestinationCidrBlock") as [c|]; simpl; try done;
    destruct (ipaddress.ip_network c) as [net|]; simpl; try done;
    destruct (ipaddress.contains net a); simpl; done.
Qed.

Lemma route_matches_prefixlen a r :
  route_matches a r = true → 0 ≤ route_prefixlen r.
Proof.
  unfold route_matches, route_prefixlen, route_cidr.
  destruct (r !! "DestinationCidrBlock") as [c|]; simpl; [|done].
  destruct (ipaddress.ip_network c) as [net|] eqn:Hnet; simpl; [|done].
  intros _. by apply ip_network_canonical in Hnet as [[? ?] _].
Qed.

(** The loop of [find_route_matches], started from any current best
    match: either the best match is unchanged and no matching route has a
    longer prefix, or it is the first route of strictly longest prefix. *)
Lemma find_route_matches_loop a verbose routes :
  routes_well_formed routes = true →
  ∀ acc, ∃ res,
    outcome (for_each routes (find_route_matches_body a verbose) acc) = Ok res
    ∧ ((res = acc
        ∧ ∀ r', r' ∈ routes → route_matches a r' = true →
                route_prefixlen r' ≤ best_prefixlen acc)
       ∨ (∃ (i : nat) r net,
            routes !! i = Some r
            ∧ res = Some (mkBestMatch r net (ipaddress.prefixlen net))
            ∧ route_cidr r = Some net
            ∧ route_matches a r = true
            ∧ best_prefixlen acc < route_prefixlen r
            ∧ ∀ (j : nat) r', routes !! j = Some r' → route_matches a r' = true →
                route_prefixlen r' ≤ route_prefixlen r
                ∧ ((j < i)%nat → route_prefixlen r' < route_prefixlen r))).
Proof.
  induction routes as [|r routes IH]; intros Hwf acc.
  - exists acc. split; [done|]. left. split; [done|]. by intros r' ?%elem_of_nil.
  - simpl in Hwf. apply andb_prop in Hwf as [Hr Hwf].
    specialize (IH Hwf). simpl. rewrite outcome_bind, find_route_matches_body_outcome.
    assert (Hstep :
      (route_matches a r = true ∧ best_prefixlen acc < route_prefixlen r
       ∧ ∃ net, route_cidr r = Some net
                ∧ outcome (find_route_matches_body a verbose r acc)
                  = Ok (Some (mkBestMatch r net (ipaddress.prefixlen net))))
      ∨ ((route_matches a r = true → route_prefixlen r ≤ best_prefixlen acc)
         ∧ outcome (find_route_matches_body a verbose r acc) = Ok acc)).
    { rewrite find_route_matches_body_outcome.
      unfold route_matches, route_prefixlen, route_cidr.
      destruct (r !! "DestinationCidrBlock") as [c|]; simpl; [|by right].
      destruct (ipaddress.ip_network c) as [net|]; simpl in *; [|done].
      destruct (ipaddress.contains net a); [|by right].
      destruct (best_prefixlen acc <? ipaddress.prefixlen net) eqn:Hlt.
      - left. repeat split; [lia|]. by exists net.
      - right. split; [lia | done]. }
    rewrite find_route_matches_body_outcome in Hstep.
    destruct Hstep as [(Hm & Hlt & net & Hnet & ->)|[Hle ->]].
    + destruct (IH (Some (mkBestMatch r net (ipaddress.prefixlen net))))
        as (res & -> & [[-> Hall]|(i & r2 & net2 & Hi & -> & Hnet2 & Hm2 & Hlt2 & Hall)]).
      * eexists. split; [done|]. right. exists 0%nat, r, net.
        repeat split; try done.
        -- destruct j as [|j]; simpl in *; [simplify_eq; lia|].
           assert (r' ∈ routes) by by eapply list_elem_of_lookup_2.
           specialize (Hall r'). unfold best_prefixlen, route_prefixlen in *.
           rewrite Hnet in *. simpl in *. auto.
        -- lia.
      * eexists. split; [done|]. right. exists (S i), r2, net2.
        unfold best_prefixlen in Hlt2. simpl in Hlt2.
        assert (route_prefixlen r = ipaddress.prefixlen net) as Hr'
          by (unfold route_prefixlen; by rewrite Hnet).
        repeat split; try done; try lia.
        -- destruct j as [|j]; simpl in *; [simplify_eq; lia|].
           by apply (Hall j r').
        -- destruct j as [|j]; simpl in *; [simplify_eq; lia|].
           intros ?. apply (Hall j r'); [done..|lia].
    + destruct (IH acc)
        as (res & -> & [[-> Hall]|(i & r2 & net2 & Hi & -> & Hnet2 & Hm2 & Hlt2 & Hall)]).
      * eexists. split; [done|]. left. split; [done|].
        intros r' [->|?]%elem_of_cons; auto.
      * eexists. split; [done|]. right. exists (S i), r2, net2.
        repeat split; try done.
        -- destruct j as [|j]; simpl in *; [simplify_eq; intuition lia|].
           by apply (Hall j r').
        -- destruct j as [|j]; simpl in *; [simplify_eq; intuition lia|].
           intros ?. apply (Hall j r'); [done..|lia].
Qed.

(** C1. Route resolution is longest-prefix-match.  For a destination that
    parses and routes whose destination CIDRs are valid text, the resolver
    returns a result.  It is [None] exactly when no route matches (a route
    matches when it has a destination CIDR and that CIDR contains the
    destination; a route without one never matches).  Otherwise it is a
    matching route of greatest prefix length, and the first such route in
    input order: every matching route before it has a strictly shorter
    prefix. *)
Theorem find_route_matches_longest_prefix routes dest_ip_str verbose a :
  ipaddress.ip_address dest_ip_str = Some a →
  routes_well_formed routes = true →
  ∃ res,
    outcome (find_route_matches routes dest_ip_str verbose) = Ok res
    ∧ (res = None ↔ ∀ r, r ∈ routes → route_matches a r = false)
    ∧ ∀ r, res = Some r →
        ∃ i : nat,
          routes !! i = Some r
          ∧ is_Some (r !! "DestinationCidrBlock")
          ∧ route_matches a r = true
          ∧ ∀ (j : nat) r', routes !! j = Some r' → route_matches a r' = true →
              route_prefixlen r' ≤ route_prefixlen r
              ∧ ((j < i)%nat → route_prefixlen r' < route_prefixlen r).
Proof.
  intros Ha Hwf. unfold find_route_matches.
  rewrite outcome_bind, Ha. simpl. rewrite outcome_bind.
  destruct (find_route_matches_loop a verbose routes Hwf None)
    as (best & -> & [[-> Hall]|(i & r & net & Hi & -> & Hnet & Hm & _ & Hall)]);
    simpl; eexists; (split; [done|]).
  - split; [|done]. split; [|done]. intros _ r Hr.
    destruct (route_matches a r) eqn:Hm; [|done].
    pose proof (route_matches_prefixlen _ _ Hm).
    specialize (Hall r Hr Hm). unfold best_prefixlen in Hall. simpl in Hall. lia.
  - split.
    + split; [done|]. intros Hnone.
      rewrite Hnone in Hm; [done|]. by eapply list_elem_of_lookup_2.
    + intros ? [= <-]. exists i. repeat split; try done.
      * unfold route_cidr in Hnet. destruct (r !! "DestinationCidrBlock"); [eauto|done].
      * by eapply Hall.
      * by eapply Hall.
Qed.

(** ** Network ACL *)

Lemma find_nacl_rule_matches_body_spec a e inbound outbound :
  is_some (CidrBlock e ≫= ipaddress.ip_network) = true →
  find_nacl_rule_matches_body a e (inbound, outbound)
  = ([], Ok (inbound ++ (if nacl_entry_relevant a e && negb (Egress e) then [e] else []),
             outbound ++ (if nacl_entry_relevant a e && Egress e then [e] else []))).
Proof.
  unfold find_nacl_rule_matches_body, nacl_entry_relevant, or_raise.
  destruct (CidrBlock e) as [c|]; simpl; [|done].
  rewrite ?bind_unfold. simpl.
  destruct (ipaddress.ip_network c) as [net|]; simpl; [|done].
  intros _.
  destruct (ipaddress.contains net a), (Egress e); simpl; by rewrite ?app_nil_r.
Qed.

Lemma find_nacl_rule_matches_loop a entries :
  nacl_entries_well_formed entries = true →
  ∀ inbound outbound,
    for_each entries (find_nacl_rule_matches_body a) (inbound, outbound)
    = ([], Ok (inbound ++ List.filter (λ e, nacl_entry_relevant a e && negb (Egress e)) entries,
               outbound ++ List.filter (λ e, nacl_entry_relevant a e && Egress e) entries)).
Proof.
  induction entries as [|e entries IH]; intros Hwf inbound outbound; cbn [for_each List.filter].
  - by rewrite !app_nil_r.
  - simpl in Hwf. apply andb_prop in Hwf as [He Hwf].
    rewrite (find_nacl_rule_matches_body_spec _ _ _ _ He), ?bind_unfold.
    cbn [fst snd]. rewrite (IH Hwf). cbn [fst snd app].
    destruct (nacl_entry_relevant a e && negb (Egress e)),
             (nacl_entry_relevant a e && Egress e);
      by rewrite <- ?app_assoc, ?app_nil_r.
Qed.

Lemma find_nacl_rule_matches_spec entries dest_ip_str a :
  ipaddress.ip_address dest_ip_str = Some a →
  nacl_entries_well_formed entries = true →
  find_nacl_rule_matches entries dest_ip_str
  = ([], Ok (List.filter (λ e, nacl_entry_relevant a e && negb (Egress e)) entries,
             List.filter (λ e, nacl_entry_relevant a e && Egress e) entries)).
Proof.
  intros Ha Hwf. unfold find_nacl_rule_matches. rewrite Ha. simpl.
  rewrite ?bind_unfold. simpl. by rewrite find_nacl_rule_matches_loop.
Qed.

(** NACL evaluation when every entry carries a [CidrBlock] of valid text
    (and only then: at an entry without one the evaluation raises
    [KeyError]).  The evaluator returns exactly the entries whose CIDR block
    contains the destination, those with the egress flag false as the
    inbound list and those with it true as the outbound list, both in
    input order.  The report is a problem when either list is empty, and
    it prints one problem line for an empty inbound list and a separate
    one for an empty outbound list. *)
Theorem nacl_evaluation source_nacl source_ip_address dest_ip_address verbose a :
  ipaddress.ip_address dest_ip_address = Some a →
  nacl_entries_well_formed (Entries source_nacl) = true →
  let inbound :=
    List.filter (λ e, nacl_entry_relevant a e && negb (Egress e)) (Entries source_nacl) in
  let outbound :=
    List.filter (λ e, nacl_entry_relevant a e && Egress e) (Entries source_nacl) in
  outcome (find_nacl_rule_matches (Entries source_nacl) dest_ip_address)
  = Ok (inbound, outbound)
  ∧ outcome (report_nacl source_nacl source_ip_address dest_ip_address verbose)
    = Ok ((length inbound =? 0)%nat || (length outbound =? 0)%nat)
  ∧ List.filter is_problem
      (output (report_nacl source_nacl source_ip_address dest_ip_address verbose))
    = (if (length inbound =? 0)%nat
       then [Print "NETWORK CONNECTIVITY ERROR. No relevant inbound rules for NACL."]
       else [])
      ++ (if (length outbound =? 0)%nat
          then [Print "NETWORK CONNECTIVITY ERROR. No relevant outbound rules for NACL."]
          else []).
Proof.
  intros Ha Hwf inbound outbound.
  pose proof (find_nacl_rule_matches_spec _ _ _ Ha Hwf) as Hfind.
  fold inbound outbound in Hfind.
  split; [by rewrite Hfind|].
  unfold report_nacl. rewrite ?bind_unfold. simpl. rewrite Hfind. simpl.
  destruct inbound, outbound; simpl; done.
Qed.

(** C5.  NACL evaluation does not return the relevant entries of every
    list of NACL entries: at an entry without a CIDR block it raises.  A
    NACL of a VPC with IPv6 has entries that carry [Ipv6CidrBlock] and no
    [CidrBlock]; [find_nacl_rule_matches] reads [e['CidrBlock']] of every
    entry unguarded.  For the entries 0.0.0.0/0 inbound, an IPv6 entry and
    0.0.0.0/0 outbound, and the destination 10.1.2.3, the evaluation
    raises [KeyError] instead of returning the two relevant entries, and
    the NACL report raises with it, before any verdict.  Without the IPv6
    entry the same evaluation returns the inbound and the outbound entry
    and the report is no problem.  The route resolver, which tests for
    the key, passes over a route that has only an IPv6 destination. *)
Theorem nacl_ipv6_entry_raises :
  CidrBlock SampleDenied.entry_ipv6 = None
  ∧ find_nacl_rule_matches (Entries SampleDenied.nacl_with_ipv6) "10.1.2.3"
    = ([], Raise KeyError)
  ∧ outcome (report_nacl SampleDenied.nacl_with_ipv6 "10.1.2.5" "10.1.2.3" false)
    = Raise KeyError
  ∧ problems (output (report_nacl SampleDenied.nacl_with_ipv6 "10.1.2.5" "10.1.2.3" false))
    = []
  ∧ find_nacl_rule_matches (Entries SampleDenied.nacl_without_ipv6) "10.1.2.3"
    = ([], Ok ([Sample.entry_all_in], [Sample.entry_all_out]))
  ∧ outcome (report_nacl SampleDenied.nacl_without_ipv6 "10.1.2.5" "10.1.2.3" false)
    = Ok false
  ∧ Sample.route_ipv6 !! "DestinationCidrBlock" = None
  ∧ outcome (find_route_matches [Sample.route_ipv6; Sample.route_igw] "10.1.2.3" false)
    = Ok (Some Sample.route_igw).
Proof. repeat split; vm_compute; reflexivity. Qed.

(** ** Security groups *)

Lemma ip_ranges_match_output a ranges : output (ip_ranges_match a ranges) = [].
Proof.
  induction ranges as [|r ranges IH]; cbn [ip_ranges_match]; [done|].
  destruct (String.eqb (CidrIp r) ALL_IPV4); [done|].
  unfold or_raise. destruct (ipaddress.ip_network (CidrIp r)) as [net|]; [|done].
  rewrite ?bind_unfold. cbn [fst snd mret M_ret app].
  destruct (ipaddress.contains net a); [done|].
  exact IH.
Qed.

Lemma ip_ranges_match_spec a ranges :
  forallb (λ r, is_some (ipaddress.ip_network (CidrIp r))) ranges = true →
  ip_ranges_match a ranges = ([], Ok (existsb (ip_range_contains a) ranges)).
Proof.
  induction ranges as [|r ranges IH]; cbn [ip_ranges_match forallb existsb]; [done|].
  intros [Hr Hwf]%andb_prop. unfold ip_range_contains at 1.
  destruct (String.eqb (CidrIp r) ALL_IPV4); [done|].
  unfold or_raise. destruct (ipaddress.ip_network (CidrIp r)) as [net|]; [|done].
  rewrite ?bind_unfold. cbn [fst snd mret M_ret app orb].
  destruct (ipaddress.contains net a); [done|].
  by rewrite (IH Hwf).
Qed.

(** One turn of the loop of [find_security_group_matches], in terms of
    what the loop over the ranges returns. *)
Lemma find_security_group_matches_body_unfold a p matches :
  find_security_group_matches_body a p matches =
  match outcome (ip_ranges_match a (IpRanges p)) with
  | Ok b =>
      (unsupported_warnings p,
       Ok (matches ++ if b || (0 <? length (UserIdGroupPairs p))%nat then [p] else []))
  | Raise e => ([], Raise e)
  end.
Proof.
  unfold find_security_group_matches_body, unsupported_warnings.
  assert ((if (0 <? length (IpRanges p))%nat
           then ip_ranges_match a (IpRanges p) else mret false)
          = ip_ranges_match a (IpRanges p)) as -> by by destruct (IpRanges p).
  pose proof (ip_ranges_match_output a (IpRanges p)) as Hout.
  rewrite (surjective_M (ip_ranges_match a (IpRanges p))), Hout.
  destruct (outcome (ip_ranges_match a (IpRanges p))) as [b|e]; [|done].
  rewrite ?bind_unfold.
  destruct (0 <? length (Ipv6Ranges p))%nat, (0 <? length (PrefixListIds p))%nat,
           (0 <? length (UserIdGroupPairs p))%nat, b; simpl; by rewrite ?app_nil_r.
Qed.

Lemma find_security_group_matches_loop a permissions :
  permissions_well_formed permissions = true →
  ∀ matches,
    for_each permissions (find_security_group_matches_body a) matches
    = (flat_map unsupported_warnings permissions,
       Ok (matches ++ List.filter (permission_matches a) permissions)).
Proof.
  induction permissions as [|p permissions IH]; intros Hwf matches;
    cbn [for_each List.filter flat_map].
  - by rewrite app_nil_r.
  - simpl in Hwf. apply andb_prop in Hwf as [Hp Hwf].
    rewrite find_security_group_matches_body_unfold, (ip_ranges_match_spec _ _ Hp).
    cbn [outcome snd]. rewrite ?bind_unfold. cbn [fst snd]. rewrite (IH Hwf).
    cbn [fst snd]. unfold permission_matches at 2.
    destruct (existsb (ip_range_contains a) (IpRanges p)
              || (0 <? length (UserIdGroupPairs p))%nat);
      by rewrite <- ?app_assoc, ?app_nil_r.
Qed.

Lemma find_security_group_matches_spec permissions dest_ip_str a :
  ipaddress.ip_address dest_ip_str = Some a →
  permissions_well_formed permissions = true →
  find_security_group_matches permissions dest_ip_str
  = (flat_map unsupported_warnings permissions,
     Ok (List.filter (permission_matches a) permissions)).
Proof.
  intros Ha Hwf. unfold find_security_group_matches. rewrite Ha. simpl.
  rewrite ?bind_unfold. simpl. by rewrite find_security_group_matches_loop.
Qed.

Lemma unsupported_warnings_severity p :
  Forall (λ o, severity o = Warning) (unsupported_warnings p).
Proof.
  unfold unsupported_warnings.
  destruct (0 <? length (Ipv6Ranges p))%nat, (0 <? length (PrefixListIds p))%nat;
    simpl; repeat constructor.
Qed.

Lemma flat_map_unsupported_warnings_severity permissions :
  Forall (λ o, severity o = Warning) (flat_map unsupported_warnings permissions).
Proof.
  induction permissions as [|p permissions IH]; simpl; [constructor|].
  apply Forall_app. split; [apply unsupported_warnings_severity | done].
Qed.

Lemma filter_is_problem_warnings l :
  Forall (λ o, severity o = Warning) l → List.filter is_problem l = [].
Proof.
  induction 1 as [|o l Ho _ IH]; simpl; [done|].
  unfold is_problem at 1. by rewrite Ho.
Qed.

Lemma get_security_groups_body_spec a dest_ip_address sg ingress egress :
  ipaddress.ip_address dest_ip_address = Some a →
  permissions_well_formed (IpPermissions sg)
  && permissions_well_formed (IpPermissionsEgress sg) = true →
  get_security_groups_body dest_ip_address sg (ingress, egress)
  = (security_group_warnings sg,
     Ok (ingress ++ ingress_matches a sg, egress ++ egress_matches a sg)).
Proof.
  intros Ha [Hin Heg]%andb_prop. unfold get_security_groups_body.
  rewrite (find_security_group_matches_spec _ _ _ Ha Hin), ?bind_unfold. cbn [fst snd].
  rewrite (find_security_group_matches_spec _ _ _ Ha Heg), ?bind_unfold. cbn [fst snd].
  simpl. by rewrite app_nil_r.
Qed.

Lemma get_security_groups_loop a dest_ip_address sgs :
  ipaddress.ip_address dest_ip_address = Some a →
  security_groups_well_formed sgs = true →
  ∀ ingress egress,
    for_each sgs (get_security_groups_body dest_ip_address) (ingress, egress)
    = (flat_map security_group_warnings sgs,
       Ok (ingress ++ flat_map (ingress_matches a) sgs,
           egress ++ flat_map (egress_matches a) sgs)).
Proof.
  intros Ha. induction sgs as [|sg sgs IH]; intros Hwf ingress egress;
    cbn [for_each flat_map].
  - by rewrite !app_nil_r.
  - simpl in Hwf. apply andb_prop in Hwf as [Hsg Hwf].
    rewrite (get_security_groups_body_spec _ _ _ _ _ Ha Hsg), ?bind_unfold.
    cbn [fst snd]. rewrite (IH Hwf). cbn [fst snd]. by rewrite <- !app_assoc.
Qed.

Lemma find_security_group_matches_problems permissions dest_ip_str :
  problems (output (find_security_group_matches permissions dest_ip_str)) = [].
Proof.
  unfold find_security_group_matches. rewrite problems_bind.
  destruct (ipaddress.ip_address dest_ip_str) as [a|]; [|done].
  cbn [or_raise outcome output mret M_ret fst snd problems List.filter app].
  apply problems_for_each. intros p matches.
  rewrite find_security_group_matches_body_unfold.
  destruct (outcome (ip_ranges_match a (IpRanges p))); [|done].
  apply filter_is_problem_warnings, unsupported_warnings_severity.
Qed.

Lemma get_security_groups_problems aws sg_group_ids dest_ip_address verbose :
  problems (output (get_security_groups aws sg_group_ids dest_ip_address verbose)) = [].
Proof.
  unfold get_security_groups. rewrite problems_bind.
  destruct (length _ =? length _)%nat; [|done].
  cbn [assert outcome output mret M_ret fst snd problems List.filter app].
  rewrite problems_bind. rewrite problems_when by done.
  destruct (outcome (when verbose _)); [|done]. cbn [app].
  apply problems_for_each. intros sg [ingress egress].
  unfold get_security_groups_body.
  rewrite problems_bind, find_security_group_matches_problems.
  destruct (outcome (find_security_group_matches (IpPermissions sg) _)); [|done].
  rewrite problems_bind, find_security_group_matches_problems.
  by destruct (outcome (find_security_group_matches (IpPermissionsEgress sg) _)).
Qed.

(** What [report_security_groups] returns and prints, given what
    [get_security_groups] found. *)
Lemma report_security_groups_spec aws ids source_ip_address dest_ip_address verbose :
  match outcome (get_security_groups aws ids dest_ip_address verbose) with
  | Ok (ingress, egress) =>
      outcome (report_security_groups aws ids source_ip_address dest_ip_address verbose)
      = Ok ((length ingress =? 0)%nat || (length egress =? 0)%nat)
      ∧ problems (output (report_security_groups aws ids source_ip_address
                            dest_ip_address verbose))
        = (if (length ingress =? 0)%nat
           then [Print ("NETWORK CONNECTIVITY ERROR. No ingress is allowed by source Security Groups for "
                        +:+ dest_ip_address)]
           else [])
          ++ (if (length egress =? 0)%nat
              then [Print ("NETWORK CONNECTIVITY ERROR. No egress is allowed by source Security Groups for "
                           +:+ dest_ip_address)]
              else [])
  | Raise e =>
      outcome (report_security_groups aws ids source_ip_address dest_ip_address verbose)
      = Raise e
  end.
Proof.
  unfold report_security_groups.
  rewrite outcome_bind, problems_bind, get_security_groups_problems.
  destruct (outcome (get_security_groups aws ids dest_ip_address verbose))
    as [[ingress egress]|e]; [|done].
  destruct ingress, egress; simpl; done.
Qed.

Lemma permission_matches_iff a p :
  permission_matches a p = true
  ↔ (∃ r, r ∈ IpRanges p ∧ ip_range_contains a r = true) ∨ UserIdGroupPairs p ≠ [].
Proof.
  unfold permission_matches. rewrite orb_true_iff, existsb_exists. split.
  - intros [(r & Hr & Hc)|Hg].
    + left. exists r. by rewrite list_elem_of_In.
    + right. by destruct (UserIdGroupPairs p).
  - intros [(r & Hr & Hc)|Hg].
    + left. exists r. by rewrite <- list_elem_of_In.
    + right. by destruct (UserIdGroupPairs p).
Qed.

(** C4. Security-group matching.  For a destination that parses and
    permissions whose CIDR ranges are valid text, a permission is returned
    iff one of its CIDR ranges contains the destination (the match-all
    CIDR counting as containing it) or it carries a peer-group reference;
    and in the report each direction with no match over all the
    permissions of the source's security groups is a problem of its own. *)
Theorem security_group_matching aws ids source_ip_address dest_ip_address
    verbose permissions a :
  ipaddress.ip_address dest_ip_address = Some a →
  permissions_well_formed permissions = true →
  length (describe_security_groups aws ids) = length ids →
  security_groups_well_formed (describe_security_groups aws ids) = true →
  let ingress := flat_map (ingress_matches a) (describe_security_groups aws ids) in
  let egress := flat_map (egress_matches a) (describe_security_groups aws ids) in
  (∃ res,
     outcome (find_security_group_matches permissions dest_ip_address) = Ok res
     ∧ res = List.filter (permission_matches a) permissions
     ∧ ∀ p, p ∈ res ↔
            p ∈ permissions
            ∧ ((∃ r, r ∈ IpRanges p ∧ ip_range_contains a r = true)
               ∨ UserIdGroupPairs p ≠ []))
  ∧ outcome (get_security_groups aws ids dest_ip_address verbose) = Ok (ingress, egress)
  ∧ outcome (report_security_groups aws ids source_ip_address dest_ip_address verbose)
    = Ok ((length ingress =? 0)%nat || (length egress =? 0)%nat)
  ∧ problems (output (report_security_groups aws ids source_ip_address
                        dest_ip_address verbose))
    = (if (length ingress =? 0)%nat
       then [Print ("NETWORK CONNECTIVITY ERROR. No ingress is allowed by source Security Groups for "
                    +:+ dest_ip_address)]
       else [])
      ++ (if (length egress =? 0)%nat
          then [Print ("NETWORK CONNECTIVITY ERROR. No egress is allowed by source Security Groups for "
                       +:+ dest_ip_address)]
          else []).
Proof.
  intros Ha Hwf Hlen Hsgs ingress egress. split.
  - eexists. rewrite (find_security_group_matches_spec _ _ _ Ha Hwf).
    split; [done|]. split; [done|]. intros p.
    rewrite list_elem_of_In, List.filter_In, <- list_elem_of_In, permission_matches_iff.
    tauto.
  - assert (outcome (get_security_groups aws ids dest_ip_address verbose)
            = Ok (ingress, egress)) as Hget.
    { unfold get_security_groups. rewrite Hlen, Nat.eqb_refl.
      rewrite outcome_bind. cbn [assert outcome snd mret M_ret].
      rewrite outcome_bind, (outcome_when verbose) by done.
      by rewrite (get_security_groups_loop _ _ _ Ha Hsgs). }
    split; [done|].
    pose proof (report_security_groups_spec aws ids source_ip_address
                  dest_ip_address verbose) as Hrep.
    by rewrite Hget in Hrep.
Qed.

(** The matches are appended in input order, one per permission at most. *)
Lemma find_security_group_matches_loop_sublist a permissions :
  ∀ matches res,
    outcome (for_each permissions (find_security_group_matches_body a) matches) = Ok res →
    ∃ sub, res = matches ++ sub ∧ sub `sublist_of` permissions.
Proof.
  induction permissions as [|p permissions IH]; intros matches res; cbn [for_each].
  - intros [= <-]. exists []. by rewrite app_nil_r.
  - rewrite outcome_bind, find_security_group_matches_body_unfold.
    destruct (outcome (ip_ranges_match a (IpRanges p))) as [b|e]; [|done].
    cbn [outcome snd]. intros (sub & -> & Hsub)%IH.
    destruct (b || (0 <? length (UserIdGroupPairs p))%nat).
    + exists (p :: sub). split; [by rewrite <- app_assoc | by apply sublist_skip].
    + exists sub. split; [by rewrite app_nil_r | by apply sublist_cons].
Qed.

(** C10. The matches returned by security-group evaluation are a
    subsequence of the permission list, in input order, each input
    permission taken at most once; and the evaluation does return when
    the destination and the CIDR ranges are valid text. *)
Theorem find_security_group_matches_subsequence permissions dest_ip_str :
  (∀ res,
     outcome (find_security_group_matches permissions dest_ip_str) = Ok res →
     res `sublist_of` permissions ∧ (length res ≤ length permissions)%nat)
  ∧ (is_some (ipaddress.ip_address dest_ip_str) = true →
     permissions_well_formed permissions = true →
     ∃ res, outcome (find_security_group_matches permissions dest_ip_str) = Ok res).
Proof.
  split.
  - intros res. unfold find_security_group_matches. rewrite outcome_bind.
    destruct (ipaddress.ip_address dest_ip_str) as [a|]; [|done].
    cbn [or_raise outcome snd mret M_ret].
    intros (sub & -> & Hsub)%find_security_group_matches_loop_sublist.
    split; [done|]. by apply sublist_length.
  - destruct (ipaddress.ip_address dest_ip_str) as [a|] eqn:Ha; [|done].
    intros _ Hwf. eexists. by rewrite (find_security_group_matches_spec _ _ _ Ha Hwf).
Qed.

Lemma find_security_group_matches_loop_unsupported a permissions :
  ∀ matches,
    outcome (for_each (map without_unsupported permissions)
               (find_security_group_matches_body a) (map without_unsupported matches))
    = map_result (map without_unsupported)
        (outcome (for_each permissions (find_security_group_matches_body a) matches)).
Proof.
  induction permissions as [|p permissions IH]; intros matches; cbn [for_each map]; [done|].
  rewrite !outcome_bind, !find_security_group_matches_body_unfold.
  cbn [without_unsupported IpRanges UserIdGroupPairs].
  destruct (outcome (ip_ranges_match a (IpRanges p))) as [b|e]; [|done].
  cbn [outcome snd]. rewrite <- IH. f_equal.
  rewrite map_app. by destruct (b || (0 <? length (UserIdGroupPairs p))%nat).
Qed.

Lemma find_security_group_matches_loop_output a permissions :
  ∀ matches res,
    outcome (for_each permissions (find_security_group_matches_body a) matches) = Ok res →
    output (for_each permissions (find_security_group_matches_body a) matches)
    = flat_map unsupported_warnings permissions.
Proof.
  induction permissions as [|p permissions IH]; intros matches res; cbn [for_each flat_map];
    [done|].
  rewrite outcome_bind, output_bind, find_security_group_matches_body_unfold.
  destruct (outcome (ip_ranges_match a (IpRanges p))) as [b|e]; [|done].
  cbn [outcome output fst snd]. intros Hres. by rewrite (IH _ _ Hres).
Qed.

(** C9. IPv6 ranges and prefix-list references of a permission are not
    evaluated: removing them from every permission changes neither which
    permissions match nor whether the evaluation returns.  When the
    evaluation returns, its output is exactly one warning per permission
    that has IPv6 ranges and one per permission that has prefix-list
    references, in input order; none of these lines is a problem. *)
Theorem unsupported_rule_shapes_ignored permissions dest_ip_str :
  outcome (find_security_group_matches (map without_unsupported permissions) dest_ip_str)
  = map_result (map without_unsupported)
      (outcome (find_security_group_matches permissions dest_ip_str))
  ∧ (∀ res,
       outcome (find_security_group_matches permissions dest_ip_str) = Ok res →
       output (find_security_group_matches permissions dest_ip_str)
       = flat_map unsupported_warnings permissions)
  ∧ Forall (λ o, severity o = Warning) (flat_map unsupported_warnings permissions)
  ∧ problems (output (find_security_group_matches permissions dest_ip_str)) = [].
Proof.
  split; [|split; [|split]].
  - unfold find_security_group_matches. rewrite !outcome_bind.
    destruct (ipaddress.ip_address dest_ip_str) as [a|]; [|done].
    cbn [or_raise outcome snd mret M_ret].
    apply (find_security_group_matches_loop_unsupported a permissions []).
  - intros res. unfold find_security_group_matches. rewrite outcome_bind, output_bind.
    destruct (ipaddress.ip_address dest_ip_str) as [a|]; [|done].
    cbn [or_raise outcome output fst snd mret M_ret app].
    apply find_security_group_matches_loop_output.
  - apply flat_map_unsupported_warnings_severity.
  - apply find_security_group_matches_problems.
Qed.

(** ** Direct Connect virtual interfaces *)

Lemma report_dc_bgp_peer_spec p npe tip :
  report_dc_bgp_peer p (npe, tip)
  = (bgp_peer_lines p, Ok (npe || negb (bgp_peer_ok p), tip || negb (bgp_peer_ok p))).
Proof.
  unfold report_dc_bgp_peer, bgp_peer_lines, bgp_peer_ok.
  destruct (String.eqb (bgpStatus p) "up"), (String.eqb (bgpPeerState p) "available");
    simpl; by rewrite ?orb_true_r, ?orb_false_r.
Qed.

Lemma report_dc_bgp_peers_spec peers :
  ∀ npe tip,
    for_each peers report_dc_bgp_peer (npe, tip)
    = (flat_map bgp_peer_lines peers,
       Ok (npe || negb (forallb bgp_peer_ok peers), tip || negb (forallb bgp_peer_ok peers))).
Proof.
  induction peers as [|p peers IH]; intros npe tip; cbn [for_each flat_map forallb].
  - by rewrite !orb_false_r.
  - rewrite report_dc_bgp_peer_spec, ?bind_unfold. cbn [fst snd]. rewrite IH. cbn [fst snd].
    by rewrite negb_andb, !orb_assoc.
Qed.

Lemma report_dc_virtual_interface_spec i npe :
  report_dc_virtual_interface i npe
  = (virtual_interface_lines i, Ok (npe || negb (virtual_interface_ok i))).
Proof.
  unfold report_dc_virtual_interface, virtual_interface_lines, virtual_interface_ok.
  destruct (String.eqb (virtualInterfaceState i) "available");
    rewrite ?bind_unfold; cbn [negb fst snd mret M_ret print pprint app andb];
    rewrite report_dc_bgp_peers_spec; cbn [fst snd orb negb];
    destruct (forallb bgp_peer_ok (bgpPeers i)); simpl;
    by rewrite ?app_nil_r, ?orb_true_r, ?orb_false_r.
Qed.

Lemma report_dc_virtual_interfaces_loop dc_vifs :
  ∀ npe,
    for_each dc_vifs report_dc_virtual_interface npe
    = (flat_map virtual_interface_lines dc_vifs,
       Ok (npe || negb (forallb virtual_interface_ok dc_vifs))).
Proof.
  induction dc_vifs as [|i dc_vifs IH]; intros npe; cbn [for_each flat_map forallb].
  - by rewrite orb_false_r.
  - rewrite report_dc_virtual_interface_spec, ?bind_unfold. cbn [fst snd]. rewrite IH.
    cbn [fst snd]. by rewrite negb_andb, orb_assoc.
Qed.

Lemma report_dc_virtual_interfaces_spec dc_vifs verbose :
  report_dc_virtual_interfaces dc_vifs verbose
  = ([Print "Checking Direct Connect Virtual Interfaces:"]
     ++ (if verbose then [PPrint (EvVirtualInterfaces dc_vifs)] else [])
     ++ match dc_vifs with
        | [] => [Print "NETWORK CONNECTIVITY ERROR. No DC Virtual Interfaces present."]
        | _ => flat_map virtual_interface_lines dc_vifs
        end,
     Ok match dc_vifs with
        | [] => true
        | _ => negb (forallb virtual_interface_ok dc_vifs)
        end).
Proof.
  unfold report_dc_virtual_interfaces. rewrite ?bind_unfold.
  destruct dc_vifs as [|i dc_vifs]; [by destruct verbose|].
  rewrite report_dc_virtual_interfaces_loop. by destruct verbose.
Qed.

Lemma problems_bgp_peer_lines peers :
  problems (flat_map bgp_peer_lines peers) = [] ↔ forallb bgp_peer_ok peers = true.
Proof.
  induction peers as [|p peers IH]; cbn [flat_map forallb]; [done|].
  rewrite problems_app. unfold bgp_peer_lines at 1.
  destruct (bgp_peer_ok p); simpl; [done|]. split; discriminate.
Qed.

Lemma problems_virtual_interface_lines i :
  problems (virtual_interface_lines i) = [] ↔ virtual_interface_ok i = true.
Proof.
  unfold virtual_interface_lines, virtual_interface_ok.
  destruct (String.eqb (virtualInterfaceState i) "available"); simpl.
  - rewrite problems_app, <- problems_bgp_peer_lines.
    destruct (problems (flat_map bgp_peer_lines (bgpPeers i))) eqn:Hp.
    + apply problems_bgp_peer_lines in Hp as ->. by simpl.
    + split; [discriminate | done].
  - split; discriminate.
Qed.

(** C8. Cross-connect virtual interfaces.  An empty list is a problem,
    reported as such.  Otherwise the report prints, for every interface in
    turn and whatever its siblings are, the lines of that interface: a
    problem line and the interface if its state is not "available", a
    problem line and the peer for each BGP peer that is not "available"
    and "up", and a line that it appears OK when there is none of these.
    The lines of an interface hold a problem iff the interface violates a
    condition, and the check reports no problem iff the list is non-empty
    and every interface is healthy. *)
Theorem cross_connect_validation dc_vifs verbose :
  report_dc_virtual_interfaces [] verbose
  = ([Print "Checking Direct Connect Virtual Interfaces:"]
     ++ (if verbose then [PPrint (EvVirtualInterfaces [])] else [])
     ++ [Print "NETWORK CONNECTIVITY ERROR. No DC Virtual Interfaces present."],
     Ok true)
  ∧ (dc_vifs ≠ [] →
     output (report_dc_virtual_interfaces dc_vifs verbose)
     = [Print "Checking Direct Connect Virtual Interfaces:"]
       ++ (if verbose then [PPrint (EvVirtualInterfaces dc_vifs)] else [])
       ++ flat_map virtual_interface_lines dc_vifs)
  ∧ (∀ i npe, output (report_dc_virtual_interface i npe) = virtual_interface_lines i)
  ∧ (∀ i, problems (virtual_interface_lines i) = [] ↔ virtual_interface_ok i = true)
  ∧ (∀ i, virtual_interface_ok i = true ↔
          virtualInterfaceState i = "available"
          ∧ ∀ p, p ∈ bgpPeers i → bgpPeerState p = "available" ∧ bgpStatus p = "up")
  ∧ (outcome (report_dc_virtual_interfaces dc_vifs verbose) = Ok false
     ∨ outcome (report_dc_virtual_interfaces dc_vifs verbose) = Ok true)
  ∧ (outcome (report_dc_virtual_interfaces dc_vifs verbose) = Ok false
     ↔ dc_vifs ≠ [] ∧ ∀ i, i ∈ dc_vifs → virtual_interface_ok i = true).
Proof.
  split; [apply report_dc_virtual_interfaces_spec|].
  split; [intros Hne; rewrite report_dc_virtual_interfaces_spec; by destruct dc_vifs|].
  split; [intros i npe; by rewrite report_dc_virtual_interface_spec|].
  split; [apply problems_virtual_interface_lines|].
  split.
  { intros i. unfold virtual_interface_ok, bgp_peer_ok.
    rewrite andb_true_iff, String.eqb_eq, forallb_forall.
    split; intros [Hs Hp]; (split; [done|]); intros p Hin.
    - apply list_elem_of_In, Hp in Hin.
      by rewrite andb_true_iff, !String.eqb_eq in Hin.
    - rewrite andb_true_iff, !String.eqb_eq. apply Hp. by apply list_elem_of_In. }
  rewrite report_dc_virtual_interfaces_spec. cbn [outcome snd].
  split.
  { destruct dc_vifs; [by right|].
    destruct (forallb virtual_interface_ok _); [by left | by right]. }
  destruct dc_vifs as [|i dc_vifs].
  - split; [discriminate | by intros [? _]].
  - split.
    + intros [= Hall%negb_false_iff]. split; [done|].
      change (forallb virtual_interface_ok (i :: dc_vifs) = true) in Hall.
      intros j Hj. rewrite forallb_forall in Hall. by apply Hall, list_elem_of_In.
    + intros [_ Hall]. f_equal. apply negb_false_iff, forallb_forall.
      intros j Hj. by apply Hall, list_elem_of_In.
Qed.

(** ** Route table and gateway chain *)

Lemma report_virtual_private_gateway_spec aws gateway_id verbose npe g attachment :
  describe_vpn_gateways aws gateway_id = [g] →
  VpcAttachments g = [attachment] →
  let dc_vifs := get_dc_virtual_interface aws gateway_id verbose in
  report_virtual_private_gateway aws gateway_id verbose npe
  = ([Print "Virtual Private Gateway:"; PPrint (EvVpnGateway g)]
     ++ vpn_gateway_lines g attachment
     ++ output (report_dc_virtual_interfaces dc_vifs verbose),
     Ok (npe || negb (vpn_gateway_valid g attachment)
         || match dc_vifs with
            | [] => true
            | _ => negb (forallb virtual_interface_ok dc_vifs)
            end)).
Proof.
  intros Hg Hatt dc_vifs. unfold report_virtual_private_gateway.
  rewrite Hg. mred. rewrite Hatt. mred.
  fold dc_vifs. rewrite (report_dc_virtual_interfaces_spec dc_vifs verbose).
  unfold vpn_gateway_lines, vpn_gateway_valid.
  destruct (String.eqb (vgw_State g) "available"),
           (String.eqb (attachment_State attachment) "attached");
    mred; simpl; by rewrite ?app_nil_r, ?orb_true_r, ?orb_false_r.
Qed.

Lemma flag_agrees_Ok (m : M bool) l p :
  m = (l, Ok p) → (p = true ↔ problems l ≠ []) → flag_agrees m.
Proof. intros -> Hiff p' [= <-]. exact Hiff. Qed.

Lemma flag_agrees_Raise (m : M bool) e : outcome m = Raise e → flag_agrees m.
Proof. intros He p Hp. congruence. Qed.

Lemma report_dc_virtual_interfaces_agrees dc_vifs verbose :
  flag_agrees (report_dc_virtual_interfaces dc_vifs verbose).
Proof.
  eapply flag_agrees_Ok; [apply report_dc_virtual_interfaces_spec|].
  rewrite !problems_app.
  assert (problems (if verbose then [PPrint (EvVirtualInterfaces dc_vifs)] else []) = [])
    as -> by by destruct verbose.
  change (problems [Print "Checking Direct Connect Virtual Interfaces:"]) with (@nil Output).
  cbn [app].
  destruct dc_vifs as [|i dc_vifs]; [done|].
  generalize (i :: dc_vifs). clear. intros l. rewrite negb_true_iff.
  induction l as [|i l IH]; cbn [flat_map forallb]; [done|].
  fold (problems (virtual_interface_lines i ++ flat_map virtual_interface_lines l)).
  rewrite problems_app.
  pose proof (problems_virtual_interface_lines i) as Hi.
  destruct (virtual_interface_ok i).
  - rewrite (proj2 Hi eq_refl). exact IH.
  - split; [|done]. intros _ [Hnil _]%app_eq_nil. by apply Hi in Hnil.
Qed.

Lemma report_internet_gateway_agrees aws gateway_id :
  flag_agrees (report_internet_gateway aws gateway_id false).
Proof.
  unfold report_internet_gateway.
  destruct (describe_internet_gateways aws gateway_id) as [|g [|? ?]];
    try (by eapply flag_agrees_Raise).
  mred. destruct (Attachments g) as [|att [|? ?]];
    try (by eapply flag_agrees_Raise).
  mred. destruct (String.eqb (attachment_State att) "available");
    (eapply flag_agrees_Ok; [mred; reflexivity|done]).
Qed.

Lemma report_virtual_private_gateway_agrees aws gateway_id verbose :
  flag_agrees (report_virtual_private_gateway aws gateway_id verbose false).
Proof.
  destruct (describe_vpn_gateways aws gateway_id) as [|g [|? ?]] eqn:Hg;
    try (unfold report_virtual_private_gateway; rewrite Hg;
         by eapply flag_agrees_Raise).
  destruct (VpcAttachments g) as [|att [|? ?]] eqn:Hatt;
    try (unfold report_virtual_private_gateway; rewrite Hg; mred; rewrite Hatt;
         by eapply flag_agrees_Raise).
  eapply flag_agrees_Ok; [by apply report_virtual_private_gateway_spec|].
  pose proof (report_dc_virtual_interfaces_agrees
                (get_dc_virtual_interface aws gateway_id verbose) verbose) as Hdc.
  specialize (Hdc _ (f_equal snd (report_dc_virtual_interfaces_spec _ _))).
  rewrite !problems_app.
  change (problems [Print "Virtual Private Gateway:"; PPrint (EvVpnGateway g)])
    with (@nil Output).
  cbn [app orb]. unfold vpn_gateway_valid, vpn_gateway_lines.
  destruct (String.eqb (vgw_State g) "available"),
           (String.eqb (attachment_State att) "attached"); simpl; try done.
Qed.

Lemma report_nat_gateway_agrees aws nat_gateway_id verbose :
  flag_agrees (report_nat_gateway aws nat_gateway_id verbose false).
Proof.
  unfold report_nat_gateway, get_nat_gateway.
  destruct (describe_nat_gateways aws nat_gateway_id) as [|g [|? ?]];
    try (by eapply flag_agrees_Raise).
  destruct verbose, (String.eqb (nat_State g) "available") eqn:Hs;
    (eapply flag_agrees_Ok; [mred; cbn [when]; mred; rewrite Hs; mred; reflexivity|done]).
Qed.

Lemma report_peering_connection_agrees aws peering_connection_id source_vpc_id verbose :
  flag_agrees (report_peering_connection aws peering_connection_id source_vpc_id
                 verbose false).
Proof.
  unfold report_peering_connection, get_vpc_peering_connections.
  destruct (describe_vpc_peering_connections aws peering_connection_id) as [|c [|? ?]];
    try (by eapply flag_agrees_Raise).
  destruct verbose, (String.eqb (StatusCode c) "active") eqn:Hs;
    (eapply flag_agrees_Ok; [mred; cbn [when]; mred; rewrite Hs; mred; reflexivity|done]).
Qed.

Lemma report_route_target_agrees aws r source_vpc_id dest_ip_address verbose :
  flag_agrees (report_route_target aws r source_vpc_id dest_ip_address verbose false).
Proof.
  destruct r as [r|]; cbn [report_route_target].
  2: { eapply flag_agrees_Ok; [mred; reflexivity|done]. }
  destruct (r !! "GatewayId") as [gateway_id|].
  { intros p. rewrite outcome_bind, output_bind, problems_app. cbn [print outcome output fst snd].
    change (problems [Print ("Via gateway: " +:+ gateway_id)]) with (@nil Output).
    cbn [app].
    destruct (String.prefix "igw-" gateway_id);
      [apply report_internet_gateway_agrees|].
    destruct (String.prefix "vgw-" gateway_id);
      [apply report_virtual_private_gateway_agrees|].
    revert p. eapply flag_agrees_Ok; [mred; reflexivity|done]. }
  destruct (r !! "NatGatewayId") as [nat_gateway_id|];
    [apply report_nat_gateway_agrees|].
  destruct (r !! "VpcPeeringConnectionId") as [peering_connection_id|];
    [apply report_peering_connection_agrees|].
  eapply flag_agrees_Ok; [mred; reflexivity|done].
Qed.

Lemma find_route_matches_problems routes dest_ip_str verbose :
  problems (output (find_route_matches routes dest_ip_str verbose)) = [].
Proof.
  unfold find_route_matches. rewrite problems_bind.
  destruct (ipaddress.ip_address dest_ip_str) as [a|]; [|done].
  cbn [or_raise outcome output mret M_ret fst snd problems List.filter app].
  rewrite problems_bind.
  assert (problems (output (for_each routes (find_route_matches_body a verbose) None)) = [])
    as ->.
  { apply problems_for_each. intros r acc. unfold find_route_matches_body.
    destruct verbose; cbn [when]; mred;
      (destruct (r !! "DestinationCidrBlock") as [c|]; [|done]);
      (destruct (ipaddress.ip_network c) as [net|]; mred; [|done]);
      (destruct (ipaddress.contains net a); mred; done). }
  by destruct (outcome _).
Qed.

(** [report_route_table] resolves the route and hands it to the chain of
    target checks; nothing before that is a problem line. *)
Lemma report_route_table_unfold aws source_route_table source_vpc_id
    source_ip_address dest_ip_address verbose r :
  outcome (find_route_matches (Routes source_route_table) dest_ip_address verbose) = Ok r →
  outcome (report_route_table aws source_route_table source_vpc_id source_ip_address
             dest_ip_address verbose)
  = outcome (report_route_target aws r source_vpc_id dest_ip_address verbose false)
  ∧ problems (output (report_route_table aws source_route_table source_vpc_id
                        source_ip_address dest_ip_address verbose))
    = problems (output (report_route_target aws r source_vpc_id dest_ip_address
                          verbose false))
  ∧ output (report_route_target aws r source_vpc_id dest_ip_address verbose false)
    `suffix_of` output (report_route_table aws source_route_table source_vpc_id
                          source_ip_address dest_ip_address verbose).
Proof.
  intros Hr. unfold report_route_table.
  pose proof (find_route_matches_problems (Routes source_route_table)
                dest_ip_address verbose) as Hquiet.
  rewrite (surjective_M (find_route_matches _ _ _)), Hr.
  revert Hquiet. generalize (output (find_route_matches (Routes source_route_table)
                                       dest_ip_address verbose)) as l.
  intros l Hquiet.
  remember (report_route_target aws r source_vpc_id dest_ip_address verbose false)
    as target eqn:Htarget.
  destruct verbose, r as [r'|]; cbn [when]; mred; rewrite <- ?Htarget;
    cbn [outcome output fst snd];
    (split; [done|]);
    (split; [|repeat first [apply suffix_cons_r | apply suffix_app_r]; reflexivity]);
    rewrite ?problems_cons, ?problems_app, ?problems_cons, ?Hquiet; simpl;
    by rewrite ?app_nil_r.
Qed.

Lemma report_route_table_agrees aws source_route_table source_vpc_id
    source_ip_address dest_ip_address verbose :
  flag_agrees (report_route_table aws source_route_table source_vpc_id
                 source_ip_address dest_ip_address verbose).
Proof.
  intros p Hp.
  destruct (outcome (find_route_matches (Routes source_route_table) dest_ip_address verbose))
    as [r|e] eqn:Hr.
  - destruct (report_route_table_unfold aws source_route_table source_vpc_id
                source_ip_address dest_ip_address verbose r Hr) as (Ho & Hpr & _).
    rewrite Hpr. apply report_route_target_agrees. by rewrite <- Ho.
  - exfalso. revert Hp. unfold report_route_table.
    repeat (rewrite ?outcome_bind; cbn [print pprint outcome output fst snd]).
    assert (outcome (when verbose (pprint (EvRouteTable source_route_table))) = Ok tt)
      as -> by by destruct verbose.
    fold (outcome (find_route_matches (Routes source_route_table) dest_ip_address verbose)).
    by rewrite Hr.
Qed.

(** C6 (as amended).  A resolved route that has none of the keys
    [GatewayId], [NatGatewayId] and [VpcPeeringConnectionId] is always a
    problem, reported as an unknown route type together with the route.
    A resolved route whose [GatewayId] is neither an [igw-] nor a [vgw-]
    identifier is reported too, as a gateway that is not being analyzed,
    but with a warning: the route-table check returns no problem for it. *)
Theorem unrecognized_route_target aws source_route_table source_vpc_id
    source_ip_address dest_ip_address verbose r :
  outcome (find_route_matches (Routes source_route_table) dest_ip_address verbose)
  = Ok (Some r) →
  let report := report_route_table aws source_route_table source_vpc_id
                  source_ip_address dest_ip_address verbose in
  (r !! "GatewayId" = None → r !! "NatGatewayId" = None →
   r !! "VpcPeeringConnectionId" = None →
   report_route_target aws (Some r) source_vpc_id dest_ip_address verbose false
   = ([Print "ERROR. Unknown route type:"; PPrint (EvRoute r)], Ok true)
   ∧ outcome report = Ok true
   ∧ problems (output report) = [Print "ERROR. Unknown route type:"])
  ∧ (∀ gateway_id,
       r !! "GatewayId" = Some gateway_id →
       String.prefix "igw-" gateway_id = false →
       String.prefix "vgw-" gateway_id = false →
       report_route_target aws (Some r) source_vpc_id dest_ip_address verbose false
       = ([Print ("Via gateway: " +:+ gateway_id);
           Print "WARNING. Some other type of gateway is NOT being analyzed."],
          Ok false)
       ∧ outcome report = Ok false
       ∧ problems (output report) = []
       ∧ Print "WARNING. Some other type of gateway is NOT being analyzed."
         ∈ output report).
Proof.
  intros Hr report.
  destruct (report_route_table_unfold aws source_route_table source_vpc_id
              source_ip_address dest_ip_address verbose _ Hr) as (Ho & Hp & Hs).
  fold report in Ho, Hp, Hs. split.
  - intros Hg Hn Hv.
    assert (report_route_target aws (Some r) source_vpc_id dest_ip_address verbose false
            = ([Print "ERROR. Unknown route type:"; PPrint (EvRoute r)], Ok true)) as Ht.
    { cbn [report_route_target]. rewrite Hg, Hn, Hv. by mred. }
    split; [done|]. rewrite Ho, Hp, Ht. done.
  - intros gateway_id Hg Higw Hvgw.
    assert (report_route_target aws (Some r) source_vpc_id dest_ip_address verbose false
            = ([Print ("Via gateway: " +:+ gateway_id);
                Print "WARNING. Some other type of gateway is NOT being analyzed."],
               Ok false)) as Ht.
    { cbn [report_route_target]. rewrite Hg, Higw, Hvgw. by mred. }
    split; [done|]. rewrite Ho, Hp, Ht. split; [done|]. split; [done|].
    rewrite Ht in Hs. destruct Hs as [before ->]. cbn [output fst].
    apply elem_of_app. right. apply elem_of_cons. right. apply elem_of_cons. by left.
Qed.

(** C7 (as amended).  For a route to a virtual private gateway whose
    record has one VPC attachment, the gateway is valid iff its state is
    "available" and its attachment state is "attached"; each violated
    condition prints its own problem line, and the check is a problem when
    the gateway is not valid.  Whether or not the gateway is valid, the
    check then goes on to the cross-connect virtual interfaces, which are
    all the virtual interfaces bound to the gateway's identifier, and
    their report is part of the output and of the outcome. *)
Theorem virtual_private_gateway_check aws gateway_id verbose g attachment :
  describe_vpn_gateways aws gateway_id = [g] →
  VpcAttachments g = [attachment] →
  let dc_vifs := get_dc_virtual_interface aws gateway_id verbose in
  let report := report_virtual_private_gateway aws gateway_id verbose false in
  (vpn_gateway_valid g attachment = true
   ↔ vgw_State g = "available" ∧ attachment_State attachment = "attached")
  ∧ (vgw_State g ≠ "available" →
     Print "NETWORK CONNECTIVITY ERROR. Virtual Gateway is NOT available."
     ∈ vpn_gateway_lines g attachment)
  ∧ (attachment_State attachment ≠ "attached" →
     Print "NETWORK CONNECTIVITY ERROR. Virtual Gateway is NOT attached."
     ∈ vpn_gateway_lines g attachment)
  ∧ (problems (vpn_gateway_lines g attachment) = []
     ↔ vpn_gateway_valid g attachment = true)
  ∧ (∀ i, i ∈ dc_vifs ↔ i ∈ describe_virtual_interfaces aws ∧ virtualGatewayId i = gateway_id)
  ∧ output report
    = [Print "Virtual Private Gateway:"; PPrint (EvVpnGateway g)]
      ++ vpn_gateway_lines g attachment
      ++ output (report_dc_virtual_interfaces dc_vifs verbose)
  ∧ Print "Checking Direct Connect Virtual Interfaces:" ∈ output report
  ∧ ∃ problem,
      outcome (report_dc_virtual_interfaces dc_vifs verbose) = Ok problem
      ∧ outcome report = Ok (negb (vpn_gateway_valid g attachment) || problem).
Proof.
  intros Hg Hatt dc_vifs report.
  pose proof (report_virtual_private_gateway_spec aws gateway_id verbose false
                g attachment Hg Hatt) as Hspec.
  fold dc_vifs report in Hspec.
  split.
  { unfold vpn_gateway_valid. by rewrite andb_true_iff, !String.eqb_eq. }
  split.
  { intros Hne%String.eqb_neq. unfold vpn_gateway_lines. rewrite Hne.
    apply elem_of_app. left. by apply list_elem_of_singleton. }
  split.
  { intros Hne%String.eqb_neq. unfold vpn_gateway_lines. rewrite Hne.
    apply elem_of_app. right. by apply list_elem_of_singleton. }
  split.
  { unfold vpn_gateway_lines, vpn_gateway_valid.
    destruct (String.eqb (vgw_State g) "available"),
             (String.eqb (attachment_State attachment) "attached"); by simpl. }
  split.
  { intros i. unfold dc_vifs, get_dc_virtual_interface.
    rewrite list_elem_of_filter. tauto. }
  rewrite Hspec. cbn [output outcome fst snd].
  split; [done|]. split.
  { rewrite report_dc_virtual_interfaces_spec. cbn [fst].
    apply elem_of_app. right. apply elem_of_app. right.
    apply elem_of_app. left. by apply list_elem_of_singleton. }
  rewrite report_dc_virtual_interfaces_spec. cbn [fst snd]. eexists. split; done.
Qed.

(** ** The checks agree with their output *)

Lemma find_nacl_rule_matches_output nacl_entries dest_ip_str :
  output (find_nacl_rule_matches nacl_entries dest_ip_str) = [].
Proof.
  unfold find_nacl_rule_matches. rewrite output_bind.
  destruct (ipaddress.ip_address dest_ip_str) as [a|]; [|done].
  cbn [or_raise outcome output mret M_ret fst snd app].
  generalize (@nil NaclEntry, @nil NaclEntry).
  induction nacl_entries as [|e entries IH]; intros acc; cbn [for_each]; [done|].
  rewrite output_bind.
  assert (output (find_nacl_rule_matches_body a e acc) = []) as ->.
  { destruct acc as [inbound outbound]. unfold find_nacl_rule_matches_body.
    destruct (CidrBlock e) as [c|]; mred; [|done].
    destruct (ipaddress.ip_network c) as [net|]; mred; [|done].
    by destruct (ipaddress.contains net a), (Egress e). }
  destruct (outcome (find_nacl_rule_matches_body a e acc)); [apply IH | done].
Qed.

Lemma report_nacl_agrees source_nacl source_ip_address dest_ip_address verbose :
  flag_agrees (report_nacl source_nacl source_ip_address dest_ip_address verbose).
Proof.
  unfold report_nacl.
  rewrite (surjective_M (find_nacl_rule_matches _ _)), find_nacl_rule_matches_output.
  destruct (outcome (find_nacl_rule_matches (Entries source_nacl) dest_ip_address))
    as [[inbound outbound]|e].
  - destruct inbound, outbound; (eapply flag_agrees_Ok; [mred; reflexivity|done]).
  - by eapply flag_agrees_Raise.
Qed.

Lemma report_security_groups_agrees aws ids source_ip_address dest_ip_address verbose :
  flag_agrees (report_security_groups aws ids source_ip_address dest_ip_address verbose).
Proof.
  intros p Hp.
  pose proof (report_security_groups_spec aws ids source_ip_address dest_ip_address
                verbose) as Hspec.
  destruct (outcome (get_security_groups aws ids dest_ip_address verbose))
    as [[ingress egress]|e]; [|congruence].
  destruct Hspec as [Ho ->]. rewrite Ho in Hp. injection Hp as <-.
  by destruct ingress, egress.
Qed.

Lemma get_route_table_for_subnet_problems aws vpc_id subnet_id verbose :
  problems (output (get_route_table_for_subnet aws vpc_id subnet_id verbose)) = [].
Proof.
  unfold get_route_table_for_subnet, get_main_route_table_for_vpc.
  destruct (describe_route_tables_for_subnet aws subnet_id) as [|t [|? ?]]; mred;
    try done;
    try (destruct (describe_main_route_tables aws vpc_id) as [|t' [|? ?]]; mred; try done);
    destruct verbose; cbn [when]; mred; done.
Qed.

(** The subnet-group check only warns: it returns no problem and prints
    no problem line. *)
Lemma report_db_subnet_groups_no_problem aws vpc_id subnet_id_list verbose p :
  outcome (report_db_subnet_groups aws vpc_id subnet_id_list verbose) = Ok p →
  p = false
  ∧ problems (output (report_db_subnet_groups aws vpc_id subnet_id_list verbose)) = [].
Proof.
  unfold report_db_subnet_groups, get_route_tables_for_subnets, get_nacls_for_subnets.
  rewrite outcome_bind, problems_bind.
  rewrite problems_for_each.
  2: { intros subnet_id rtables. rewrite problems_bind, get_route_table_for_subnet_problems.
       by destruct (outcome _). }
  destruct (outcome (for_each subnet_id_list _ ∅)) as [result|e]; [|done].
  destruct (0 <? size result)%nat; mred; [|done].
  destruct (1 <? size result)%nat, verbose; cbn [when]; mred;
    (destruct (0 <? length (describe_network_acls aws subnet_id_list))%nat; mred; [|done]);
    (destruct (1 <? length (describe_network_acls aws subnet_id_list))%nat; mred);
    by intros [= <-].
Qed.

(** ** main *)

(** Split a run that returned into the runs of its steps. *)
Ltac peel :=
  repeat match goal with
         | H : outcome (_ ≫= _) = Ok _ |- _ =>
             apply outcome_bind_Ok_inv in H as (? & ? & H)
         | H : outcome (let '(_, _) := ?x in _) = Ok _ |- _ => destruct x
         | H : outcome (mret _) = Ok _ |- _ => injection H as H
         end.

Lemma main_ec2_flag aws args st st' :
  outcome (main_ec2 aws args st) = Ok st' →
  network_problem_exists st' = network_problem_exists st.
Proof.
  unfold main_ec2. destruct (String.eqb (source_ec2_ip args) ""); [by intros [= <-]|].
  intros H. peel. destruct x as [source_instance|]; peel; by subst.
Qed.

Lemma main_rds_flag aws args st st' :
  outcome (main_rds aws args st) = Ok st' →
  network_problem_exists st' = network_problem_exists st.
Proof.
  unfold main_rds. destruct (String.eqb (source_rds args) ""); [by intros [= <-]|].
  intros H. peel. destruct x as [source_rds_instance|]; peel; [|by subst].
  match goal with
  | Hdb : outcome (report_db_subnet_groups _ _ _ _) = Ok _ |- _ =>
      apply report_db_subnet_groups_no_problem in Hdb as [-> _]
  end.
  subst. cbn [network_problem_exists]. by rewrite orb_false_r.
Qed.

Lemma main_dms_flag aws args st st' :
  outcome (main_dms aws args st) = Ok st' →
  network_problem_exists st' = network_problem_exists st.
Proof.
  unfold main_dms. destruct (String.eqb (source_dms args) ""); [by intros [= <-]|].
  intros H. peel. destruct x as [source_dms_instance|]; peel; [|by subst].
  match goal with
  | Hdb : outcome (report_db_subnet_groups _ _ _ _) = Ok _ |- _ =>
      apply report_db_subnet_groups_no_problem in Hdb as [-> _]
  end.
  subst. cbn [network_problem_exists]. by rewrite orb_false_r.
Qed.

(** A run of the three common checks that returns: each check ran to its
    end on arguments that do not depend on the other checks, the flag is
    the disjunction of what they returned, and nothing printed between
    them is a problem line. *)
Lemma main_checks_spec aws args st flag :
  outcome (main_checks aws args st) = Ok flag →
  ∃ src source_route_table source_nacl p_sg p_rt p_nacl pre mid1 mid2,
    source st = Some src
    ∧ outcome (get_route_table_for_subnet aws (source_vpc_id src) (source_subnet_id src)
                 (verbose args)) = Ok source_route_table
    ∧ describe_network_acls aws [source_subnet_id src] = [source_nacl]
    ∧ outcome (report_security_groups aws (source_security_group_ids st)
                 (source_ip_address src) (dest_ip args) (verbose args)) = Ok p_sg
    ∧ outcome (report_route_table aws source_route_table (source_vpc_id src)
                 (source_ip_address src) (dest_ip args) (verbose args)) = Ok p_rt
    ∧ outcome (report_nacl source_nacl (source_ip_address src) (dest_ip args)
                 (verbose args)) = Ok p_nacl
    ∧ flag = network_problem_exists st || p_sg || p_rt || p_nacl
    ∧ output (main_checks aws args st)
      = pre
        ++ output (report_security_groups aws (source_security_group_ids st)
                     (source_ip_address src) (dest_ip args) (verbose args))
        ++ mid1
        ++ output (report_route_table aws source_route_table (source_vpc_id src)
                     (source_ip_address src) (dest_ip args) (verbose args))
        ++ mid2
        ++ output (report_nacl source_nacl (source_ip_address src) (dest_ip args)
                     (verbose args))
    ∧ problems pre = [] ∧ problems mid1 = [] ∧ problems mid2 = [].
Proof.
  unfold main_checks. destruct (source st) as [src|]; [|done]. mred.
  pose proof (get_route_table_for_subnet_problems aws (source_vpc_id src)
                (source_subnet_id src) (verbose args)) as Hquiet.
  destruct (report_security_groups aws _ _ _ _) as [l_sg [p_sg|e]] eqn:Hsg; mred; [|done].
  destruct (get_route_table_for_subnet aws _ _ _) as [l_f [rt|e]] eqn:Hf; mred; [|done].
  destruct (report_route_table aws rt _ _ _ _) as [l_rt [p_rt|e]] eqn:Hrt; mred; [|done].
  unfold get_nacls_for_subnets.
  destruct (describe_network_acls aws [source_subnet_id src]) as [|nacl [|? ?]] eqn:Hn;
    destruct (verbose args) eqn:Hv; cbn [when]; mred; try done;
    (destruct (report_nacl nacl _ _ _) as [l_n [p_n|e]] eqn:Hnacl; mred; [|done]);
    intros [= <-];
    exists src, rt, nacl, p_sg, p_rt, p_n.
  - exists [Print ("Source IP Address: " +:+ source_ip_address src);
            Print ("Name: " +:+ source_name src);
            Print ("DNS Name:" +:+ source_dns_name src);
            Print ("SubnetId: " +:+ source_subnet_id src);
            Print ("VpcId: " +:+ source_vpc_id src);
            Print "Security Groups: ";
            PPrint (EvGroupIds (source_security_groups src))],
           l_f, [PPrint (EvNetworkAcls [nacl]); PPrint (EvNetworkAcl nacl)].
    rewrite Hsg, Hf, Hrt, Hnacl. cbn [outcome output fst snd].
    repeat split; try done. by rewrite ?app_nil_r.
  - exists [Print ("Source IP Address: " +:+ source_ip_address src);
            Print ("Name: " +:+ source_name src);
            Print ("DNS Name:" +:+ source_dns_name src);
            Print ("SubnetId: " +:+ source_subnet_id src);
            Print ("VpcId: " +:+ source_vpc_id src);
            Print "Security Groups: ";
            PPrint (EvGroupIds (source_security_groups src))],
           l_f, [].
    rewrite Hsg, Hf, Hrt, Hnacl. cbn [outcome output fst snd].
    repeat split; try done. by rewrite ?app_nil_r.
Qed.

(** A run of [main] that returns: the three source blocks and the
    common checks returned, in that order, between the header and the
    summary. *)
Lemma main_spec aws args flag :
  outcome (main aws args) = Ok flag →
  ∃ l1 st1 l2 st2 l3 st l_c hdr,
    main_ec2 aws args (mkLocals None [] false) = (l1, Ok st1)
    ∧ main_rds aws args st1 = (l2, Ok st2)
    ∧ main_dms aws args st2 = (l3, Ok st)
    ∧ main_checks aws args st = (l_c, Ok flag)
    ∧ output (main aws args)
      = hdr ++ l1 ++ l2 ++ l3 ++ l_c
        ++ [Print "============================================================";
            Print "Summary: ";
            Print (if flag
                   then "ERROR. Some network connectivity problem exists. Review output of this tool."
                   else "OK. No obvious network connectivity problem exists from the perspective of the source.");
            Print "============================================================"].
Proof.
  unfold main. mred.
  destruct (main_ec2 aws args _) as [l1 [st1|e]] eqn:H1; mred; [|done].
  destruct (main_rds aws args st1) as [l2 [st2|e]] eqn:H2; mred; [|done].
  destruct (main_dms aws args st2) as [l3 [st|e]] eqn:H3; mred; [|done].
  destruct (main_checks aws args st) as [l_c [f|e]] eqn:Hc; mred; [|done].
  destruct f; mred; intros [= <-];
    exists l1, st1, l2, st2, l3, st, l_c;
    eexists [_; _; _; _; _; _; _; _; _];
    (repeat split; try done); cbn [output fst app]; by rewrite <- ?app_assoc.
Qed.

(** A run of [main] that returns, in terms of the checks it made. *)
Lemma main_returned_spec aws args flag :
  outcome (main aws args) = Ok flag →
  ∃ st src source_route_table source_nacl p_sg p_rt p_nacl pre mid1 mid2 post,
      let sg_check :=
        report_security_groups aws (source_security_group_ids st)
          (source_ip_address src) (dest_ip args) (verbose args) in
      let rt_check :=
        report_route_table aws source_route_table (source_vpc_id src)
          (source_ip_address src) (dest_ip args) (verbose args) in
      let nacl_check :=
        report_nacl source_nacl (source_ip_address src) (dest_ip args) (verbose args) in
      outcome ((main_ec2 aws args (mkLocals None [] false) ≫= main_rds aws args)
               ≫= main_dms aws args) = Ok st
      ∧ network_problem_exists st = false
      ∧ source st = Some src
      ∧ outcome (get_route_table_for_subnet aws (source_vpc_id src)
                   (source_subnet_id src) (verbose args)) = Ok source_route_table
      ∧ describe_network_acls aws [source_subnet_id src] = [source_nacl]
      ∧ outcome sg_check = Ok p_sg
      ∧ outcome rt_check = Ok p_rt
      ∧ outcome nacl_check = Ok p_nacl
      ∧ flag = p_sg || p_rt || p_nacl
      ∧ (flag = true
         ↔ problems (output sg_check) ++ problems (output rt_check)
           ++ problems (output nacl_check) ≠ [])
      ∧ output (main aws args)
        = pre ++ output sg_check ++ mid1 ++ output rt_check ++ mid2
          ++ output nacl_check ++ post
      ∧ problems mid1 = [] ∧ problems mid2 = []
      ∧ Print (if flag
               then "ERROR. Some network connectivity problem exists. Review output of this tool."
               else "OK. No obvious network connectivity problem exists from the perspective of the source.")
        ∈ post.
Proof.
  intros Hmain.
  destruct (main_spec aws args flag Hmain)
    as (l1 & st1 & l2 & st2 & l3 & st & l_c & hdr & H1 & H2 & H3 & Hc & Hmain_out).
  assert (network_problem_exists st = false) as Hst.
  { rewrite (main_dms_flag aws args st2 st) by by rewrite H3.
    rewrite (main_rds_flag aws args st1 st2) by by rewrite H2.
    by rewrite (main_ec2_flag aws args _ st1) by by rewrite H1. }
  destruct (main_checks_spec aws args st flag) as
    (src & rt & nacl & p_sg & p_rt & p_nacl & pre & mid1 & mid2
     & Hsrc & Hrt & Hnacl & Hsg & Hrtc & Hnc & Hf & Hout & _ & Hm1 & Hm2);
    [by rewrite Hc|].
  rewrite Hc in Hout. cbn [output fst] in Hout. rewrite Hst in Hf. cbn [orb] in Hf.
  eexists st, src, rt, nacl, p_sg, p_rt, p_nacl, (hdr ++ l1 ++ l2 ++ l3 ++ pre),
          mid1, mid2, _.
  cbn zeta. repeat split; try done.
  - rewrite H1. mred. rewrite H2. mred. by rewrite H3.
  - intros ->.
    pose proof (report_security_groups_agrees aws _ _ _ _ _ Hsg) as [Hsg' _].
    pose proof (report_route_table_agrees aws _ _ _ _ _ _ Hrtc) as [Hrt' _].
    pose proof (report_nacl_agrees _ _ _ _ _ Hnc) as [Hn' _].
    symmetry in Hf.
    apply orb_true_iff in Hf as [[->| ->]%orb_true_iff| ->];
      intros Hnil; repeat apply app_eq_nil in Hnil as [? Hnil];
      first [by apply Hsg' | by apply Hrt' | by apply Hn'].
  - intros Hne.
    pose proof (report_security_groups_agrees aws _ _ _ _ _ Hsg) as [_ Hsg'].
    pose proof (report_route_table_agrees aws _ _ _ _ _ _ Hrtc) as [_ Hrt'].
    pose proof (report_nacl_agrees _ _ _ _ _ Hnc) as [_ Hn'].
    rewrite Hf.
    destruct (problems (output (report_security_groups aws _ _ _ _))); [|by rewrite Hsg'].
    destruct (problems (output (report_route_table aws rt _ _ _ _)));
      [|by rewrite Hrt', orb_true_r].
    destruct (problems (output (report_nacl nacl _ _ _))); [done|].
    by rewrite Hn', !orb_true_r.
  - rewrite Hmain_out, Hout. rewrite <- !app_assoc. reflexivity.
  - apply elem_of_cons. right. apply elem_of_cons. right. apply elem_of_cons. by left.
Qed.

(** The converse for the common checks: when the three checks return on
    the resolved source, whatever flags they return, [main_checks]
    returns, with the disjunction of the flags. *)
Lemma main_checks_returns aws args st src source_route_table source_nacl p_sg p_rt p_nacl :
  source st = Some src →
  outcome (get_route_table_for_subnet aws (source_vpc_id src) (source_subnet_id src)
             (verbose args)) = Ok source_route_table →
  describe_network_acls aws [source_subnet_id src] = [source_nacl] →
  outcome (report_security_groups aws (source_security_group_ids st)
             (source_ip_address src) (dest_ip args) (verbose args)) = Ok p_sg →
  outcome (report_route_table aws source_route_table (source_vpc_id src)
             (source_ip_address src) (dest_ip args) (verbose args)) = Ok p_rt →
  outcome (report_nacl source_nacl (source_ip_address src) (dest_ip args)
             (verbose args)) = Ok p_nacl →
  outcome (main_checks aws args st)
  = Ok (network_problem_exists st || p_sg || p_rt || p_nacl).
Proof.
  intros Hsrc Hf Hn Hsg Hrt Hnacl. unfold main_checks. rewrite Hsrc. mred.
  rewrite (surjective_M (report_security_groups aws _ _ _ _)), Hsg. mred.
  rewrite (surjective_M (get_route_table_for_subnet aws _ _ _)), Hf. mred.
  rewrite (surjective_M (report_route_table aws _ _ _ _ _)), Hrt. mred.
  unfold get_nacls_for_subnets. rewrite Hn.
  destruct (verbose args) eqn:Hv; cbn [when]; mred;
    rewrite (surjective_M (report_nacl _ _ _ _)), Hnacl; by mred.
Qed.

(** The converse for [main]: when the source blocks and the common checks
    return, [main] returns the flag of the common checks. *)
Lemma main_returns aws args st flag :
  outcome ((main_ec2 aws args (mkLocals None [] false) ≫= main_rds aws args)
           ≫= main_dms aws args) = Ok st →
  outcome (main_checks aws args st) = Ok flag →
  outcome (main aws args) = Ok flag.
Proof.
  unfold main. mred.
  destruct (main_ec2 aws args _) as [l1 [st1|e]]; mred; [|done].
  destruct (main_rds aws args st1) as [l2 [st2|e]]; mred; [|done].
  destruct (main_dms aws args st2) as [l3 [st'|e]]; mred; [|done].
  intros [= ->] Hc.
  rewrite (surjective_M (main_checks aws args st)), Hc. mred.
  destruct flag; by mred.
Qed.

(** C3. The overall outcome is the disjunction of the component outcomes.
    In every run of [main] that completes, the security-group, route-table
    and NACL checks each ran to their end, one after the other; the final
    flag is the disjunction of the three flags they returned, and it is
    true iff one of them printed a problem line.  Conversely, once the
    source is resolved, if the three checks return then [main] completes
    with the disjunction of their flags, whatever these flags are: a
    problem found by one check does not keep the later checks from running
    nor the run from completing.  The subnet-group check takes no part in
    the flag: it never returns a problem nor prints a problem line. *)
Theorem overall_outcome aws args :
  (∀ vpc_id subnet_id_list verbose p,
     outcome (report_db_subnet_groups aws vpc_id subnet_id_list verbose) = Ok p →
     p = false
     ∧ problems (output (report_db_subnet_groups aws vpc_id subnet_id_list verbose)) = [])
  ∧ (∀ flag,
       outcome (main aws args) = Ok flag →
       ∃ st src source_route_table source_nacl p_sg p_rt p_nacl pre mid1 mid2 post,
         let sg_check :=
           report_security_groups aws (source_security_group_ids st)
             (source_ip_address src) (dest_ip args) (verbose args) in
         let rt_check :=
           report_route_table aws source_route_table (source_vpc_id src)
             (source_ip_address src) (dest_ip args) (verbose args) in
         let nacl_check :=
           report_nacl source_nacl (source_ip_address src) (dest_ip args) (verbose args) in
         outcome ((main_ec2 aws args (mkLocals None [] false) ≫= main_rds aws args)
                  ≫= main_dms aws args) = Ok st
         ∧ network_problem_exists st = false
         ∧ source st = Some src
         ∧ outcome (get_route_table_for_subnet aws (source_vpc_id src)
                      (source_subnet_id src) (verbose args)) = Ok source_route_table
         ∧ describe_network_acls aws [source_subnet_id src] = [source_nacl]
         ∧ outcome sg_check = Ok p_sg
         ∧ outcome rt_check = Ok p_rt
         ∧ outcome nacl_check = Ok p_nacl
         ∧ flag = p_sg || p_rt || p_nacl
         ∧ (flag = true
            ↔ problems (output sg_check) ++ problems (output rt_check)
              ++ problems (output nacl_check) ≠ [])
         ∧ output (main aws args)
           = pre ++ output sg_check ++ mid1 ++ output rt_check ++ mid2
             ++ output nacl_check ++ post
         ∧ problems mid1 = [] ∧ problems mid2 = []
         ∧ Print (if flag
                  then "ERROR. Some network connectivity problem exists. Review output of this tool."
                  else "OK. No obvious network connectivity problem exists from the perspective of the source.")
           ∈ post)
  ∧ (∀ st src source_route_table source_nacl p_sg p_rt p_nacl,
       outcome ((main_ec2 aws args (mkLocals None [] false) ≫= main_rds aws args)
                ≫= main_dms aws args) = Ok st →
       source st = Some src →
       outcome (get_route_table_for_subnet aws (source_vpc_id src)
                  (source_subnet_id src) (verbose args)) = Ok source_route_table →
       describe_network_acls aws [source_subnet_id src] = [source_nacl] →
       outcome (report_security_groups aws (source_security_group_ids st)
                  (source_ip_address src) (dest_ip args) (verbose args)) = Ok p_sg →
       outcome (report_route_table aws source_route_table (source_vpc_id src)
                  (source_ip_address src) (dest_ip args) (verbose args)) = Ok p_rt →
       outcome (report_nacl source_nacl (source_ip_address src) (dest_ip args)
                  (verbose args)) = Ok p_nacl →
       outcome (main_checks aws args st)
       = Ok (network_problem_exists st || p_sg || p_rt || p_nacl)
       ∧ outcome (main aws args) = Ok (p_sg || p_rt || p_nacl)).
Proof.
  split; [intros *; apply report_db_subnet_groups_no_problem|].
  split; [intros flag; apply main_returned_spec|].
  intros st src rt nacl p_sg p_rt p_nacl Hblocks Hsrc Hf Hn Hsg Hrt Hnacl.
  pose proof (main_checks_returns aws args st src rt nacl p_sg p_rt p_nacl
                Hsrc Hf Hn Hsg Hrt Hnacl) as Hchecks.
  split; [exact Hchecks|].
  assert (network_problem_exists st = false) as Hst.
  { revert Hblocks. rewrite !outcome_bind.
    destruct (outcome (main_ec2 aws args _)) as [st1|e] eqn:H1; [|done].
    destruct (outcome (main_rds aws args st1)) as [st2|e] eqn:H2; [|done].
    intros H3.
    rewrite (main_dms_flag aws args st2 st H3), (main_rds_flag aws args st1 st2 H2).
    by rewrite (main_ec2_flag aws args _ st1 H1). }
  rewrite Hst in Hchecks. cbn [orb] in Hchecks.
  by apply (main_returns aws args st).
Qed.

(** ** CIDR containment *)

Lemma route_matches_ALL_IPV4 a (r : Route) :
  r !! "DestinationCidrBlock" = Some ALL_IPV4 → route_matches a r = true.
Proof.
  intros Hr. unfold route_matches, route_cidr. rewrite Hr. simpl.
  change (ipaddress.ip_network ALL_IPV4) with (Some (ipaddress.mkNetwork 0 0)).
  apply contains_all.
Qed.

Lemma nacl_entry_relevant_ALL_IPV4 a e :
  CidrBlock e = Some ALL_IPV4 → nacl_entry_relevant a e = true.
Proof.
  intros He. unfold nacl_entry_relevant. rewrite He. simpl.
  change (ipaddress.ip_network ALL_IPV4) with (Some (ipaddress.mkNetwork 0 0)).
  apply contains_all.
Qed.

Lemma permission_matches_ALL_IPV4 a p r :
  r ∈ IpRanges p → CidrIp r = ALL_IPV4 → permission_matches a p = true.
Proof.
  intros Hr Hc. apply permission_matches_iff. left. exists r. split; [done|].
  unfold ip_range_contains. by rewrite Hc.
Qed.

(** C2. CIDR containment has mask semantics.  A CIDR block that parses
    has a prefix length in [0,32], its netmask keeps the leading
    prefix-length bits, and it contains an address iff the address masked
    equals the network address masked the same way.  The match-all CIDR
    0.0.0.0/0 contains every address; so a route with that destination
    always resolves, a NACL entry with that block is always relevant, and
    a permission with that range always matches. *)
Theorem cidr_containment c net a dest_ip_str :
  ipaddress.ip_network c = Some net →
  ipaddress.ip_address dest_ip_str = Some a →
  (0 ≤ ipaddress.prefixlen net ≤ 32
   ∧ ipaddress.netmask net = 2 ^ 32 - 2 ^ (32 - ipaddress.prefixlen net)
   ∧ (ipaddress.contains net a = true
      ↔ Z.land a (ipaddress.netmask net)
        = Z.land (ipaddress.network_address net) (ipaddress.netmask net)))
  ∧ (ipaddress.ip_network ALL_IPV4 = Some (ipaddress.mkNetwork 0 0)
     ∧ ∀ a', ipaddress.contains (ipaddress.mkNetwork 0 0) a' = true)
  ∧ (∀ routes verbose (r : Route),
       routes_well_formed routes = true →
       r ∈ routes → r !! "DestinationCidrBlock" = Some ALL_IPV4 →
       route_matches a r = true
       ∧ ∃ r', outcome (find_route_matches routes dest_ip_str verbose) = Ok (Some r'))
  ∧ (∀ entries e,
       nacl_entries_well_formed entries = true →
       e ∈ entries → CidrBlock e = Some ALL_IPV4 →
       ∃ inbound outbound,
         outcome (find_nacl_rule_matches entries dest_ip_str) = Ok (inbound, outbound)
         ∧ (e ∈ inbound ∨ e ∈ outbound))
  ∧ (∀ permissions p r,
       permissions_well_formed permissions = true →
       p ∈ permissions → r ∈ IpRanges p → CidrIp r = ALL_IPV4 →
       ∃ res,
         outcome (find_security_group_matches permissions dest_ip_str) = Ok res
         ∧ p ∈ res).
Proof.
  intros Hnet Ha. split; [|split; [|split; [|split]]].
  - pose proof (ip_network_canonical _ _ Hnet) as [Hp _].
    split; [done|]. split; [by apply netmask_of_spec|]. by eapply contains_mask.
  - split; [reflexivity | apply contains_all].
  - intros routes verbose r Hwf Hin Hr.
    pose proof (route_matches_ALL_IPV4 a r Hr) as Hm. split; [done|].
    unfold find_route_matches. rewrite outcome_bind, Ha. simpl. rewrite outcome_bind.
    destruct (find_route_matches_loop a verbose routes Hwf None)
      as (best & -> & [[-> Hall]|(i & r2 & net2 & _ & -> & _)]); simpl; [|eauto].
    specialize (Hall r Hin Hm). apply route_matches_prefixlen in Hm.
    unfold best_prefixlen in Hall. simpl in Hall. lia.
  - intros entries e Hwf Hin He. do 2 eexists.
    rewrite (find_nacl_rule_matches_spec _ _ _ Ha Hwf). split; [done|].
    pose proof (nacl_entry_relevant_ALL_IPV4 a e He) as Hrel.
    rewrite !list_elem_of_In, !List.filter_In, <- !list_elem_of_In, Hrel.
    destruct (Egress e); simpl; tauto.
  - intros permissions p r Hwf Hin Hr Hc. eexists.
    rewrite (find_security_group_matches_spec _ _ _ Ha Hwf). split; [done|].
    rewrite list_elem_of_In, List.filter_In, <- list_elem_of_In.
    split; [done|]. by eapply permission_matches_ALL_IPV4.
Qed.

(** * The properties at sample inputs *)

(** Longest-prefix-match of the specification: of the /8 and the /16
    route, 10.1.2.3 resolves to the /16 one, wherever it stands. *)
Example resolve_longest_prefix :
  find_route_matches [Sample.route_vgw; Sample.route_local] "10.1.2.3" false
  = ([], Ok (Some Sample.route_local))
  ∧ find_route_matches [Sample.route_local; Sample.route_vgw] "10.1.2.3" false
    = ([], Ok (Some Sample.route_local)).
Proof. split; vm_compute; reflexivity. Qed.

(** Of two routes with the same prefix length the first one wins. *)
Example resolve_tie_first :
  outcome (find_route_matches [Sample.route_local; Sample.route_nat] "10.1.2.3" false)
  = Ok (Some Sample.route_local)
  ∧ outcome (find_route_matches [Sample.route_nat; Sample.route_local] "10.1.2.3" false)
    = Ok (Some Sample.route_nat).
Proof. split; vm_compute; reflexivity. Qed.

Example resolve_no_route :
  outcome (find_route_matches [Sample.route_vgw; Sample.route_local; Sample.route_ipv6]
             "8.8.8.8" false) = Ok None.
Proof. vm_compute. reflexivity. Qed.

Example nacl_two_problems :
  problems (output (report_nacl Sample.nacl_narrow "10.0.0.7" "192.168.1.1" false))
  = [Print "NETWORK CONNECTIVITY ERROR. No relevant inbound rules for NACL.";
     Print "NETWORK CONNECTIVITY ERROR. No relevant outbound rules for NACL."].
Proof. vm_compute. reflexivity. Qed.

Example permissions_sample :
  find_security_group_matches
    [Sample.perm_narrow; Sample.perm_twice; Sample.perm_all; Sample.perm_peer] "10.1.2.3"
  = ([Print "WARNING. Ignoring IPv6 rules in Security Group.";
      Print "WARNING. Ignoring Perfix List rules in Security Group."],
     Ok [Sample.perm_twice; Sample.perm_all; Sample.perm_peer]).
Proof. vm_compute. reflexivity. Qed.

Example virtual_interfaces_sample :
  report_dc_virtual_interfaces [Sample.vif_down; Sample.vif_ok] false
  = ([Print "Checking Direct Connect Virtual Interfaces:";
      Print "NETWORK CONNECTIVITY ERROR. DC Virtual Interface is not in 'available' state:";
      PPrint (EvVirtualInterface Sample.vif_down);
      Print "DC Virtual Interface BGP peer dxpeer-2 appears OK.";
      Print "DC Virtual Interface BGP peer dxpeer-1 appears OK.";
      Print "DC Virtual Interface primary (dxvif-1) appears OK."],
     Ok true).
Proof. vm_compute. reflexivity. Qed.

Example run_without_problem :
  outcome (main Sample.world (Sample.args "8.8.8.8")) = Ok false
  ∧ problems (output (main Sample.world (Sample.args "8.8.8.8"))) = [].
Proof. split; vm_compute; reflexivity. Qed.

Example run_with_problems :
  outcome (main Sample.world (Sample.args "10.2.3.4")) = Ok true
  ∧ problems (output (main Sample.world (Sample.args "10.2.3.4")))
    = [Print "NETWORK CONNECTIVITY ERROR. Virtual Gateway is NOT available.";
       Print "NETWORK CONNECTIVITY ERROR. DC Virtual Interface is not in 'available' state:";
       Print "ERROR. Some network connectivity problem exists. Review output of this tool."].
Proof. split; vm_compute; reflexivity. Qed.

(** * The theorems applied to the sample snapshot *)

Lemma find_route_matches_longest_prefix_witness :
  ipaddress.ip_address "10.1.2.3" = Some 167838211
  ∧ routes_well_formed [Sample.route_vgw; Sample.route_ipv6; Sample.route_local] = true
  ∧ ∃ res,
      outcome (find_route_matches [Sample.route_vgw; Sample.route_ipv6; Sample.route_local]
                 "10.1.2.3" false) = Ok res
      ∧ (res = None ↔
         ∀ r, r ∈ [Sample.route_vgw; Sample.route_ipv6; Sample.route_local] →
              route_matches 167838211 r = false).
Proof.
  split; [reflexivity|]. split; [reflexivity|].
  destruct (find_route_matches_longest_prefix
              [Sample.route_vgw; Sample.route_ipv6; Sample.route_local]
              "10.1.2.3" false 167838211 eq_refl eq_refl) as (res & Hres & Hnone & _).
  exists res. split; assumption.
Defined.

Lemma cidr_containment_witness :
  ipaddress.ip_network "10.1.0.0/16" = Some (ipaddress.mkNetwork 167837696 16)
  ∧ ipaddress.ip_address "10.1.2.3" = Some 167838211
  ∧ (ipaddress.contains (ipaddress.mkNetwork 167837696 16) 167838211 = true
     ↔ Z.land 167838211 (ipaddress.netmask (ipaddress.mkNetwork 167837696 16))
       = Z.land 167837696 (ipaddress.netmask (ipaddress.mkNetwork 167837696 16))).
Proof.
  split; [reflexivity|]. split; [reflexivity|].
  exact (proj2 (proj2 (proj1 (cidr_containment "10.1.0.0/16"
                                (ipaddress.mkNetwork 167837696 16) 167838211 "10.1.2.3"
                                eq_refl eq_refl)))).
Defined.

Lemma overall_outcome_witness :
  outcome (main Sample.world (Sample.args "10.2.3.4")) = Ok true
  ∧ (∃ st src, outcome ((main_ec2 Sample.world (Sample.args "10.2.3.4")
                           (mkLocals None [] false)
                         ≫= main_rds Sample.world (Sample.args "10.2.3.4"))
                        ≫= main_dms Sample.world (Sample.args "10.2.3.4")) = Ok st
               ∧ source st = Some src)
  ∧ outcome ((main_ec2 SampleDenied.world (Sample.args "10.2.3.4") (mkLocals None [] false)
              ≫= main_rds SampleDenied.world (Sample.args "10.2.3.4"))
             ≫= main_dms SampleDenied.world (Sample.args "10.2.3.4"))
    = Ok SampleDenied.locals
  ∧ outcome (report_security_groups SampleDenied.world ["sg-1"] "10.1.2.5" "10.2.3.4" false)
    = Ok true
  ∧ outcome (report_route_table SampleDenied.world Sample.route_table "vpc-1"
               "10.1.2.5" "10.2.3.4" false) = Ok true
  ∧ outcome (report_nacl Sample.nacl "10.1.2.5" "10.2.3.4" false) = Ok false
  ∧ outcome (main SampleDenied.world (Sample.args "10.2.3.4")) = Ok (true || true || false).
Proof.
  assert (outcome (main Sample.world (Sample.args "10.2.3.4")) = Ok true) as Hrun
    by (vm_compute; reflexivity).
  assert (outcome ((main_ec2 SampleDenied.world (Sample.args "10.2.3.4")
                      (mkLocals None [] false)
                    ≫= main_rds SampleDenied.world (Sample.args "10.2.3.4"))
                   ≫= main_dms SampleDenied.world (Sample.args "10.2.3.4"))
          = Ok SampleDenied.locals) as Hblocks by (vm_compute; reflexivity).
  assert (outcome (report_security_groups SampleDenied.world ["sg-1"] "10.1.2.5"
                     "10.2.3.4" false) = Ok true) as Hsg by (vm_compute; reflexivity).
  assert (outcome (report_route_table SampleDenied.world Sample.route_table "vpc-1"
                     "10.1.2.5" "10.2.3.4" false) = Ok true) as Hrt
    by (vm_compute; reflexivity).
  assert (outcome (report_nacl Sample.nacl "10.1.2.5" "10.2.3.4" false) = Ok false)
    as Hnacl by (vm_compute; reflexivity).
  split; [exact Hrun|]. split.
  { destruct (proj1 (proj2 (overall_outcome Sample.world (Sample.args "10.2.3.4")))
                true Hrun)
      as (st & src & rt & nacl & p_sg & p_rt & p_nacl & pre & mid1 & mid2 & post & H).
    cbn zeta in H. destruct H as (Hst & _ & Hsrc & _).
    exists st, src. split; assumption. }
  split; [exact Hblocks|]. split; [exact Hsg|]. split; [exact Hrt|].
  split; [exact Hnacl|].
  exact (proj2 (proj2 (proj2 (overall_outcome SampleDenied.world (Sample.args "10.2.3.4")))
                  SampleDenied.locals SampleDenied.source Sample.route_table Sample.nacl
                  true true false Hblocks eq_refl eq_refl eq_refl Hsg Hrt Hnacl)).
Defined.

Lemma security_group_matching_witness :
  ipaddress.ip_address "10.1.2.3" = Some 167838211
  ∧ permissions_well_formed [Sample.perm_narrow; Sample.perm_twice; Sample.perm_peer] = true
  ∧ length (describe_security_groups Sample.world ["sg-1"]) = length ["sg-1"]
  ∧ security_groups_well_formed (describe_security_groups Sample.world ["sg-1"]) = true
  ∧ ∃ res,
      outcome (find_security_group_matches
                 [Sample.perm_narrow; Sample.perm_twice; Sample.perm_peer] "10.1.2.3")
      = Ok res
      ∧ res = List.filter (permission_matches 167838211)
                [Sample.perm_narrow; Sample.perm_twice; Sample.perm_peer].
Proof.
  split; [reflexivity|]. split; [reflexivity|]. split; [reflexivity|].
  split; [reflexivity|].
  destruct (security_group_matching Sample.world ["sg-1"] "10.1.2.5" "10.1.2.3" false
              [Sample.perm_narrow; Sample.perm_twice; Sample.perm_peer] 167838211
              eq_refl eq_refl eq_refl eq_refl) as [(res & Hres & Heq & _) _].
  exists res. split; assumption.
Defined.

Lemma nacl_evaluation_witness :
  ipaddress.ip_address "192.168.1.1" = Some 3232235777
  ∧ nacl_entries_well_formed (Entries Sample.nacl_narrow) = true
  ∧ outcome (find_nacl_rule_matches (Entries Sample.nacl_narrow) "192.168.1.1")
    = Ok (List.filter (λ e, nacl_entry_relevant 3232235777 e && negb (Egress e))
            (Entries Sample.nacl_narrow),
          List.filter (λ e, nacl_entry_relevant 3232235777 e && Egress e)
            (Entries Sample.nacl_narrow)).
Proof.
  split; [reflexivity|]. split; [reflexivity|].
  exact (proj1 (nacl_evaluation Sample.nacl_narrow "10.0.0.7" "192.168.1.1" false
                  3232235777 eq_refl eq_refl)).
Defined.

(** The route to 10.1.3.4 is the [local] one, a gateway of a type that
    is not analyzed: the route-table check warns and returns no problem. *)
Lemma unanalyzed_gateway_is_no_problem :
  let report := report_route_table Sample.world Sample.route_table "vpc-1"
                  "10.1.2.5" "10.1.3.4" false in
  outcome (find_route_matches (Routes Sample.route_table) "10.1.3.4" false)
  = Ok (Some Sample.route_local)
  ∧ Sample.route_local !! "GatewayId" = Some "local"
  ∧ outcome report = Ok false
  ∧ outcome report ≠ Ok true
  ∧ problems (output report) = []
  ∧ List.filter is_warning (output report)
    = [Print "WARNING. Some other type of gateway is NOT being analyzed."].
Proof.
  cbn zeta.
  assert (outcome (report_route_table Sample.world Sample.route_table "vpc-1"
                     "10.1.2.5" "10.1.3.4" false) = Ok false) as Hrun
    by (vm_compute; reflexivity).
  repeat split; try (vm_compute; reflexivity).
  rewrite Hrun. discriminate.
Qed.

Lemma unrecognized_route_target_witness :
  let report := report_route_table Sample.world Sample.route_table "vpc-1"
                  "10.1.2.5" "192.168.3.4" false in
  outcome (find_route_matches (Routes Sample.route_table) "192.168.3.4" false)
  = Ok (Some Sample.route_tgw)
  ∧ Sample.route_tgw !! "GatewayId" = None
  ∧ Sample.route_tgw !! "NatGatewayId" = None
  ∧ Sample.route_tgw !! "VpcPeeringConnectionId" = None
  ∧ (outcome report = Ok true
     ∧ problems (output report) = [Print "ERROR. Unknown route type:"])
  ∧ outcome (find_route_matches (Routes Sample.route_table) "10.1.3.4" false)
    = Ok (Some Sample.route_local)
  ∧ Sample.route_local !! "GatewayId" = Some "local"
  ∧ String.prefix "igw-" "local" = false
  ∧ String.prefix "vgw-" "local" = false
  ∧ outcome (report_route_table Sample.world Sample.route_table "vpc-1"
               "10.1.2.5" "10.1.3.4" false) = Ok false.
Proof.
  cbn zeta.
  assert (outcome (find_route_matches (Routes Sample.route_table) "192.168.3.4" false)
          = Ok (Some Sample.route_tgw)) as Hr by (vm_compute; reflexivity).
  assert (outcome (find_route_matches (Routes Sample.route_table) "10.1.3.4" false)
          = Ok (Some Sample.route_local)) as Hr' by (vm_compute; reflexivity).
  split; [exact Hr|]. split; [reflexivity|]. split; [reflexivity|].
  split; [reflexivity|].
  split.
  { exact (proj2 (proj1 (unrecognized_route_target Sample.world Sample.route_table
                           "vpc-1" "10.1.2.5" "192.168.3.4" false Sample.route_tgw Hr)
                    eq_refl eq_refl eq_refl)). }
  split; [exact Hr'|]. split; [reflexivity|]. split; [reflexivity|].
  split; [reflexivity|].
  exact (proj1 (proj2 (proj2 (unrecognized_route_target Sample.world Sample.route_table
                                "vpc-1" "10.1.2.5" "10.1.3.4" false Sample.route_local Hr')
                         "local" eq_refl eq_refl eq_refl))).
Defined.

(** The gateway of the route to 10.2.3.4 is pending, hence not valid, and
    the cross-connect virtual interfaces are checked all the same. *)
Lemma cross_connect_checked_when_invalid :
  let report := report_route_table Sample.world Sample.route_table "vpc-1"
                  "10.1.2.5" "10.2.3.4" false in
  outcome (find_route_matches (Routes Sample.route_table) "10.2.3.4" false)
  = Ok (Some Sample.route_vgw)
  ∧ describe_vpn_gateways Sample.world "vgw-1" = [Sample.vgw_pending]
  ∧ vpn_gateway_valid Sample.vgw_pending (mkAttachment "attached") = false
  ∧ List.filter (λ o, match o with
                      | Print s => String.eqb s "Checking Direct Connect Virtual Interfaces:"
                      | _ => false
                      end) (output report)
    = [Print "Checking Direct Connect Virtual Interfaces:"]
  ∧ problems (output report)
    = [Print "NETWORK CONNECTIVITY ERROR. Virtual Gateway is NOT available.";
       Print "NETWORK CONNECTIVITY ERROR. DC Virtual Interface is not in 'available' state:"].
Proof. cbn zeta. repeat split; vm_compute; reflexivity. Qed.

Lemma virtual_private_gateway_check_witness :
  describe_vpn_gateways Sample.world "vgw-1" = [Sample.vgw_pending]
  ∧ VpcAttachments Sample.vgw_pending = [mkAttachment "attached"]
  ∧ (vpn_gateway_valid Sample.vgw_pending (mkAttachment "attached") = true
     ↔ vgw_State Sample.vgw_pending = "available"
       ∧ attachment_State (mkAttachment "attached") = "attached")
  ∧ Print "Checking Direct Connect Virtual Interfaces:"
    ∈ output (report_virtual_private_gateway Sample.world "vgw-1" false false).
Proof.
  split; [reflexivity|]. split; [reflexivity|].
  pose proof (virtual_private_gateway_check Sample.world "vgw-1" false
                Sample.vgw_pending (mkAttachment "attached") eq_refl eq_refl) as H.
  cbn zeta in H. destruct H as (Hvalid & _ & _ & _ & _ & _ & Hdc & _).
  split; assumption.
Defined.

Lemma cross_connect_validation_witness :
  [Sample.vif_down; Sample.vif_ok] ≠ []
  ∧ output (report_dc_virtual_interfaces [Sample.vif_down; Sample.vif_ok] false)
    = [Print "Checking Direct Connect Virtual Interfaces:"]
      ++ []
      ++ flat_map virtual_interface_lines [Sample.vif_down; Sample.vif_ok].
Proof.
  assert ([Sample.vif_down; Sample.vif_ok] ≠ []) as Hne by discriminate.
  split; [exact Hne|].
  exact (proj1 (proj2 (cross_connect_validation [Sample.vif_down; Sample.vif_ok] false))
           Hne).
Defined.

Lemma unsupported_rule_shapes_ignored_witness :
  outcome (find_security_group_matches [Sample.perm_narrow; Sample.perm_all] "10.1.2.3")
  = Ok [Sample.perm_all]
  ∧ output (find_security_group_matches [Sample.perm_narrow; Sample.perm_all] "10.1.2.3")
    = flat_map unsupported_warnings [Sample.perm_narrow; Sample.perm_all].
Proof.
  assert (outcome (find_security_group_matches [Sample.perm_narrow; Sample.perm_all]
                     "10.1.2.3") = Ok [Sample.perm_all]) as Hrun by reflexivity.
  split; [exact Hrun|].
  exact (proj1 (proj2 (unsupported_rule_shapes_ignored
                         [Sample.perm_narrow; Sample.perm_all] "10.1.2.3")) _ Hrun).
Defined.

Lemma find_security_group_matches_subsequence_witness :
  outcome (find_security_group_matches
             [Sample.perm_narrow; Sample.perm_twice; Sample.perm_peer] "10.1.2.3")
  = Ok [Sample.perm_twice; Sample.perm_peer]
  ∧ is_some (ipaddress.ip_address "10.1.2.3") = true
  ∧ permissions_well_formed [Sample.perm_narrow; Sample.perm_twice; Sample.perm_peer] = true
  ∧ [Sample.perm_twice; Sample.perm_peer]
    `sublist_of` [Sample.perm_narrow; Sample.perm_twice; Sample.perm_peer].
Proof.
  assert (outcome (find_security_group_matches
                     [Sample.perm_narrow; Sample.perm_twice; Sample.perm_peer] "10.1.2.3")
          = Ok [Sample.perm_twice; Sample.perm_peer]) as Hrun by reflexivity.
  split; [exact Hrun|]. split; [reflexivity|]. split; [reflexivity|].
  exact (proj1 (proj1 (find_security_group_matches_subsequence
                         [Sample.perm_narrow; Sample.perm_twice; Sample.perm_peer]
                         "10.1.2.3") _ Hrun)).
Defined.

(** * Further properties of the program *)

(** ** Tags *)

(** X1. [get_value_for_tag_key] returns the value of the first tag whose
    key is the one asked for, whatever follows it, and the empty string
    when no tag has that key.  A tag without [Key] counts as having the
    empty key, and one without [Value] as having the empty value. *)
Theorem get_value_for_tag_key_first_match tags key :
  (Forall (λ item, tag_key item ≠ key) tags → get_value_for_tag_key tags key = "")
  ∧ (∀ before item after,
       tags = before ++ item :: after →
       Forall (λ i, tag_key i ≠ key) before →
       tag_key item = key →
       get_value_for_tag_key tags key = tag_value item).
Proof.
  split.
  - induction 1 as [|item tags Hne _ IH]; cbn [get_value_for_tag_key]; [done|].
    apply String.eqb_neq in Hne. unfold tag_key in Hne. by rewrite Hne.
  - intros before item after -> Hbefore Hitem.
    induction Hbefore as [|i before Hne _ IH]; cbn [get_value_for_tag_key app].
    + apply String.eqb_eq in Hitem. unfold tag_key in Hitem. by rewrite Hitem.
    + apply String.eqb_neq in Hne. unfold tag_key in Hne. by rewrite Hne.
Qed.

(** ** Subnets *)

Lemma process_subnet_list_loop subnets :
  ∀ acc,
    for_each subnets
      (λ s (subnet_id_list : list string),
         if String.eqb (SubnetStatus s) "Active"
         then mret (subnet_id_list ++ [SubnetIdentifier s])
         else
           print ("WARNING. Subnet " +:+ SubnetIdentifier s
                  +:+ " in DBSubnetGroup is not 'Active'");;
           mret subnet_id_list)
      acc
    = (map inactive_subnet_warning (List.filter (λ s, negb (subnet_active s)) subnets),
       Ok (acc ++ map SubnetIdentifier (List.filter subnet_active subnets))).
Proof.
  induction subnets as [|s subnets IH]; intros acc; cbn [for_each List.filter map].
  - by rewrite app_nil_r.
  - cbn beta. change (String.eqb (SubnetStatus s) "Active") with (subnet_active s).
    destruct (subnet_active s); mred; rewrite IH; cbn [fst snd negb map app];
      by rewrite <- ?app_assoc.
Qed.

(** X2. [process_subnet_list] returns the identifiers of the subnets whose
    status is "Active", in input order, prints one warning for every other
    subnet, and never raises. *)
Theorem process_subnet_list_active subnets :
  process_subnet_list subnets
  = (map inactive_subnet_warning (List.filter (λ s, negb (subnet_active s)) subnets),
     Ok (map SubnetIdentifier (List.filter subnet_active subnets))).
Proof. unfold process_subnet_list. by rewrite process_subnet_list_loop. Qed.

Lemma find_subnet_for_ip_loop_output a subnets :
  output (find_subnet_for_ip_loop a subnets) = [].
Proof.
  induction subnets as [|s subnets IH]; cbn [find_subnet_for_ip_loop]; [done|].
  destruct (ipaddress.ip_network (subnet_CidrBlock s)) as [net|]; mred; [|done].
  by destruct (ipaddress.contains net a).
Qed.

Lemma find_subnet_for_ip_loop_found a before s after :
  forallb (λ s', subnet_parses s' && negb (subnet_contains a s')) before = true →
  subnet_contains a s = true →
  outcome (find_subnet_for_ip_loop a (before ++ s :: after)) = Ok (Some s).
Proof.
  intros Hbefore Hs.
  induction before as [|s' before IH]; cbn [find_subnet_for_ip_loop app].
  - unfold subnet_contains in Hs.
    destruct (ipaddress.ip_network (subnet_CidrBlock s)) as [net|]; mred; [|done].
    by rewrite Hs.
  - simpl in Hbefore. apply andb_prop in Hbefore as [Hs' Hbefore].
    unfold subnet_parses, subnet_contains in Hs'.
    destruct (ipaddress.ip_network (subnet_CidrBlock s')) as [net|]; mred; [|done].
    destruct (ipaddress.contains net a); [done|]. by apply IH.
Qed.

Lemma find_subnet_for_ip_loop_none a subnets :
  forallb (λ s', subnet_parses s' && negb (subnet_contains a s')) subnets = true →
  outcome (find_subnet_for_ip_loop a subnets) = Ok None.
Proof.
  induction subnets as [|s' subnets IH]; cbn [find_subnet_for_ip_loop forallb]; [done|].
  intros [Hs' Hrest]%andb_prop. unfold subnet_parses, subnet_contains in Hs'.
  destruct (ipaddress.ip_network (subnet_CidrBlock s')) as [net|]; mred; [|done].
  destruct (ipaddress.contains net a); [done|]. by apply IH.
Qed.

Lemma find_subnet_for_ip_outcome aws subnet_id_list ip_address_str verbose a :
  ipaddress.ip_address ip_address_str = Some a →
  outcome (find_subnet_for_ip aws subnet_id_list ip_address_str verbose)
  = if (length subnet_id_list =? length (describe_subnets aws subnet_id_list))%nat
    then map_result (λ s, (s, describe_subnets aws subnet_id_list))
           (outcome (find_subnet_for_ip_loop a (describe_subnets aws subnet_id_list)))
    else Raise AssertionError.
Proof.
  intros Ha. unfold find_subnet_for_ip, get_subnets.
  destruct (length subnet_id_list =? length _)%nat;
    destruct verbose; cbn [when]; mred; try done;
    rewrite Ha; mred;
    destruct (find_subnet_for_ip_loop a _) as [l [s|e]]; by mred.
Qed.

(** X3. [find_subnet_for_ip] raises [AssertionError] when the API returns
    another number of subnets than was asked for.  Otherwise it returns
    the first subnet whose CIDR block contains the address, together with
    all the subnets; the subnets after that one are not even parsed.  It
    returns no subnet when every CIDR block is valid and none contains the
    address. *)
Theorem find_subnet_for_ip_first aws subnet_id_list ip_address_str verbose a :
  ipaddress.ip_address ip_address_str = Some a →
  let subnets := describe_subnets aws subnet_id_list in
  let result := outcome (find_subnet_for_ip aws subnet_id_list ip_address_str verbose) in
  (length subnet_id_list ≠ length subnets → result = Raise AssertionError)
  ∧ (length subnet_id_list = length subnets →
     (∀ before s after,
        subnets = before ++ s :: after →
        forallb (λ s', subnet_parses s' && negb (subnet_contains a s')) before = true →
        subnet_contains a s = true →
        result = Ok (Some s, subnets))
     ∧ (forallb (λ s', subnet_parses s' && negb (subnet_contains a s')) subnets = true →
        result = Ok (None, subnets))).
Proof.
  intros Ha subnets result. unfold result.
  rewrite (find_subnet_for_ip_outcome _ _ _ _ _ Ha). fold subnets. split.
  - intros Hne%Nat.eqb_neq. by rewrite Hne.
  - intros Heq%Nat.eqb_eq. rewrite Heq. split.
    + intros before s after Hsub Hbefore Hs. rewrite Hsub at 1.
      by rewrite (find_subnet_for_ip_loop_found _ _ _ _ Hbefore Hs).
    + intros Hnone. by rewrite (find_subnet_for_ip_loop_none _ _ Hnone).
Qed.

(** ** Route tables of subnets *)

(** X4. [get_route_table_for_subnet] returns the route table explicitly
    associated with the subnet when there is exactly one, falls back to
    the VPC's main route table when there is none and the VPC has exactly
    one main route table, and in every other case fails an assertion. *)
Theorem get_route_table_for_subnet_fallback aws vpc_id subnet_id verbose rt :
  (outcome (get_route_table_for_subnet aws vpc_id subnet_id verbose) = Ok rt
   ↔ describe_route_tables_for_subnet aws subnet_id = [rt]
     ∨ (describe_route_tables_for_subnet aws subnet_id = []
        ∧ describe_main_route_tables aws vpc_id = [rt]))
  ∧ (∀ e, outcome (get_route_table_for_subnet aws vpc_id subnet_id verbose) = Raise e →
          e = AssertionError).
Proof.
  unfold get_route_table_for_subnet, get_main_route_table_for_vpc.
  destruct (describe_route_tables_for_subnet aws subnet_id) as [|t [|? ?]]; mred.
  - destruct (describe_main_route_tables aws vpc_id) as [|t' [|? ?]]; mred;
      destruct verbose; cbn [when]; mred; cbn [outcome snd];
      (split; [split; [intros [= <-] || intros [=]; auto
                      |intros [[=]|[_ [=]]]; by subst]
              |by intros e [= <-] || intros e [=]]).
  - destruct verbose; cbn [when]; mred; cbn [outcome snd];
      (split; [split; [intros [= <-]; auto|intros [[= ->]|[[=] _]]; done]|intros e [=]]).
  - cbn [outcome snd].
    split; [split; [intros [=]|intros [[=]|[[=] _]]]|by intros e [= <-]].
Qed.

Lemma get_route_table_for_subnet_quiet aws vpc_id subnet_id :
  output (get_route_table_for_subnet aws vpc_id subnet_id false) = [].
Proof.
  unfold get_route_table_for_subnet, get_main_route_table_for_vpc.
  destruct (describe_route_tables_for_subnet aws subnet_id) as [|t [|? ?]]; mred;
    try done.
  destruct (describe_main_route_tables aws vpc_id) as [|t' [|? ?]]; by mred.
Qed.

Lemma get_route_tables_for_subnets_loop aws vpc_id verbose list_subnet_ids :
  ∀ (m0 m : gmap string RouteTable),
    outcome (for_each list_subnet_ids
               (λ subnet_id (rtables : gmap string RouteTable),
                  result ← get_route_table_for_subnet aws vpc_id subnet_id verbose;
                  mret (<[RouteTableId result := result]> rtables)) m0) = Ok m →
    (∀ id rt, m !! id = Some rt →
       m0 !! id = Some rt
       ∨ (RouteTableId rt = id
          ∧ ∃ subnet_id, subnet_id ∈ list_subnet_ids
              ∧ outcome (get_route_table_for_subnet aws vpc_id subnet_id verbose) = Ok rt))
    ∧ (∀ id, is_Some (m0 !! id) → is_Some (m !! id))
    ∧ (∀ subnet_id, subnet_id ∈ list_subnet_ids →
         ∃ rt, outcome (get_route_table_for_subnet aws vpc_id subnet_id verbose) = Ok rt
               ∧ is_Some (m !! RouteTableId rt))
    ∧ (size m ≤ size m0 + length list_subnet_ids)%nat.
Proof.
  induction list_subnet_ids as [|subnet_id ids IH]; intros m0 m; cbn [for_each].
  - intros [= <-]. repeat split; [auto|auto| |simpl; lia].
    by intros ? ?%elem_of_nil.
  - rewrite !outcome_bind.
    destruct (outcome (get_route_table_for_subnet aws vpc_id subnet_id verbose))
      as [rt|e] eqn:Hrt; [|done].
    cbn [mret M_ret outcome snd]. intros (H1 & H2 & H3 & H4)%IH.
    repeat split.
    + intros id rt' [Hm1|(Hid & s & Hs & Hget)]%H1.
      * apply lookup_insert_Some in Hm1 as [[<- <-]|[_ Hm0]]; [|by left].
        right. split; [done|]. exists subnet_id. split; [apply elem_of_cons; by left|done].
      * right. split; [done|]. exists s. split; [apply elem_of_cons; by right|done].
    + intros id Hid. apply H2, lookup_insert_is_Some.
      destruct (decide (RouteTableId rt = id)); auto.
    + intros s [->|Hs]%elem_of_cons; [|by apply H3].
      exists rt. split; [done|]. apply H2, lookup_insert_is_Some. by left.
    + rewrite map_size_insert in H4. cbn [length].
      destruct (m0 !! RouteTableId rt); simpl in H4; lia.
Qed.

(** X5. The route tables of a list of subnets are collected in a
    dictionary keyed by route-table id: every subnet's route table is
    there under its id, every entry is the route table of one of the
    subnets, and subnets that share a route table count once, so there are
    at most as many entries as subnets and none for no subnet. *)
Theorem get_route_tables_for_subnets_by_id aws vpc_id list_subnet_ids verbose
    (rtables : gmap string RouteTable) :
  outcome (get_route_tables_for_subnets aws vpc_id list_subnet_ids verbose) = Ok rtables →
  (∀ id rt, rtables !! id = Some rt →
     RouteTableId rt = id
     ∧ ∃ subnet_id, subnet_id ∈ list_subnet_ids
         ∧ outcome (get_route_table_for_subnet aws vpc_id subnet_id verbose) = Ok rt)
  ∧ (∀ subnet_id, subnet_id ∈ list_subnet_ids →
       ∃ rt, outcome (get_route_table_for_subnet aws vpc_id subnet_id verbose) = Ok rt
             ∧ is_Some (rtables !! RouteTableId rt))
  ∧ (size rtables ≤ length list_subnet_ids)%nat
  ∧ (list_subnet_ids = [] → rtables = ∅).
Proof.
  unfold get_route_tables_for_subnets.
  intros Hrun.
  pose proof (get_route_tables_for_subnets_loop _ _ _ _ _ _ Hrun) as (H1 & _ & H3 & H4).
  split; [|split; [|split]].
  - intros id rt Hm.
    destruct (H1 id rt Hm) as [Hempty|[? ?]]; [by rewrite lookup_empty in Hempty|done].
  - done.
  - by rewrite map_size_empty in H4.
  - intros ->. by injection Hrun as <-.
Qed.

Lemma get_route_tables_for_subnets_quiet aws vpc_id list_subnet_ids :
  output (get_route_tables_for_subnets aws vpc_id list_subnet_ids false) = [].
Proof.
  unfold get_route_tables_for_subnets. generalize (∅ : gmap string RouteTable).
  induction list_subnet_ids as [|subnet_id ids IH]; intros m0; cbn [for_each]; [done|].
  rewrite !output_bind, !outcome_bind, get_route_table_for_subnet_quiet.
  destruct (outcome (get_route_table_for_subnet aws vpc_id subnet_id false)); [|done].
  cbn [mret M_ret outcome output fst snd app]. apply IH.
Qed.

(** X6. The subnet-group check fails an assertion for an empty subnet
    list, for no route table and for no NACL.  Otherwise it returns no
    problem and prints exactly one warning when the subnets use more than
    one route table and one when they are covered by more than one NACL
    (besides the NACLs themselves when verbose). *)
Theorem report_db_subnet_groups_warnings aws vpc_id subnet_id_list verbose
    (rtables : gmap string RouteTable) :
  outcome (get_route_tables_for_subnets aws vpc_id subnet_id_list false) = Ok rtables →
  let nacls := describe_network_acls aws subnet_id_list in
  (subnet_id_list = [] ∨ size rtables = 0%nat →
   report_db_subnet_groups aws vpc_id subnet_id_list verbose = ([], Raise AssertionError))
  ∧ (size rtables ≠ 0%nat → nacls = [] →
     outcome (report_db_subnet_groups aws vpc_id subnet_id_list verbose)
     = Raise AssertionError)
  ∧ (size rtables ≠ 0%nat → nacls ≠ [] →
     report_db_subnet_groups aws vpc_id subnet_id_list verbose
     = ((if (1 <? size rtables)%nat then [route_table_divergence_warning] else [])
        ++ (if verbose then [PPrint (EvNetworkAcls nacls)] else [])
        ++ (if (1 <? length nacls)%nat then [nacl_divergence_warning] else []),
        Ok false)).
Proof.
  intros Hrun nacls.
  pose proof (get_route_tables_for_subnets_quiet aws vpc_id subnet_id_list) as Hquiet.
  assert (get_route_tables_for_subnets aws vpc_id subnet_id_list false = ([], Ok rtables))
    as Hget by (rewrite (surjective_M (get_route_tables_for_subnets _ _ _ _));
                by rewrite Hquiet, Hrun).
  unfold report_db_subnet_groups, get_nacls_for_subnets. rewrite Hget. fold nacls.
  mred. split; [|split].
  - intros Hempty.
    assert (size rtables = 0%nat) as ->.
    { destruct Hempty as [->|?]; [|done]. injection Hrun as <-. apply map_size_empty. }
    by mred.
  - intros Hsize ->. destruct (size rtables) as [|[|n]]; [done|..];
      destruct verbose; cbn [when]; by mred.
  - intros Hsize Hnacls.
    destruct (size rtables) as [|[|n]]; [done|..];
      destruct nacls as [|n1 [|n2 ?]]; try done;
      destruct verbose; cbn [when]; by mred.
Qed.

(** ** The source instance *)

(** X7. [get_ec2_instance_by_private_ip] returns nothing when no
    reservation has the address.  With one reservation of one instance it
    returns that instance with [Name] set to the value of its [Name] tag
    (the empty string without such a tag), and raises [KeyError] when the
    instance has no [Tags] at all.  Any other shape of the response fails
    an assertion. *)
Theorem get_ec2_instance_by_private_ip_shape aws private_ip_address :
  let reservations := describe_instances aws private_ip_address in
  let result := get_ec2_instance_by_private_ip aws private_ip_address in
  (reservations = [] → result = ([], Ok None))
  ∧ (∀ i tags, reservations = [mkReservation [i]] → Tags i = Some tags →
       result = ([], Ok (Some (with_name i (get_value_for_tag_key tags "Name")))))
  ∧ (∀ i, reservations = [mkReservation [i]] → Tags i = None →
       result = ([], Raise KeyError))
  ∧ (∀ r, outcome result = Ok r →
       reservations = [] ∨ ∃ i, reservations = [mkReservation [i]])
  ∧ (∀ e, outcome result = Raise e → e = AssertionError ∨ e = KeyError).
Proof.
  cbn zeta. unfold get_ec2_instance_by_private_ip.
  destruct (describe_instances aws private_ip_address) as [|[instances] [|? ?]]; simpl.
  - repeat split; try done. by left.
  - destruct instances as [|i [|? ?]]; simpl.
    + repeat split; try done. intros e [= <-]. by left.
    + destruct (Tags i) as [tags|] eqn:Htags; simpl.
      * repeat split; try done.
        -- intros i' tags' [= <-] Ht. unfold with_name. rewrite Htags in Ht |- *.
           by simplify_eq.
        -- intros i' [= <-]. congruence.
        -- intros r _. right. by exists i.
      * repeat split; try done.
        -- intros i' tags' [= <-]. congruence.
        -- intros e [= <-]. by right.
    + repeat split; try done. intros e [= <-]. by left.
  - repeat split; try done. intros e [= <-]. by left.
Qed.
(** ** Gateways *)

(** X8. An internet gateway is checked only when the API returns exactly
    one gateway with exactly one attachment; any other count fails an
    assertion.  The check is then a problem iff the attachment's state is
    not "available", and it prints the gateway and one verdict line. *)
Theorem internet_gateway_check aws gateway_id npe :
  let report := report_internet_gateway aws gateway_id npe in
  (∀ g attachment,
     describe_internet_gateways aws gateway_id = [g] →
     Attachments g = [attachment] →
     report
     = ([Print "Internet Gateway:"; PPrint (EvInternetGateway g);
         Print (if String.eqb (attachment_State attachment) "available"
                then "Internet Gateway appears OK."
                else "NETWORK CONNECTIVITY ERROR. Internet Gateway is NOT attached.")],
        Ok (npe || negb (String.eqb (attachment_State attachment) "available"))))
  ∧ (∀ r, outcome report = Ok r →
       ∃ g attachment,
         describe_internet_gateways aws gateway_id = [g] ∧ Attachments g = [attachment])
  ∧ (∀ e, outcome report = Raise e → e = AssertionError).
Proof.
  cbn zeta. unfold report_internet_gateway.
  destruct (describe_internet_gateways aws gateway_id) as [|g [|? ?]]; mred;
    try (split; [done|split; [done|by intros e [= <-]]]).
  destruct (Attachments g) as [|attachment [|? ?]] eqn:Hatt; mred;
    try (split; [intros g' att' [= <-]; congruence
                |split; [done|by intros e [= <-]]]).
  destruct (String.eqb (attachment_State attachment) "available") eqn:Hs; mred;
    cbn [outcome output fst snd];
    (split; [intros g' att' [= <-] Ha'; rewrite Hatt in Ha'; injection Ha' as <-;
             rewrite Hs; by rewrite ?orb_true_r, ?orb_false_r
            |split; [intros r _; by exists g, attachment|intros e [=]]]).
Qed.

(** X9. A NAT gateway is checked only when the API returns exactly one
    gateway; any other count fails an assertion.  The check is then a
    problem iff the gateway's state is not "available". *)
Theorem nat_gateway_check aws nat_gateway_id verbose npe :
  let report := report_nat_gateway aws nat_gateway_id verbose npe in
  (∀ g,
     describe_nat_gateways aws nat_gateway_id = [g] →
     outcome report = Ok (npe || negb (String.eqb (nat_State g) "available"))
     ∧ problems (output report)
       = if String.eqb (nat_State g) "available" then []
         else [Print "NETWORK CONNECTIVITY ERROR. NAT Gateway not available"])
  ∧ (∀ r, outcome report = Ok r → ∃ g, describe_nat_gateways aws nat_gateway_id = [g])
  ∧ (∀ e, outcome report = Raise e → e = AssertionError).
Proof.
  cbn zeta. unfold report_nat_gateway, get_nat_gateway.
  destruct (describe_nat_gateways aws nat_gateway_id) as [|g [|? ?]]; mred;
    try (split; [done|split; [done|by intros e [= <-]]]).
  destruct verbose, (String.eqb (nat_State g) "available") eqn:Hs; cbn [when]; mred;
    rewrite ?Hs; mred;
    cbn [outcome output fst snd];
    (split; [intros g' [= <-]; rewrite Hs;
             split; [by rewrite ?orb_true_r, ?orb_false_r|done]
            |split; [intros r _; by exists g|intros e [=]]]).
Qed.

(** X10. A peering connection is checked only when the API returns
    exactly one connection.  The check is a problem iff the status code is
    not "active".  It also shows the other side of the connection: the
    requester's VPC when the source VPC is the accepter's, and the
    accepter's VPC in every other case; this has no part in the verdict. *)
Theorem peering_connection_check aws peering_connection_id source_vpc_id verbose npe :
  let report := report_peering_connection aws peering_connection_id source_vpc_id
                  verbose npe in
  (∀ c,
     describe_vpc_peering_connections aws peering_connection_id = [c] →
     outcome report = Ok (npe || negb (String.eqb (StatusCode c) "active"))
     ∧ problems (output report)
       = (if String.eqb (StatusCode c) "active" then []
          else [Print "NETWORK CONNECTIVITY ERROR. VPC Peering Connection is not active"])
     ∧ [Print "Destination peering info:";
        PPrint (EvVpcInfo (destination_peering_info c source_vpc_id))]
       `suffix_of` output report)
  ∧ (∀ r, outcome report = Ok r →
       ∃ c, describe_vpc_peering_connections aws peering_connection_id = [c])
  ∧ (∀ e, outcome report = Raise e → e = AssertionError).
Proof.
  cbn zeta. unfold report_peering_connection, get_vpc_peering_connections.
  destruct (describe_vpc_peering_connections aws peering_connection_id)
    as [|c [|? ?]]; mred;
    try (split; [done|split; [done|by intros e [= <-]]]).
  fold (destination_peering_info c source_vpc_id).
  destruct verbose, (String.eqb (StatusCode c) "active") eqn:Hs; cbn [when]; mred;
    rewrite ?Hs; mred;
    cbn [outcome output fst snd];
    (split; [intros c' [= <-]; rewrite Hs;
             split; [by rewrite ?orb_true_r, ?orb_false_r|];
             split; [done|];
             repeat first [reflexivity | apply suffix_cons_r | apply suffix_app_r]
            |split; [intros r _; by exists c|intros e [=]]]).
Qed.

(** ** No route *)

(** X11. When no route of the table has a destination CIDR that contains
    the destination (in particular for an empty table), the route-table
    check is a problem, says that there is no route to the destination,
    and asks nothing of any gateway. *)
Theorem no_route_is_a_problem aws source_route_table source_vpc_id
    source_ip_address dest_ip_address verbose a :
  ipaddress.ip_address dest_ip_address = Some a →
  routes_well_formed (Routes source_route_table) = true →
  (∀ r, r ∈ Routes source_route_table → route_matches a r = false) →
  let report := report_route_table aws source_route_table source_vpc_id
                  source_ip_address dest_ip_address verbose in
  outcome report = Ok true
  ∧ problems (output report)
    = [Print ("NETWORK CONNECTIVITY ERROR. There is no route to " +:+ dest_ip_address)]
  ∧ [Print ("NETWORK CONNECTIVITY ERROR. There is no route to " +:+ dest_ip_address)]
    `suffix_of` output report.
Proof.
  intros Ha Hwf Hnone report.
  assert (outcome (find_route_matches (Routes source_route_table) dest_ip_address verbose)
          = Ok None) as Hr.
  { unfold find_route_matches. rewrite outcome_bind, Ha. simpl. rewrite outcome_bind.
    destruct (find_route_matches_loop a verbose _ Hwf None)
      as (best & -> & [[-> _]|(i & r & net & Hi & _ & _ & Hm & _)]); [done|].
    apply list_elem_of_lookup_2 in Hi. rewrite (Hnone r Hi) in Hm. done. }
  destruct (report_route_table_unfold aws source_route_table source_vpc_id
              source_ip_address dest_ip_address verbose None Hr) as (Ho & Hp & Hs).
  fold report in Ho, Hp, Hs. by rewrite Ho, Hp.
Qed.
(** ** Security groups: the loop over the ranges *)



(** ** Network ACL: an entry without a CIDR block *)

(** X13. An entry that has no [CidrBlock] (an IPv6 entry) makes the NACL
    evaluation raise [KeyError] as soon as it is reached, and the NACL
    report with it, before any verdict on the NACL is printed. *)
Theorem nacl_entry_without_cidr_block source_nacl source_ip_address dest_ip_address
    verbose a before e after :
  ipaddress.ip_address dest_ip_address = Some a →
  Entries source_nacl = before ++ e :: after →
  nacl_entries_well_formed before = true →
  CidrBlock e = None →
  find_nacl_rule_matches (Entries source_nacl) dest_ip_address = ([], Raise KeyError)
  ∧ outcome (report_nacl source_nacl source_ip_address dest_ip_address verbose)
    = Raise KeyError
  ∧ problems (output (report_nacl source_nacl source_ip_address dest_ip_address verbose))
    = [].
Proof.
  intros Ha Hentries Hbefore He. rewrite Hentries.
  assert (∀ acc, for_each (before ++ e :: after) (find_nacl_rule_matches_body a) acc
                 = ([], Raise KeyError)) as Hloop.
  { clear Hentries.
    induction before as [|e' before IH]; intros [inbound outbound]; cbn [app for_each].
    - assert (find_nacl_rule_matches_body a e (inbound, outbound) = ([], Raise KeyError))
        as -> by (unfold find_nacl_rule_matches_body; rewrite He; by mred).
      done.
    - simpl in Hbefore. apply andb_prop in Hbefore as [He' Hbefore].
      rewrite (find_nacl_rule_matches_body_spec _ _ _ _ He'). mred. by rewrite IH. }
  assert (find_nacl_rule_matches (before ++ e :: after) dest_ip_address
          = ([], Raise KeyError)) as Hfind.
  { unfold find_nacl_rule_matches. rewrite Ha. mred. by rewrite Hloop. }
  split; [done|]. unfold report_nacl. rewrite Hentries, Hfind. by mred.
Qed.

(** ** Security groups: evaluation of several lists *)

Lemma find_security_group_matches_loop_acc a permissions :
  ∀ matches,
    for_each permissions (find_security_group_matches_body a) matches
    = (output (for_each permissions (find_security_group_matches_body a) []),
       map_result (app matches)
         (outcome (for_each permissions (find_security_group_matches_body a) []))).
Proof.
  induction permissions as [|p permissions IH]; intros matches; cbn [for_each].
  - unfold mret, M_ret, output, outcome. simpl. by rewrite app_nil_r.
  - rewrite !find_security_group_matches_body_unfold.
    destruct (outcome (ip_ranges_match a (IpRanges p))) as [b|e]; mred; [|done].
    set (x := if b || (0 <? length (UserIdGroupPairs p))%nat then [p] else []).
    rewrite (IH (matches ++ x)), (IH x).
    cbn [output outcome fst snd].
    destruct (for_each permissions _ []) as [l [m|e]];
      cbn [map_result outcome output fst snd]; [|done].
    by rewrite app_assoc.
Qed.

Lemma find_security_group_matches_loop_app a permissions1 permissions2 :
  ∀ matches,
    for_each (permissions1 ++ permissions2) (find_security_group_matches_body a) matches
    = match outcome (for_each permissions1 (find_security_group_matches_body a) matches) with
      | Ok matches1 =>
          (output (for_each permissions1 (find_security_group_matches_body a) matches)
           ++ output (for_each permissions2 (find_security_group_matches_body a) []),
           map_result (app matches1)
             (outcome (for_each permissions2 (find_security_group_matches_body a) [])))
      | Raise e =>
          (output (for_each permissions1 (find_security_group_matches_body a) matches),
           Raise e)
      end.
Proof.
  induction permissions1 as [|p permissions1 IH]; intros matches; cbn [app for_each].
  - unfold mret, M_ret, output, outcome. cbn [fst snd app].
    by rewrite find_security_group_matches_loop_acc.
  - rewrite !find_security_group_matches_body_unfold.
    destruct (outcome (ip_ranges_match a (IpRanges p))) as [b|e]; mred; [|done].
    rewrite IH.
    destruct (for_each permissions1 _ _) as [l1 [m1|e1]];
      cbn [outcome output fst snd]; [|done].
    by rewrite app_assoc.
Qed.

(** X14. Evaluating a concatenation of permission lists is evaluating
    them one after the other: the matches and the warnings are those of
    the first list followed by those of the second, and an exception of
    either evaluation is the exception of the whole.  This is how the
    matches of several security groups add up. *)
Theorem find_security_group_matches_app permissions1 permissions2 dest_ip_str :
  find_security_group_matches (permissions1 ++ permissions2) dest_ip_str
  = match outcome (find_security_group_matches permissions1 dest_ip_str) with
    | Ok matches1 =>
        (output (find_security_group_matches permissions1 dest_ip_str)
         ++ output (find_security_group_matches permissions2 dest_ip_str),
         map_result (app matches1)
           (outcome (find_security_group_matches permissions2 dest_ip_str)))
    | Raise e => (output (find_security_group_matches permissions1 dest_ip_str), Raise e)
    end.
Proof.
  unfold find_security_group_matches.
  destruct (ipaddress.ip_address dest_ip_str) as [a|]; mred; [|done].
  rewrite find_security_group_matches_loop_app. cbn [outcome output fst snd].
  by destruct (for_each permissions1 _ []) as [l1 [m1|e1]].
Qed.
(** ** Security groups: the edges of the report *)

(** X15. The security-group report fails an assertion, before printing
    anything, when the API returns another number of groups than was
    asked for.  For a source without any security group it reports both
    directions as problems, and does so without looking at the
    destination. *)
Theorem report_security_groups_edges aws ids source_ip_address dest_ip_address verbose :
  let report := report_security_groups aws ids source_ip_address dest_ip_address verbose in
  (length (describe_security_groups aws ids) ≠ length ids →
   report = ([], Raise AssertionError))
  ∧ (describe_security_groups aws ids = [] → ids = [] →
     outcome report = Ok true
     ∧ problems (output report)
       = [Print ("NETWORK CONNECTIVITY ERROR. No ingress is allowed by source Security Groups for "
                 +:+ dest_ip_address);
          Print ("NETWORK CONNECTIVITY ERROR. No egress is allowed by source Security Groups for "
                 +:+ dest_ip_address)]).
Proof.
  cbn zeta. unfold report_security_groups, get_security_groups. split.
  - intros Hne%Nat.eqb_neq. rewrite Hne. by mred.
  - intros -> ->. destruct verbose; cbn [when for_each length Nat.eqb]; mred; done.
Qed.

(** ** Virtual interfaces: one problem line per violated condition *)

Lemma problems_bgp_peer_lines_length peers :
  length (problems (flat_map bgp_peer_lines peers))
  = length (List.filter (λ p, negb (bgp_peer_ok p)) peers).
Proof.
  induction peers as [|p peers IH]; cbn [flat_map List.filter]; [done|].
  rewrite problems_app, length_app, IH. unfold bgp_peer_lines.
  by destruct (bgp_peer_ok p).
Qed.

Lemma problems_virtual_interface_lines_length i :
  length (problems (virtual_interface_lines i)) = violations i.
Proof.
  unfold virtual_interface_lines, violations.
  rewrite !problems_app, !length_app, problems_bgp_peer_lines_length.
  destruct (String.eqb (virtualInterfaceState i) "available");
    destruct (virtual_interface_ok i); simpl; lia.
Qed.

(** X16. For a non-empty list of virtual interfaces the report prints as
    many problem lines as there are violated conditions: one for each
    interface that is not "available" and one for each BGP peer that is
    not both "available" and "up". *)
Theorem virtual_interface_problem_count dc_vifs verbose :
  dc_vifs ≠ [] →
  length (problems (output (report_dc_virtual_interfaces dc_vifs verbose)))
  = list_sum (map violations dc_vifs).
Proof.
  intros Hne. rewrite report_dc_virtual_interfaces_spec. cbn [output fst].
  rewrite !problems_app.
  assert (problems (if verbose then [PPrint (EvVirtualInterfaces dc_vifs)] else []) = [])
    as -> by by destruct verbose.
  change (problems [Print "Checking Direct Connect Virtual Interfaces:"]) with (@nil Output).
  cbn [app]. destruct dc_vifs as [|i0 dc_vifs]; [done|]. clear Hne.
  induction (i0 :: dc_vifs) as [|i l IH]; cbn [flat_map map list_sum]; [done|].
  by rewrite problems_app, length_app, problems_virtual_interface_lines_length, IH.
Qed.

(** ** main: the source *)

(** X17. When no source is named, or none of the named sources is found,
    [main] does not reach any check: it raises [UnboundLocalError] where
    it first reads the source's address. *)
Theorem main_without_source aws args :
  source_ec2_ip args = "" ∨ describe_instances aws (source_ec2_ip args) = [] →
  source_rds args = "" ∨ describe_db_instances aws (source_rds args) = [] →
  source_dms args = "" ∨ describe_replication_instances aws (source_dms args) = [] →
  outcome (main aws args) = Raise UnboundLocalError.
Proof.
  intros Hec2 Hrds Hdms.
  assert (∀ st, ∃ l, main_ec2 aws args st = (l, Ok st)) as H1.
  { intros st. unfold main_ec2, get_ec2_instance_by_private_ip.
    destruct (String.eqb (source_ec2_ip args) "") eqn:He; [by eexists|].
    apply String.eqb_neq in He. destruct Hec2 as [? | ->]; [done|]. mred. by eexists. }
  assert (∀ st, ∃ l, main_rds aws args st = (l, Ok st)) as H2.
  { intros st. unfold main_rds, get_rds_instance.
    destruct (String.eqb (source_rds args) "") eqn:He; [by eexists|].
    apply String.eqb_neq in He. destruct Hrds as [? | ->]; [done|].
    destruct (verbose args); cbn [when length Nat.leb head]; mred; by eexists. }
  assert (∀ st, ∃ l, main_dms aws args st = (l, Ok st)) as H3.
  { intros st. unfold main_dms, get_dms_instance.
    destruct (String.eqb (source_dms args) "") eqn:He; [by eexists|].
    apply String.eqb_neq in He. destruct Hdms as [? | ->]; [done|].
    destruct (verbose args); cbn [when length Nat.leb head]; mred; by eexists. }
  unfold main. mred.
  destruct (H1 (mkLocals None [] false)) as [l1 ->]. mred.
  destruct (H2 (mkLocals None [] false)) as [l2 ->]. mred.
  destruct (H3 (mkLocals None [] false)) as [l3 ->]. mred.
  done.
Qed.

(** X18. The RDS block of [main] cannot complete for an instance that is
    publicly accessible: its last test calls a method that strings do not
    have, so the run ends in an exception and [main] returns no verdict. *)
Theorem main_rds_publicly_accessible aws args st source_rds_instance :
  source_rds args ≠ "" →
  describe_db_instances aws (source_rds args) = [source_rds_instance] →
  PubliclyAccessible source_rds_instance = true →
  (∀ st', outcome (main_rds aws args st) ≠ Ok st')
  ∧ (∀ flag, outcome (main aws args) ≠ Ok flag).
Proof.
  intros Hname%String.eqb_neq Hdesc Hpublic.
  assert (∀ st st', outcome (main_rds aws args st) ≠ Ok st') as Hrds.
  { clear st. intros st st' H. unfold main_rds in H. rewrite Hname in H. peel.
    assert (x = Some source_rds_instance) as ->.
    { revert H0. unfold get_rds_instance. rewrite Hdesc.
      destruct (verbose args); cbn [when length Nat.leb head]; mred; by intros [= <-]. }
    peel.
    match goal with
    | Hp : outcome (if PubliclyAccessible _ then _ else _) = Ok _ |- _ =>
        rewrite Hpublic in Hp; discriminate Hp
    end. }
  split; [apply Hrds|].
  intros flag Hmain.
  destruct (main_spec aws args flag Hmain)
    as (l1 & st1 & l2 & st2 & l3 & st3 & l_c & hdr & _ & H2 & _).
  apply (Hrds st1 st2). by rewrite H2.
Qed.

(** X19. The EC2 block of [main] completes for a found instance only if
    the instance's private address is the one asked for and the instance
    has tags.  The source is then that instance, named after its [Name]
    tag, and its security groups are added to those collected so far. *)
Theorem main_ec2_source aws args st st' i :
  source_ec2_ip args ≠ "" →
  describe_instances aws (source_ec2_ip args) = [mkReservation [i]] →
  outcome (main_ec2 aws args st) = Ok st' →
  PrivateIpAddress i = source_ec2_ip args
  ∧ ∃ tags,
      Tags i = Some tags
      ∧ st' = mkLocals
                (Some (mkSource (instance_VpcId i) (instance_SubnetId i)
                         (get_value_for_tag_key tags "Name") (PrivateDnsName i)
                         (source_ec2_ip args) (SecurityGroups i)))
                (source_security_group_ids st ++ SecurityGroups i)
                (network_problem_exists st).
Proof.
  intros Hname%String.eqb_neq Hdesc.
  unfold main_ec2, get_ec2_instance_by_private_ip. rewrite Hname, Hdesc. simpl.
  destruct (Tags i) as [tags|]; simpl; [|done].
  destruct (String.eqb (source_ec2_ip args) (PrivateIpAddress i)) eqn:Hip; simpl; [|done].
  apply String.eqb_eq in Hip.
  destruct (verbose args); simpl; intros [= <-];
    (split; [done|]); exists tags; (split; [done|]); by rewrite Hip.
Qed.
(** ** The further properties applied to the sample snapshots *)

Lemma get_value_for_tag_key_first_match_witness :
  get_value_for_tag_key SampleRds.tags "Name" = "db"
  ∧ get_value_for_tag_key SampleRds.tags "Owner" = "".
Proof.
  split.
  - etrans;
      [apply (proj2 (get_value_for_tag_key_first_match SampleRds.tags "Name")
                [ {[ "Key" := "Env"; "Value" := "prod" ]}; {[ "Value" := "orphan" ]} ]
                {[ "Key" := "Name"; "Value" := "db" ]}
                [ {[ "Key" := "Name"; "Value" := "other" ]} ]);
         [reflexivity | repeat constructor; vm_compute; discriminate | vm_compute; reflexivity]
      |vm_compute; reflexivity].
  - apply (proj1 (get_value_for_tag_key_first_match SampleRds.tags "Owner")).
    repeat constructor; vm_compute; discriminate.
Defined.

Lemma find_subnet_for_ip_first_witness :
  ipaddress.ip_address "10.1.2.7" = Some 167838215
  ∧ outcome (find_subnet_for_ip SampleRds.world ["subnet-a"; "subnet-b"; "subnet-c"]
               "10.1.2.7" false)
    = Ok (Some SampleRds.subnet_b,
          [SampleRds.subnet_a; SampleRds.subnet_b; SampleRds.subnet_c])
  ∧ outcome (find_subnet_for_ip SampleRds.world ["subnet-a"; "subnet-z"] "10.1.2.7" false)
    = Raise AssertionError.
Proof.
  split; [reflexivity|]. split.
  - apply (proj1 (proj2 (find_subnet_for_ip_first SampleRds.world
                           ["subnet-a"; "subnet-b"; "subnet-c"] "10.1.2.7" false
                           167838215 eq_refl) eq_refl)
             [SampleRds.subnet_a] SampleRds.subnet_b [SampleRds.subnet_c]);
      vm_compute; reflexivity.
  - apply (proj1 (find_subnet_for_ip_first SampleRds.world ["subnet-a"; "subnet-z"]
                    "10.1.2.7" false 167838215 eq_refl)).
    vm_compute. discriminate.
Defined.

Lemma get_route_table_for_subnet_fallback_witness :
  describe_route_tables_for_subnet SampleRds.world "subnet-a" = []
  ∧ describe_main_route_tables SampleRds.world "vpc-1" = [SampleRds.route_table]
  ∧ outcome (get_route_table_for_subnet SampleRds.world "vpc-1" "subnet-a" false)
    = Ok SampleRds.route_table.
Proof.
  split; [reflexivity|]. split; [reflexivity|].
  apply (proj1 (get_route_table_for_subnet_fallback SampleRds.world "vpc-1" "subnet-a"
                  false SampleRds.route_table)).
  right. split; reflexivity.
Defined.

Lemma get_route_tables_for_subnets_by_id_witness :
  outcome (get_route_tables_for_subnets SampleRds.world "vpc-1"
             ["subnet-a"; "subnet-b"] false)
  = Ok {[ "rtb-2" := SampleRds.route_table ]}
  ∧ (size ({[ "rtb-2" := SampleRds.route_table ]} : gmap string RouteTable) ≤ 2)%nat.
Proof.
  assert (outcome (get_route_tables_for_subnets SampleRds.world "vpc-1"
                     ["subnet-a"; "subnet-b"] false)
          = Ok {[ "rtb-2" := SampleRds.route_table ]}) as H by (vm_compute; reflexivity).
  split; [exact H|].
  exact (proj1 (proj2 (proj2 (get_route_tables_for_subnets_by_id SampleRds.world "vpc-1"
                                ["subnet-a"; "subnet-b"] false _ H)))).
Defined.

Lemma report_db_subnet_groups_warnings_witness :
  outcome (get_route_tables_for_subnets SampleRds.world "vpc-1"
             ["subnet-a"; "subnet-b"] false)
  = Ok {[ "rtb-2" := SampleRds.route_table ]}
  ∧ report_db_subnet_groups SampleRds.world "vpc-1" ["subnet-a"; "subnet-b"] false
    = ([nacl_divergence_warning], Ok false).
Proof.
  assert (outcome (get_route_tables_for_subnets SampleRds.world "vpc-1"
                     ["subnet-a"; "subnet-b"] false)
          = Ok {[ "rtb-2" := SampleRds.route_table ]}) as H by (vm_compute; reflexivity).
  split; [exact H|].
  refine (proj2 (proj2 (report_db_subnet_groups_warnings SampleRds.world "vpc-1"
                          ["subnet-a"; "subnet-b"] false _ H)) _ _);
    vm_compute; discriminate.
Defined.

Lemma get_ec2_instance_by_private_ip_shape_witness :
  describe_instances Sample.world "10.1.2.5" = [mkReservation [Sample.instance]]
  ∧ get_ec2_instance_by_private_ip Sample.world "10.1.2.5"
    = ([], Ok (Some (with_name Sample.instance "web")))
  ∧ get_ec2_instance_by_private_ip Sample.world "10.9.9.9" = ([], Ok None).
Proof.
  split; [reflexivity|]. split.
  - exact (proj1 (proj2 (get_ec2_instance_by_private_ip_shape Sample.world "10.1.2.5"))
             Sample.instance [ {[ "Key" := "Name"; "Value" := "web" ]} ] eq_refl eq_refl).
  - exact (proj1 (get_ec2_instance_by_private_ip_shape Sample.world "10.9.9.9") eq_refl).
Defined.

Lemma internet_gateway_check_witness :
  report_internet_gateway Sample.world "igw-1" false
  = ([Print "Internet Gateway:";
      PPrint (EvInternetGateway (mkInternetGateway "igw-1" [mkAttachment "available"]));
      Print "Internet Gateway appears OK."],
     Ok false).
Proof.
  exact (proj1 (internet_gateway_check Sample.world "igw-1" false)
           (mkInternetGateway "igw-1" [mkAttachment "available"]) (mkAttachment "available")
           eq_refl eq_refl).
Defined.

Lemma nat_gateway_check_witness :
  outcome (report_nat_gateway SampleRds.world "nat-1" false false) = Ok true
  ∧ problems (output (report_nat_gateway SampleRds.world "nat-1" false false))
    = [Print "NETWORK CONNECTIVITY ERROR. NAT Gateway not available"].
Proof.
  exact (proj1 (nat_gateway_check SampleRds.world "nat-1" false false)
           SampleRds.nat_gateway eq_refl).
Defined.

Lemma peering_connection_check_witness :
  outcome (report_peering_connection SampleRds.world "pcx-1" "vpc-1" false false) = Ok false
  ∧ problems (output (report_peering_connection SampleRds.world "pcx-1" "vpc-1" false false))
    = []
  ∧ [Print "Destination peering info:";
     PPrint (EvVpcInfo (mkVpcInfo "vpc-2" "10.2.0.0/16"))]
    `suffix_of` output (report_peering_connection SampleRds.world "pcx-1" "vpc-1" false false).
Proof.
  exact (proj1 (peering_connection_check SampleRds.world "pcx-1" "vpc-1" false false)
           SampleRds.peering_connection eq_refl).
Defined.

Lemma no_route_is_a_problem_witness :
  ipaddress.ip_address "172.16.0.1" = Some 2886729729
  ∧ routes_well_formed (Routes SampleRds.route_table) = true
  ∧ outcome (report_route_table Sample.world SampleRds.route_table "vpc-1"
               "10.1.2.5" "172.16.0.1" false) = Ok true.
Proof.
  split; [reflexivity|]. split; [reflexivity|].
  refine (proj1 (no_route_is_a_problem Sample.world SampleRds.route_table "vpc-1"
                   "10.1.2.5" "172.16.0.1" false 2886729729 eq_refl eq_refl _)).
  intros r Hr. apply list_elem_of_In in Hr. simpl in Hr.
  destruct Hr as [<- | [<- | []]]; vm_compute; reflexivity.
Defined.


Lemma nacl_entry_without_cidr_block_witness :
  ipaddress.ip_address "10.1.2.3" = Some 167838211
  ∧ nacl_entries_well_formed [Sample.entry_all_in] = true
  ∧ CidrBlock SampleDenied.entry_ipv6 = None
  ∧ outcome (report_nacl SampleDenied.nacl_with_ipv6 "10.1.2.5" "10.1.2.3" true)
    = Raise KeyError.
Proof.
  split; [reflexivity|]. split; [reflexivity|]. split; [reflexivity|].
  exact (proj1 (proj2 (nacl_entry_without_cidr_block SampleDenied.nacl_with_ipv6
                         "10.1.2.5" "10.1.2.3" true 167838211
                         [Sample.entry_all_in] SampleDenied.entry_ipv6 [Sample.entry_all_out]
                         eq_refl eq_refl eq_refl eq_refl))).
Defined.

Lemma report_security_groups_edges_witness :
  length (describe_security_groups Sample.world []) = 1%nat
  ∧ report_security_groups Sample.world [] "10.1.2.5" "10.1.2.3" false
    = ([], Raise AssertionError).
Proof.
  split; [reflexivity|].
  apply (proj1 (report_security_groups_edges Sample.world [] "10.1.2.5" "10.1.2.3" false)).
  vm_compute. discriminate.
Defined.

Lemma virtual_interface_problem_count_witness :
  length (problems (output (report_dc_virtual_interfaces
                              [Sample.vif_ok; Sample.vif_down] false))) = 1%nat.
Proof.
  refine (virtual_interface_problem_count [Sample.vif_ok; Sample.vif_down] false _).
  discriminate.
Defined.

Lemma main_without_source_witness :
  describe_instances Sample.world "10.9.9.9" = []
  ∧ outcome (main Sample.world (mkArgs false "10.9.9.9" "10.2.3.4" "" ""))
    = Raise UnboundLocalError.
Proof.
  split; [reflexivity|].
  apply (main_without_source Sample.world (mkArgs false "10.9.9.9" "10.2.3.4" "" ""));
    [right|left|left]; reflexivity.
Defined.

Lemma main_rds_publicly_accessible_witness :
  describe_db_instances SampleRds.world "db-1" = [SampleRds.db_instance]
  ∧ PubliclyAccessible SampleRds.db_instance = true
  ∧ outcome (main_rds SampleRds.world SampleRds.args (mkLocals None [] false))
    = Raise AttributeError
  ∧ ∀ flag, outcome (main SampleRds.world SampleRds.args) ≠ Ok flag.
Proof.
  split; [reflexivity|]. split; [reflexivity|]. split; [vm_compute; reflexivity|].
  refine (proj2 (main_rds_publicly_accessible SampleRds.world SampleRds.args
                   (mkLocals None [] false) SampleRds.db_instance _ eq_refl eq_refl)).
  vm_compute. discriminate.
Defined.

Lemma main_ec2_source_witness :
  describe_instances Sample.world "10.1.2.5" = [mkReservation [Sample.instance]]
  ∧ outcome (main_ec2 Sample.world (Sample.args "10.2.3.4") (mkLocals None [] false))
    = Ok SampleDenied.locals
  ∧ PrivateIpAddress Sample.instance = "10.1.2.5".
Proof.
  assert (outcome (main_ec2 Sample.world (Sample.args "10.2.3.4") (mkLocals None [] false))
          = Ok SampleDenied.locals) as H by (vm_compute; reflexivity).
  split; [reflexivity|]. split; [exact H|].
  refine (proj1 (main_ec2_source Sample.world (Sample.args "10.2.3.4")
                   (mkLocals None [] false) SampleDenied.locals Sample.instance
                   _ eq_refl H)).
  vm_compute. discriminate.
Defined.
